(** * PyOS: a shallow embedding of the application logic and its properties

    The development follows the layout of the Python sources under
    [Python/PyOS]: one module per application ([apps/tetris.py],
    [apps/snake.py], [apps/calendar.py], ...), preceded by a small prelude
    that fixes how Python values, exceptions and lists are represented.

    Conventions.
    - Python [int] is [Z]; [//] and [%] are [Z.div] and [Z.modulo] (both
      round towards minus infinity for a positive divisor, as in Python).
    - [str] is [string], read as the UTF-8 encoding of the text; the
      byte-wise lexicographic order of UTF-8 coincides with Python's
      code-point order on [str].
    - A function that may raise returns a [result]; [Raise e] propagates
      through [x ← m; k] exactly like an uncaught Python exception.
    - Qt widgets are reduced to the fields the code reads and writes. *)

From Stdlib Require Import ZArith String Ascii List Lia Bool Permutation Sorted.
From stdpp Require Import base option list strings gmap pretty.
Import ListNotations.
Open Scope Z_scope.

(** ** Prelude: exceptions and Python list indexing *)

Inductive exn :=
  | IndexError
  | KeyError
  | ValueError (msg : string)
  | TypeError
  | AttributeError
  | ZeroDivisionError
  | OverflowError
  | SyntaxError
  | JSONDecodeError
  | FileExistsError
  | FileNotFoundError
  | NotADirectoryError
  | IsADirectoryError
  | OSError
  | ShutilError.

Inductive result (A : Type) :=
  | Ok (a : A)
  | Raise (e : exn).
Arguments Ok {A} a.
Arguments Raise {A} e.

#[global] Instance result_ret : MRet result := fun A a => Ok a.
#[global] Instance result_bind : MBind result :=
  fun A B f m => match m with Ok a => f a | Raise e => Raise e end.

Definition raises {A} (r : result A) : Prop := exists e, r = Raise e.
Definition returns {A} (r : result A) (a : A) : Prop := r = Ok a.

(** [l[i]] for a Python list: negative indices count from the end, anything
    out of range raises [IndexError]. *)
Definition py_index {A} (l : list A) (i : Z) : result A :=
  let n := Z.of_nat (length l) in
  let j := if i <? 0 then i + n else i in
  if (j <? 0) || (n <=? j) then Raise IndexError
  else match l !! Z.to_nat j with
       | Some a => Ok a
       | None => Raise IndexError
       end.

(** [l[i] = v] for a Python list. *)
Definition py_setitem {A} (l : list A) (i : Z) (v : A) : result (list A) :=
  let n := Z.of_nat (length l) in
  let j := if i <? 0 then i + n else i in
  if (j <? 0) || (n <=? j) then Raise IndexError
  else Ok (<[Z.to_nat j := v]> l).

(** ** Strings *)

Module Str.
(** [s.split(sep)] for a one-character separator. *)
Fixpoint split_on (sep : ascii) (s : string) : list string :=
  match s with
  | EmptyString => [EmptyString]
  | String c rest =>
      if Ascii.eqb c sep then EmptyString :: split_on sep rest
      else match split_on sep rest with
           | [] => [String c EmptyString]
           | w :: ws => String c w :: ws
           end
  end.

(** [sep.join(l)]. *)
Fixpoint join (sep : string) (l : list string) : string :=
  match l with
  | [] => EmptyString
  | [x] => x
  | x :: rest => x +:+ sep +:+ join sep rest
  end.

Definition startswith (p s : string) : bool := String.prefix p s.

Fixpoint endswith_char (c : ascii) (s : string) : bool :=
  match s with
  | EmptyString => false
  | String d EmptyString => Ascii.eqb c d
  | String _ rest => endswith_char c rest
  end.

(** [s.endswith(p)] for a one-character [p]. *)
Definition endswith (p s : string) : bool :=
  match p with
  | String c EmptyString => endswith_char c s
  | _ => false
  end.

(** [needle in hay]. *)
Fixpoint contains (needle hay : string) : bool :=
  String.prefix needle hay ||
  match hay with
  | EmptyString => false
  | String _ rest => contains needle rest
  end.

(** [s.split(sep, 1)] when [sep] occurs in [s]: text before and after the
    first occurrence. *)
Fixpoint split_first (sep : ascii) (s : string) : option (string * string) :=
  match s with
  | EmptyString => None
  | String c rest =>
      if Ascii.eqb c sep then Some (EmptyString, rest)
      else match split_first sep rest with
           | Some (a, b) => Some (String c a, b)
           | None => None
           end
  end.

(** [s.replace(old, new)] for a non-empty [old]: occurrences are replaced
    left to right and do not overlap; [skip] counts the characters of a
    matched occurrence that are still to be dropped. *)
Fixpoint replace_go (old new : string) (skip : nat) (s : string) : string :=
  match s with
  | EmptyString => EmptyString
  | String c rest =>
      match skip with
      | S k => replace_go old new k rest
      | O =>
          if String.prefix old s
          then new +:+ replace_go old new (String.length old - 1) rest
          else String c (replace_go old new 0 rest)
      end
  end.

Definition replace (old new s : string) : string :=
  match old with
  | EmptyString => s
  | _ => replace_go old new 0 s
  end.

Definition is_space (c : ascii) : bool :=
  let n := nat_of_ascii c in
  ((9 <=? n) && (n <=? 13) || (n =? 32) || ((28 <=? n) && (n <=? 31)))%nat.

Fixpoint lstrip (s : string) : string :=
  match s with
  | String c rest => if is_space c then lstrip rest else s
  | EmptyString => EmptyString
  end.

Fixpoint rstrip (s : string) : string :=
  match s with
  | EmptyString => EmptyString
  | String c rest =>
      match rstrip rest with
      | EmptyString => if is_space c then EmptyString else String c EmptyString
      | r => String c r
      end
  end.

(** [s.strip()] (ASCII white space). *)
Definition strip (s : string) : string := rstrip (lstrip s).

Definition lower_char (c : ascii) : ascii :=
  let n := nat_of_ascii c in
  if ((65 <=? n) && (n <=? 90))%nat then ascii_of_nat (n + 32) else c.

(** [s.lower()] on ASCII letters. *)
Fixpoint lower (s : string) : string :=
  match s with
  | EmptyString => EmptyString
  | String c rest => String (lower_char c) (lower rest)
  end.
End Str.

(** ** [os.path] on POSIX ([posixpath]) *)
Module Path.
Definition sep : ascii := "/"%char.

Definition isabs (p : string) : bool := Str.startswith "/" p.

(** [os.path.join(a, b)]. *)
Definition join (a b : string) : string :=
  if Str.startswith "/" b then b
  else if String.eqb a "" || Str.endswith "/" a then a +:+ b
  else a +:+ "/" +:+ b.

(** The loop of [normpath]; [new_comps] is kept with its last element
    first. *)
Fixpoint norm_comps (initial_slashes : bool) (comps new_comps : list string)
    : list string :=
  match comps with
  | [] => new_comps
  | comp :: rest =>
      if String.eqb comp "" || String.eqb comp "." then
        norm_comps initial_slashes rest new_comps
      else if negb (String.eqb comp "..")
              || (negb initial_slashes && bool_decide (new_comps = []))
              || match new_comps with
                 | last :: _ => String.eqb last ".."
                 | [] => false
                 end
      then norm_comps initial_slashes rest (comp :: new_comps)
      else norm_comps initial_slashes rest (tail new_comps)
  end.

Definition normpath (path : string) : string :=
  if String.eqb path "" then "."
  else
    let initial_slashes := Str.startswith "/" path in
    let two := Str.startswith "//" path && negb (Str.startswith "///" path) in
    let comps := rev (norm_comps initial_slashes (Str.split_on sep path) []) in
    let body := Str.join "/" comps in
    let res := if initial_slashes
               then (if two then "//" else "/") +:+ body
               else body in
    if String.eqb res "" then "." else res.

(** [os.path.abspath(path)] in a process whose working directory is
    [cwd]. *)
Definition abspath (cwd path : string) : string :=
  normpath (if isabs path then path else join cwd path).

(** [os.path.basename(p)]. *)
Definition basename (p : string) : string :=
  List.last (Str.split_on sep p) "".

Definition all_slashes (s : string) : bool :=
  forallb (fun c => Ascii.eqb c sep) (list_ascii_of_string s).

(** [s.rstrip("/")]. *)
Fixpoint rstrip_sep (s : string) : string :=
  match s with
  | EmptyString => EmptyString
  | String c rest =>
      match rstrip_sep rest with
      | EmptyString => if Ascii.eqb c sep then EmptyString else String c EmptyString
      | r => String c r
      end
  end.

(** [os.path.dirname(p)]. *)
Definition dirname (p : string) : string :=
  let comps := Str.split_on sep p in
  let head := match removelast comps with
              | [] => ""
              | hs => Str.join "/" hs +:+ "/"
              end in
  if negb (String.eqb head "") && negb (all_slashes head)
  then rstrip_sep head else head.

(** [os.path.splitext] applied to a base name (no separator in [b]): the
    extension starts at the last dot, unless only dots precede it. *)
Fixpoint all_dots (s : string) : bool :=
  match s with
  | EmptyString => true
  | String c rest => Ascii.eqb c "."%char && all_dots rest
  end.

Definition splitext_base (b : string) : string * string :=
  match rev (Str.split_on "."%char b) with
  | [] | [_] => (b, "")
  | ext :: rstem =>
      let stem := Str.join "." (rev rstem) in
      if all_dots stem then (b, "") else (stem, "." +:+ ext)
  end.

(** [os.path.splitext(p)]. *)
Definition splitext (p : string) : string * string :=
  let comps := Str.split_on sep p in
  let b := List.last comps "" in
  let '(stem, ext) := splitext_base b in
  match removelast comps with
  | [] => (stem, ext)
  | hs => (Str.join "/" hs +:+ "/" +:+ stem, ext)
  end.

(** The path components that [commonpath] compares. *)
Definition components (p : string) : list string :=
  List.filter (fun c => negb (String.eqb c "") && negb (String.eqb c "."))
    (Str.split_on sep p).

Fixpoint common_prefix (a b : list string) : list string :=
  match a, b with
  | x :: a', y :: b' => if String.eqb x y then x :: common_prefix a' b' else []
  | _, _ => []
  end.

(** A path component proper: not empty, not [.] or [..], no separator. *)
Fixpoint no_sep (s : string) : bool :=
  match s with
  | EmptyString => true
  | String c rest => negb (Ascii.eqb c sep) && no_sep rest
  end.

Definition clean (c : string) : bool :=
  no_sep c && negb (String.eqb c "") && negb (String.eqb c ".")
  && negb (String.eqb c "..").

(** The absolute path with the given components. *)
Definition of_components (cs : list string) : string :=
  "/" +:+ Str.join "/" cs.

(** [os.path.commonpath([a, b])]. *)
Definition commonpath (a b : string) : result string :=
  if negb (Bool.eqb (isabs a) (isabs b))
  then Raise (ValueError "Can't mix absolute and relative paths")
  else
    let common := common_prefix (components a) (components b) in
    Ok ((if isabs a then "/" else "") +:+ Str.join "/" common).
End Path.

(** ** A file system

    Files live in a finite map from absolute paths, given as their list of
    components, to nodes; the root directory is the empty list and always
    exists.  There are no symbolic links, permissions or devices, and a
    path string is located lexically ([abspath]), as the program itself
    does before every sandbox check.  An operation takes the world and
    returns its outcome together with the world it leaves behind, so a
    failure part-way keeps what was already done, as a caught Python
    exception does. *)
Module FS.
Inductive node := File (data : string) | Dir.

(** [cwd] holds the components of the working directory, which the
    operating system keeps absolute and resolved. *)
Record world := { cwd : list string; files : gmap (list string) node }.

(** [os.getcwd()]. *)
Definition getcwd (w : world) : string := Path.of_components (cwd w).

Definition with_files (m : gmap (list string) node) (w : world) : world :=
  {| cwd := cwd w; files := m |}.

Definition io (A : Type) : Type := world -> result A * world.

#[global] Instance io_ret : MRet io := fun A a w => (Ok a, w).
#[global] Instance io_bind : MBind io := fun A B f m w =>
  match m w with
  | (Ok a, w') => f a w'
  | (Raise e, w') => (Raise e, w')
  end.

Definition throw {A} (e : exn) : io A := fun w => (Raise e, w).

(** [try: m except Exception as e: h e]. *)
Definition try_except {A} (m : io A) (h : exn -> io A) : io A := fun w =>
  match m w with
  | (Ok a, w') => (Ok a, w')
  | (Raise e, w') => h e w'
  end.

Definition locate (w : world) (p : string) : list string :=
  Path.components (Path.abspath (getcwd w) p).

Definition parent (k : list string) : list string := removelast k.

Definition exists_at (m : gmap (list string) node) (k : list string) : bool :=
  match k with
  | [] => true
  | _ => bool_decide (is_Some (m !! k))
  end.

Definition isdir_at (m : gmap (list string) node) (k : list string) : bool :=
  match k with
  | [] => true
  | _ => match m !! k with Some Dir => true | _ => false end
  end.

Definition isfile_at (m : gmap (list string) node) (k : list string) : bool :=
  match m !! k with Some (File _) => true | _ => false end.

(** [os.path.exists], [os.path.isdir], [os.path.isfile]: never raise. *)
Definition exists_ (p : string) : io bool := fun w =>
  (Ok (negb (String.eqb p "") && exists_at (files w) (locate w p)), w).
Definition isdir (p : string) : io bool := fun w =>
  (Ok (negb (String.eqb p "") && isdir_at (files w) (locate w p)), w).
Definition isfile (p : string) : io bool := fun w =>
  (Ok (negb (String.eqb p "") && isfile_at (files w) (locate w p)), w).

Definition mkdir_at (m : gmap (list string) node) (k : list string)
    : result (gmap (list string) node) :=
  if exists_at m k then Raise FileExistsError
  else if isdir_at m (parent k) then Ok (<[k := Dir]> m)
  else if exists_at m (parent k) then Raise NotADirectoryError
  else Raise FileNotFoundError.

(** [os.makedirs] on the components of the target, last component first:
    missing ancestors are created from the top, a [FileExistsError] of
    the recursive call is ignored, and the final [mkdir] may fail only if
    [exist_ok] is false or the target is not a directory. *)
Fixpoint makedirs_at (rk : list string) (exist_ok : bool)
    (m : gmap (list string) node) : result unit * gmap (list string) node :=
  match rk with
  | [] => if exist_ok then (Ok (), m) else (Raise FileExistsError, m)
  | _ :: rhead =>
      let '(r, m1) :=
        if exists_at m (rev rhead) then (Ok (), m)
        else match makedirs_at rhead exist_ok m with
             | (Raise FileExistsError, m') => (Ok (), m')
             | other => other
             end in
      match r with
      | Raise e => (Raise e, m1)
      | Ok _ =>
          match mkdir_at m1 (rev rk) with
          | Ok m2 => (Ok (), m2)
          | Raise e =>
              if exist_ok && isdir_at m1 (rev rk) then (Ok (), m1)
              else (Raise e, m1)
          end
      end
  end.

Definition makedirs (p : string) (exist_ok : bool) : io unit := fun w =>
  if String.eqb p "" then (Raise FileNotFoundError, w)
  else let '(r, m) := makedirs_at (rev (locate w p)) exist_ok (files w) in
       (r, with_files m w).

(** [open(p, "w")] followed by writing [data]. *)
Definition write_text (p data : string) : io unit := fun w =>
  let k := locate w p in
  let m := files w in
  if String.eqb p "" then (Raise FileNotFoundError, w)
  else if isdir_at m k then (Raise IsADirectoryError, w)
  else if isdir_at m (parent k) then (Ok (), with_files (<[k := File data]> m) w)
  else if exists_at m (parent k) then (Raise NotADirectoryError, w)
  else (Raise FileNotFoundError, w).

(** [open(p, "r").read()]. *)
Definition read_text (p : string) : io string := fun w =>
  let k := locate w p in
  if String.eqb p "" then (Raise FileNotFoundError, w)
  else if isdir_at (files w) k then (Raise IsADirectoryError, w)
  else match files w !! k with
       | Some (File data) => (Ok data, w)
       | _ => (Raise FileNotFoundError, w)
       end.

Definition has_children (m : gmap (list string) node) (k : list string) : bool :=
  bool_decide (Exists (fun kv => parent kv.1 = k /\ kv.1 <> []) (map_to_list m)).

(** Re-key the subtree rooted at [src] to [dst]. *)
Definition move_subtree (m : gmap (list string) node) (src dst : list string)
    : gmap (list string) node :=
  list_to_map
    (map (fun kv : list string * node =>
            if bool_decide (src `prefix_of` kv.1)
            then (dst ++ drop (length src) kv.1, kv.2) else kv)
         (map_to_list (delete dst m))).

(** [os.rename(src, dst)] (POSIX). *)
Definition rename (src dst : string) : io unit := fun w =>
  let m := files w in
  let ks := locate w src in
  let kd := locate w dst in
  if String.eqb src "" || String.eqb dst "" then (Raise FileNotFoundError, w)
  else match ks, m !! ks with
  | [], _ => (Raise OSError, w)
  | _, None => (Raise FileNotFoundError, w)
  | _, Some n =>
      if bool_decide (ks = kd) then (Ok (), w)
      else if negb (isdir_at m (parent kd)) then
        (Raise (if exists_at m (parent kd) then NotADirectoryError
                else FileNotFoundError), w)
      else match n with
      | File _ =>
          if isdir_at m kd then (Raise IsADirectoryError, w)
          else (Ok (), with_files (move_subtree m ks kd) w)
      | Dir =>
          if isfile_at m kd then (Raise NotADirectoryError, w)
          else if bool_decide (ks `prefix_of` kd) then (Raise OSError, w)
          else if isdir_at m kd && has_children m kd then (Raise OSError, w)
          else (Ok (), with_files (move_subtree m ks kd) w)
      end
  end.

(** [shutil.move(src, dst)] on one device: the destination is replaced by
    [dst/basename(src)] when [dst] is a directory, and the copying
    fall-back after a failed [rename] fails in the same way as the
    [rename] did wherever this program calls it (the parent of the
    destination has just been created). *)
Definition shutil_move (src dst : string) : io string := fun w =>
  let '(d, _) := isdir dst w in
  match d with
  | Ok true =>
      if bool_decide (locate w src = locate w dst) then
        (rename src dst ≫= fun _ => mret dst) w
      else
        let real_dst := Path.join dst (Path.basename (Path.rstrip_sep src)) in
        match exists_ real_dst w with
        | (Ok true, _) => (Raise ShutilError, w)
        | _ => (rename src real_dst ≫= fun _ => mret real_dst) w
        end
  | _ => (rename src dst ≫= fun _ => mret dst) w
  end.

(** [shutil.rmtree(p, ignore_errors=True)]. *)
Definition rmtree (p : string) : io unit := fun w =>
  let k := locate w p in
  if negb (String.eqb p "") && isdir_at (files w) k then
    (Ok (), with_files (filter (fun kv => ¬ (k `prefix_of` kv.1)) (files w)) w)
  else (Ok (), w).

(** [os.listdir(p)]; the order of the entries is that of the map. *)
Definition listdir (p : string) : io (list string) := fun w =>
  let k := locate w p in
  if String.eqb p "" then (Raise FileNotFoundError, w)
  else if isdir_at (files w) k then
    (Ok (omap (fun kv : list string * node =>
                 if bool_decide (parent kv.1 = k /\ kv.1 <> [])
                 then Some (List.last kv.1 "") else None)
              (map_to_list (files w))), w)
  else if exists_at (files w) k then (Raise NotADirectoryError, w)
  else (Raise FileNotFoundError, w).
(** The same operations on a located path (an absolute, resolved
    [pathlib.Path]). *)
Definition exists_k (k : list string) : io bool := fun w =>
  (Ok (exists_at (files w) k), w).

Definition makedirs_k (k : list string) (exist_ok : bool) : io unit := fun w =>
  let '(r, m) := makedirs_at (rev k) exist_ok (files w) in (r, with_files m w).

Definition write_text_k (k : list string) (data : string) : io unit := fun w =>
  let m := files w in
  if isdir_at m k then (Raise IsADirectoryError, w)
  else if isdir_at m (parent k) then (Ok (), with_files (<[k := File data]> m) w)
  else if exists_at m (parent k) then (Raise NotADirectoryError, w)
  else (Raise FileNotFoundError, w).

Definition read_text_k (k : list string) : io string := fun w =>
  if isdir_at (files w) k then (Raise IsADirectoryError, w)
  else match files w !! k with
       | Some (File data) => (Ok data, w)
       | _ => (Raise FileNotFoundError, w)
       end.

(** A pure computation that may raise, run inside [io]. *)
Definition lift {A} (r : result A) : io A := fun w => (r, w).

(** Every entry lies in a directory. *)
Definition wf (m : gmap (list string) node) : Prop :=
  map_Forall (fun k _ => k <> [] /\ isdir_at m (parent k) = true) m.
End FS.


(** ** JSON documents and Python dictionaries *)

(** A JSON value as [json.load] returns it; a number is an integer (the
    program stores time stamps and flags, never fractions it computes
    with).  An object keeps its keys in insertion order, as a Python
    [dict] does. *)
#[warnings="-register-all"]
Inductive json :=
  | JNull
  | JBool (b : bool)
  | JNum (z : Z)
  | JStr (s : string)
  | JArr (items : list json)
  | JObj (fields : list (string * json)).

(** The [json] module is outside the repository: it is an interface with
    the two functions the program calls. *)
Class JsonLib := {
  json_dumps : json -> string;
  json_loads : string -> result json
}.

Module PyDict.
Section Dict.
Context {V : Type}.

(** [d.get(k)]. *)
Fixpoint get (k : string) (d : list (string * V)) : option V :=
  match d with
  | [] => None
  | (k', v) :: rest => if String.eqb k k' then Some v else get k rest
  end.

(** [d[k] = v]: an existing key keeps its position. *)
Fixpoint set (k : string) (v : V) (d : list (string * V)) : list (string * V) :=
  match d with
  | [] => [(k, v)]
  | (k', v') :: rest =>
      if String.eqb k k' then (k, v) :: rest else (k', v') :: set k v rest
  end.

(** [d.pop(k, None)]. *)
Fixpoint pop (k : string) (d : list (string * V)) : list (string * V) :=
  match d with
  | [] => []
  | (k', v') :: rest =>
      if String.eqb k k' then rest else (k', v') :: pop k rest
  end.

(** [{**a, **b}]. *)
Definition merge (a b : list (string * V)) : list (string * V) :=
  fold_left (fun acc kv => set kv.1 kv.2 acc) b a.
End Dict.
End PyDict.

(** Truth value of a JSON value ([bool(v)]). *)
Definition truthy (v : json) : bool :=
  match v with
  | JNull => false
  | JBool b => b
  | JNum z => negb (z =? 0)
  | JStr s => negb (String.eqb s "")
  | JArr l => match l with [] => false | _ => true end
  | JObj l => match l with [] => false | _ => true end
  end.

(** ** [list.sort(key=...)]

    Python's sort is stable.  A stable sort is determined by its key
    order, so it is given here as an insertion sort: an element goes in
    front of the first element whose key is not smaller. *)
Section StableSort.
Context {A K : Type} (key : A -> K) (leb : K -> K -> bool).

Fixpoint insert_sorted (x : A) (l : list A) : list A :=
  match l with
  | [] => [x]
  | y :: r =>
      if leb (key x) (key y) then x :: y :: r else y :: insert_sorted x r
  end.

Fixpoint sort_by (l : list A) : list A :=
  match l with
  | [] => []
  | x :: r => insert_sorted x (sort_by r)
  end.
End StableSort.


(** ** Tetris ([apps/tetris.py]) *)

Module Tetris.

Inductive shape := ShI | ShO | ShT | ShS | ShZ | ShJ | ShL.

Definition PIECE_COLORS (s : shape) : string :=
  match s with
  | ShI => "#00cbe6" | ShO => "#e6d300" | ShT => "#a653e6" | ShS => "#4ad153"
  | ShZ => "#e64d4d" | ShJ => "#4a71d1" | ShL => "#e69b32"
  end.

(** [SHAPES[shape]]: the four rotation states, each a list of [(x, y)]. *)
Definition SHAPES (s : shape) : list (list (Z * Z)) :=
  match s with
  | ShI => [ [(0,1);(1,1);(2,1);(3,1)]; [(2,0);(2,1);(2,2);(2,3)];
             [(0,2);(1,2);(2,2);(3,2)]; [(1,0);(1,1);(1,2);(1,3)] ]
  | ShO => [ [(1,1);(2,1);(1,2);(2,2)]; [(1,1);(2,1);(1,2);(2,2)];
             [(1,1);(2,1);(1,2);(2,2)]; [(1,1);(2,1);(1,2);(2,2)] ]
  | ShT => [ [(1,0);(0,1);(1,1);(2,1)]; [(1,0);(1,1);(2,1);(1,2)];
             [(0,1);(1,1);(2,1);(1,2)]; [(1,0);(0,1);(1,1);(1,2)] ]
  | ShS => [ [(1,0);(2,0);(0,1);(1,1)]; [(1,0);(1,1);(2,1);(2,2)];
             [(1,1);(2,1);(0,2);(1,2)]; [(0,0);(0,1);(1,1);(1,2)] ]
  | ShZ => [ [(0,0);(1,0);(1,1);(2,1)]; [(2,0);(1,1);(2,1);(1,2)];
             [(0,1);(1,1);(1,2);(2,2)]; [(1,0);(0,1);(1,1);(0,2)] ]
  | ShJ => [ [(0,0);(0,1);(1,1);(2,1)]; [(1,0);(2,0);(1,1);(1,2)];
             [(0,1);(1,1);(2,1);(2,2)]; [(1,0);(1,1);(0,2);(1,2)] ]
  | ShL => [ [(2,0);(0,1);(1,1);(2,1)]; [(1,0);(1,1);(1,2);(2,2)];
             [(0,1);(1,1);(2,1);(0,2)]; [(0,0);(1,0);(1,1);(1,2)] ]
  end.

Definition BAG_ORDER : list shape := [ShI; ShO; ShT; ShS; ShZ; ShJ; ShL].

(** The numeric and boolean entries of the settings dictionary [self.s]
    (the colour entries play no part in the game logic). *)
Record settings := {
  board_w : Z;
  board_h : Z;
  sidebar_w : Z;
  speed_ms : Z;
  ghost_alpha : Z;
  draw_grid : bool;
  soft_drop_points : Z;
  hard_drop_points : Z
}.

Definition DEFAULTS : settings :=
  {| board_w := 10; board_h := 20; sidebar_w := 180; speed_ms := 500;
     ghost_alpha := 60; draw_grid := true;
     soft_drop_points := 1; hard_drop_points := 2 |}.

(** A board cell is [None] or the colour of the piece locked there. *)
Definition cell := option string.

(** [self.current = [shape, rot, x, y]]. *)
Record piece := { p_shape : shape; p_rot : Z; p_x : Z; p_y : Z }.

(** The attributes of [TetrisApp] that the game logic touches.  The
    [QTimer] is its active flag and interval; [saved_highscore] is the
    content of [tetris_scores.json] as written by [save_highscore]. *)
Record state := {
  s : settings;
  BW : Z;
  BH : Z;
  level : Z;
  score : Z;
  lines_cleared : Z;
  highscore : Z;
  board : list (list cell);
  current : option piece;
  next_queue : list shape;
  paused : bool;
  game_over : bool;
  _current_speed : Z;
  timer_active : bool;
  timer_interval : Z;
  saved_highscore : option Z
}.

Definition set_score (v : Z) (st : state) : state :=
  {| s := s st; BW := BW st; BH := BH st; level := level st; score := v;
     lines_cleared := lines_cleared st; highscore := highscore st;
     board := board st; current := current st; next_queue := next_queue st;
     paused := paused st; game_over := game_over st;
     _current_speed := _current_speed st; timer_active := timer_active st;
     timer_interval := timer_interval st;
     saved_highscore := saved_highscore st |}.

Definition set_board (b : list (list cell)) (st : state) : state :=
  {| s := s st; BW := BW st; BH := BH st; level := level st; score := score st;
     lines_cleared := lines_cleared st; highscore := highscore st;
     board := b; current := current st; next_queue := next_queue st;
     paused := paused st; game_over := game_over st;
     _current_speed := _current_speed st; timer_active := timer_active st;
     timer_interval := timer_interval st;
     saved_highscore := saved_highscore st |}.

Definition set_current (c : option piece) (st : state) : state :=
  {| s := s st; BW := BW st; BH := BH st; level := level st; score := score st;
     lines_cleared := lines_cleared st; highscore := highscore st;
     board := board st; current := c; next_queue := next_queue st;
     paused := paused st; game_over := game_over st;
     _current_speed := _current_speed st; timer_active := timer_active st;
     timer_interval := timer_interval st;
     saved_highscore := saved_highscore st |}.

Definition set_next_queue (q : list shape) (st : state) : state :=
  {| s := s st; BW := BW st; BH := BH st; level := level st; score := score st;
     lines_cleared := lines_cleared st; highscore := highscore st;
     board := board st; current := current st; next_queue := q;
     paused := paused st; game_over := game_over st;
     _current_speed := _current_speed st; timer_active := timer_active st;
     timer_interval := timer_interval st;
     saved_highscore := saved_highscore st |}.

(** [random.shuffle] is the only source of randomness: the shuffled copy
    of [BAG_ORDER] is an input [bag] of every operation that may refill. *)
Definition _refill_bag (bag : list shape) (st : state) : state :=
  set_next_queue (next_queue st ++ bag) st.

Definition _cells (sh : shape) (rot x y : Z) : result (list (Z * Z)) :=
  r ← py_index (SHAPES sh) rot;
  mret (map (fun c => (x + fst c, y + snd c)) r).

Fixpoint collides_cells (st : state) (cells : list (Z * Z)) : result bool :=
  match cells with
  | [] => Ok false
  | (cx, cy) :: rest =>
      if (cx <? 0) || (BW st <=? cx) || (cy <? 0) || (BH st <=? cy)
      then Ok true
      else
        row ← py_index (board st) cy;
        c ← py_index row cx;
        match c with
        | Some _ => Ok true
        | None => collides_cells st rest
        end
  end.

Definition _collides (st : state) (sh : shape) (rot x y : Z) : result bool :=
  cells ← _cells sh rot x y;
  collides_cells st cells.

Definition save_highscore (v : Z) (st : state) : state :=
  {| s := s st; BW := BW st; BH := BH st; level := level st; score := score st;
     lines_cleared := lines_cleared st; highscore := highscore st;
     board := board st; current := current st; next_queue := next_queue st;
     paused := paused st; game_over := game_over st;
     _current_speed := _current_speed st; timer_active := timer_active st;
     timer_interval := timer_interval st;
     saved_highscore := Some v |}.

Definition end_game (st : state) : state :=
  let st1 :=
    {| s := s st; BW := BW st; BH := BH st; level := level st; score := score st;
       lines_cleared := lines_cleared st; highscore := highscore st;
       board := board st; current := current st; next_queue := next_queue st;
       paused := paused st; game_over := true;
       _current_speed := _current_speed st; timer_active := false;
       timer_interval := timer_interval st;
       saved_highscore := saved_highscore st |} in
  if highscore st1 <? score st1 then
    save_highscore (score st1)
      {| s := s st1; BW := BW st1; BH := BH st1; level := level st1;
         score := score st1; lines_cleared := lines_cleared st1;
         highscore := score st1; board := board st1; current := current st1;
         next_queue := next_queue st1; paused := paused st1;
         game_over := game_over st1; _current_speed := _current_speed st1;
         timer_active := timer_active st1; timer_interval := timer_interval st1;
         saved_highscore := saved_highscore st1 |}
  else st1.

Definition _spawn_piece (bag : list shape) (st : state) : result state :=
  let st1 := if (Z.of_nat (length (next_queue st)) <? 7)
             then _refill_bag bag st else st in
  match next_queue st1 with
  | [] => Raise IndexError
  | sh :: q =>
      let rot := 0 in
      let x := (BW st1 - 4) / 2 in
      let y := 0 in
      let st2 := set_current (Some {| p_shape := sh; p_rot := rot; p_x := x; p_y := y |})
                   (set_next_queue q st1) in
      c ← _collides st2 sh rot x y;
      if (c : bool) then mret (end_game st2) else mret st2
  end.

Definition _update_speed (st : state) : state :=
  let base := speed_ms (s st) in
  let sp := Z.max 80 (base - (level st - 1) * 35) in
  {| s := s st; BW := BW st; BH := BH st; level := level st; score := score st;
     lines_cleared := lines_cleared st; highscore := highscore st;
     board := board st; current := current st; next_queue := next_queue st;
     paused := paused st; game_over := game_over st;
     _current_speed := sp; timer_active := timer_active st;
     timer_interval := if timer_active st then sp else timer_interval st;
     saved_highscore := saved_highscore st |}.

(** [any(cell is None for cell in row)]. *)
Definition has_empty (row : list cell) : bool :=
  existsb (fun c => match c with None => true | Some _ => false end) row.

Definition empty_row (w : Z) : list cell := replicate (Z.to_nat w) None.

Definition _clear_lines (st : state) : result state :=
  let new_rows := filter (fun row => has_empty row = true) (board st) in
  let cleared := BH st - Z.of_nat (length new_rows) in
  if 0 <? cleared then
    pts ← py_index [40; 100; 300; 1200] (cleared - 1);
    let new_rows' := replicate (Z.to_nat cleared) (empty_row (BW st)) ++ new_rows in
    let lines := lines_cleared st + cleared in
    mret (_update_speed
      {| s := s st; BW := BW st; BH := BH st;
         level := 1 + lines / 10;
         score := score st + pts * level st;
         lines_cleared := lines; highscore := highscore st;
         board := new_rows'; current := current st; next_queue := next_queue st;
         paused := paused st; game_over := game_over st;
         _current_speed := _current_speed st; timer_active := timer_active st;
         timer_interval := timer_interval st;
         saved_highscore := saved_highscore st |})
  else mret st.

(** The painting loop of [_lock_piece]. *)
Fixpoint paint (bw bh : Z) (color : string) (cells : list (Z * Z))
    (b : list (list cell)) : result (list (list cell)) :=
  match cells with
  | [] => Ok b
  | (cx, cy) :: rest =>
      if (0 <=? cy) && (cy <? bh) && (0 <=? cx) && (cx <? bw) then
        row ← py_index b cy;
        row' ← py_setitem row cx (Some color);
        b' ← py_setitem b cy row';
        paint bw bh color rest b'
      else paint bw bh color rest b
  end.

Definition _lock_piece (bag : list shape) (st : state) : result state :=
  match current st with
  | None => Raise TypeError
  | Some p =>
      cells ← _cells (p_shape p) (p_rot p) (p_x p) (p_y p);
      b ← paint (BW st) (BH st) (PIECE_COLORS (p_shape p)) cells (board st);
      st1 ← _clear_lines (set_board b st);
      _spawn_piece bag st1
  end.

Definition move (dx dy : Z) (bag : list shape) (st : state) : result state :=
  match current st with
  | None => mret st
  | Some p =>
      if paused st || game_over st then mret st
      else
        let nx := p_x p + dx in
        let ny := p_y p + dy in
        c ← _collides st (p_shape p) (p_rot p) nx ny;
        if negb (c : bool) then
          let st1 := set_current
                       (Some {| p_shape := p_shape p; p_rot := p_rot p;
                                p_x := nx; p_y := ny |}) st in
          if (0 <? dy) && (dx =? 0)
          then mret (set_score (score st1 + soft_drop_points (s st1)) st1)
          else mret st1
        else if (0 <? dy) && (dx =? 0) then _lock_piece bag st
        else mret st
  end.

(** The timer callback (gravity). *)
Definition tick (bag : list shape) (st : state) : result state :=
  if paused st || game_over st then mret st
  else move 0 1 bag st.

(** The movement keys of [keyPressEvent]. *)
Inductive key := Key_Left | Key_Right | Key_Down.

Definition keyPressEvent (k : key) (bag : list shape) (st : state) : result state :=
  match k with
  | Key_Left => move (-1) 0 bag st
  | Key_Right => move 1 0 bag st
  | Key_Down => move 0 1 bag st
  end.

(** [TetrisApp.__init__] after [load_settings] returned [cfg] and
    [load_highscore] returned [hs]. *)
Definition init (cfg : settings) (hs : Z) (bag : list shape) : result state :=
  let st0 :=
    {| s := cfg; BW := board_w cfg; BH := board_h cfg; level := 1; score := 0;
       lines_cleared := 0; highscore := hs;
       board := replicate (Z.to_nat (board_h cfg)) (empty_row (board_w cfg));
       current := None; next_queue := []; paused := false; game_over := false;
       _current_speed := 0; timer_active := false; timer_interval := 0;
       saved_highscore := None |} in
  st1 ← _spawn_piece bag (_refill_bag bag st0);
  let st2 := _update_speed st1 in
  mret {| s := s st2; BW := BW st2; BH := BH st2; level := level st2;
          score := score st2; lines_cleared := lines_cleared st2;
          highscore := highscore st2; board := board st2;
          current := current st2; next_queue := next_queue st2;
          paused := paused st2; game_over := game_over st2;
          _current_speed := _current_speed st2; timer_active := true;
          timer_interval := _current_speed st2;
          saved_highscore := saved_highscore st2 |}.

(** Number of full rows of a board. *)
Definition full_rows (b : list (list cell)) : Z :=
  Z.of_nat (length (filter (fun row => has_empty row = false) b)).

(** A game on the default board in which nine lines have been cleared and
    the bottom row has just been completed by the piece being locked. *)
Definition before_tenth_line : state :=
  {| s := DEFAULTS; BW := 10; BH := 20; level := 1; score := 360;
     lines_cleared := 9; highscore := 0;
     board := replicate 19 (empty_row 10) ++ [replicate 10 (Some "#00cbe6")];
     current := Some {| p_shape := ShI; p_rot := 0; p_x := 6; p_y := 18 |};
     next_queue := [ShO; ShT]; paused := false; game_over := false;
     _current_speed := 500; timer_active := true; timer_interval := 500;
     saved_highscore := None |}.

End Tetris.

(** ** Snake ([apps/snake.py]) *)

Module Snake.

(** [QPoint]. *)
Definition QPoint : Type := Z * Z.

Definition padd (a b : QPoint) : QPoint := (a.1 + b.1, a.2 + b.2).

(** The attributes of [SnakeApp] used by the game logic; [saved] is the
    high score last written to [snake.json]. *)
Record state := {
  grid_w : Z;
  grid_h : Z;
  wrap_mode : bool;
  score : Z;
  high_score : Z;
  paused : bool;
  game_over : bool;
  dir : QPoint;
  next_dir : QPoint;
  snake : list QPoint;
  food : QPoint;
  timer_active : bool;
  saved : option Z
}.

Definition in_snake (p : QPoint) (body : list QPoint) : bool :=
  bool_decide (p ∈ body).

(** All cells [(x, y)] with [x] in [range(grid_w)], [y] in [range(grid_h)]. *)
Definition all_cells (w h : Z) : list QPoint :=
  x ← seqZ 0 w; y ← seqZ 0 h; [(x, y)].

(** [_rand_food]: [rnd] stands for the draw of [random.choice]. *)
Definition _rand_food (rnd : nat) (st : state) : QPoint :=
  let free := List.filter (fun c => negb (in_snake c (snake st)))
                (all_cells (grid_w st) (grid_h st)) in
  match free with
  | [] => (0, 0)
  | c :: _ => nth (rnd mod length free) free c
  end.

Definition _set_game_over (st : state) : state :=
  {| grid_w := grid_w st; grid_h := grid_h st; wrap_mode := wrap_mode st;
     score := score st; high_score := high_score st; paused := paused st;
     game_over := true; dir := dir st; next_dir := next_dir st;
     snake := snake st; food := food st; timer_active := false;
     saved := saved st |}.

Definition set_dir (d : QPoint) (st : state) : state :=
  {| grid_w := grid_w st; grid_h := grid_h st; wrap_mode := wrap_mode st;
     score := score st; high_score := high_score st; paused := paused st;
     game_over := game_over st; dir := d; next_dir := next_dir st;
     snake := snake st; food := food st; timer_active := timer_active st;
     saved := saved st |}.

(** [a % b] in Python. *)
Definition py_mod (a b : Z) : result Z :=
  if b =? 0 then Raise ZeroDivisionError else Ok (a mod b).

Definition _tick (rnd : nat) (st : state) : result state :=
  if paused st || game_over st then mret st
  else
    let st1 := if bool_decide (padd (next_dir st) (dir st) ≠ (0, 0))
               then set_dir (next_dir st) st else st in
    head ← py_index (snake st1) 0;
    let new_head : QPoint := (head.1 + (dir st1).1, head.2 + (dir st1).2) in
    moved ←
      (if wrap_mode st1 then
         x ← py_mod (new_head.1 + grid_w st1) (grid_w st1);
         y ← py_mod (new_head.2 + grid_h st1) (grid_h st1);
         mret (Some ((x, y) : QPoint))
       else if negb ((0 <=? new_head.1) && (new_head.1 <? grid_w st1)
                     && (0 <=? new_head.2) && (new_head.2 <? grid_h st1))
       then mret None
       else mret (Some new_head));
    match moved with
    | None => mret (_set_game_over st1)
    | Some new_head =>
        if in_snake new_head (snake st1) then mret (_set_game_over st1)
        else
          let body := new_head :: snake st1 in
          if bool_decide (new_head = food st1) then
            let sc := score st1 + 1 in
            let beaten := high_score st1 <? sc in
            let st2 :=
              {| grid_w := grid_w st1; grid_h := grid_h st1;
                 wrap_mode := wrap_mode st1; score := sc;
                 high_score := if beaten then sc else high_score st1;
                 paused := paused st1; game_over := game_over st1;
                 dir := dir st1; next_dir := next_dir st1; snake := body;
                 food := food st1; timer_active := timer_active st1;
                 saved := if beaten then Some sc else saved st1 |} in
            mret {| grid_w := grid_w st2; grid_h := grid_h st2;
                    wrap_mode := wrap_mode st2; score := score st2;
                    high_score := high_score st2; paused := paused st2;
                    game_over := game_over st2; dir := dir st2;
                    next_dir := next_dir st2; snake := snake st2;
                    food := _rand_food rnd st2;
                    timer_active := timer_active st2; saved := saved st2 |}
          else
            mret {| grid_w := grid_w st1; grid_h := grid_h st1;
                    wrap_mode := wrap_mode st1; score := score st1;
                    high_score := high_score st1; paused := paused st1;
                    game_over := game_over st1; dir := dir st1;
                    next_dir := next_dir st1; snake := removelast body;
                    food := food st1; timer_active := timer_active st1;
                    saved := saved st1 |}
    end.

(** The direction the next tick moves in. *)
Definition heading (st : state) : QPoint :=
  if bool_decide (padd (next_dir st) (dir st) ≠ (0, 0))
  then next_dir st else dir st.

(** A snake lying along the whole of row 2 of a 6 x 6 wrap-mode grid,
    heading right. *)
Definition full_row_snake : state :=
  {| grid_w := 6; grid_h := 6; wrap_mode := true; score := 2; high_score := 2;
     paused := false; game_over := false; dir := (1, 0); next_dir := (1, 0);
     snake := [(5, 2); (4, 2); (3, 2); (2, 2); (1, 2); (0, 2)];
     food := (3, 4); timer_active := true; saved := Some 2 |}.

(** A fresh game on the default 24 x 18 grid whose head has reached the
    right edge. *)
Definition at_right_edge (wrap : bool) : state :=
  {| grid_w := 24; grid_h := 18; wrap_mode := wrap; score := 0; high_score := 0;
     paused := false; game_over := false; dir := (1, 0); next_dir := (1, 0);
     snake := [(23, 9); (22, 9); (21, 9); (20, 9)];
     food := (3, 4); timer_active := true; saved := None |}.

End Snake.

(** ** Calendar ([apps/calendar.py]) *)

Module Calendar.

(** An event record of the calendar document: a dictionary with the
    string fields [id], [title], [time] and [notes], any of which may be
    absent. *)
Definition event : Type := gmap string string.

(** A [QListWidgetItem]: its text, its [UserRole] data, its hidden flag. *)
Record item := { it_text : string; it_data : event; it_hidden : bool }.

Record state := {
  db : gmap string (list event);
  selected_date : string;
  search : string;
  list_ : list item
}.

(** The sort key [ev.get("time", "23:59")]. *)
Definition time_key (ev : event) : string := default "23:59" (ev !! "time").

Definition render (ev : event) : string :=
  let title := default "(Untitled)" (ev !! "title") in
  let time := default "" (ev !! "time") in
  if String.eqb time "" then title else time +:+ "  -  " +:+ title.

Definition _fill_list (items : list event) (st : state) : state :=
  {| db := db st; selected_date := selected_date st; search := search st;
     list_ := map (fun ev => {| it_text := render ev; it_data := ev;
                                it_hidden := false |}) items |}.

Definition _refilter_list (st : state) : state :=
  let query := Str.lower (Str.strip (search st)) in
  {| db := db st; selected_date := selected_date st; search := search st;
     list_ := map (fun it =>
               let show := if String.eqb query "" then true
                           else Str.contains query (Str.lower (it_text it)) in
               {| it_text := it_text it; it_data := it_data it;
                  it_hidden := negb show |}) (list_ st) |}.

Definition _on_date_changed (st : state) : state :=
  let key := selected_date st in
  let items := default [] (db st !! key) in
  let items := sort_by time_key String.leb items in
  _refilter_list (_fill_list items st).

(** The agenda as displayed: the texts of the list, top to bottom. *)
Definition agenda (st : state) : list string := map it_text (list_ st).

Definition mk_event (title time : string) : event :=
  {[ "id" := title; "title" := title; "time" := time; "notes" := "" ]}.


Definition day (events : list event) : state :=
  {| db := {[ "2025-01-01" := events ]}; selected_date := "2025-01-01";
     search := ""; list_ := [] |}.

End Calendar.

(** ** Security Manager ([apps/security_manager.py]; [apps/options.py]
    holds the same handlers over the same state file) *)

Module Security.

(** [(key, danger message or None, label)] for every toggle, in the order
    of the pages. *)
Definition TOGGLES : list (string * option string * string) :=
  [ ("rt_scanning", Some "Disabling real-time scanning may expose your system to live threats.", "Enable real-time scanning");
    ("rt_cloud", Some "Turning this off reduces detection accuracy and speed.", "Cloud-delivered protection");
    ("rt_samples", None, "Automatic sample submission");
    ("rt_tamper", Some "Disabling tamper protection allows malicious apps to alter security settings.", "Tamper protection");
    ("rt_cfa", Some "Turning this off can allow ransomware to encrypt your files.", "Controlled folder access");
    ("rt_suspicious", None, "Block suspicious activity");
    ("vtp_updates", Some "Without updates, new threats may not be detected.", "Automatic definition updates");
    ("vtp_removable", None, "Scan removable drives");
    ("vtp_archives", None, "Scan archives");
    ("vtp_behavior", Some "Disabling behavior analysis can miss zero-day malware.", "Heuristic/behavior analysis");
    ("acc_wake_signin", None, "Require sign-in on wake");
    ("acc_passwordless", Some "Turning this off may reduce account security.", "Passwordless sign-in (PIN/Hello)");
    ("acc_weak_pw", None, "Block weak passwords");
    ("acc_lockout", Some "Disabling lockout increases risk of account takeover.", "Account lockout on brute force");
    ("fw_enable", Some "Disabling the firewall exposes your device to network attacks.", "Enable firewall (all profiles)");
    ("fw_inbound_block", Some "Turning this off may allow remote access to services.", "Block inbound by default");
    ("fw_notify", None, "Notify on app block");
    ("fw_stealth", None, "Stealth mode (drop pings)");
    ("ab_smartscreen_apps", Some "Disabling SmartScreen can allow untrusted apps to run.", "SmartScreen for apps");
    ("ab_smartscreen_dl", None, "SmartScreen for downloads");
    ("ab_exploit", Some "Turning this off weakens memory protection (DEP/ASLR).", "Exploit protection (DEP/ASLR)");
    ("ab_pua", None, "Block potentially unwanted apps (PUA)");
    ("dev_secure_boot", None, "Secure Boot status check");
    ("dev_core_isolation", Some "Disabling memory integrity can allow kernel-level attacks.", "Core isolation / Memory integrity");
    ("dev_firmware", None, "Firmware protection");
    ("dev_tpm", None, "TPM health monitoring");
    ("perf_storage", None, "Storage health checks");
    ("perf_batt_thermal", None, "Battery/thermal health checks");
    ("perf_file_integrity", Some "Turning this off can hide corruption or tampering.", "Integrity checks on critical files");
    ("perf_maintenance", None, "Periodic maintenance scans") ].

(** The danger message a toggle was registered with, if any. *)
Definition danger_of (key : string) : option string :=
  match List.find (fun t => String.eqb t.1.1 key) TOGGLES with
  | Some (_, d, _) => d
  | None => None
  end.

(** A [QCheckBox]. *)
Record checkbox := { checked : bool; signals_blocked : bool }.

Definition blockSignals (b : bool) (cb : checkbox) : checkbox :=
  {| checked := checked cb; signals_blocked := b |}.

(** [cb.setChecked(v)]: the new box, and whether [stateChanged] fires. *)
Definition setChecked (v : bool) (cb : checkbox) : checkbox * bool :=
  ({| checked := v; signals_blocked := signals_blocked cb |},
   negb (Bool.eqb (checked cb) v) && negb (signals_blocked cb)).

(** The panel: the in-memory toggle state, its check boxes, the
    [stateChanged] signals emitted so far and the warning dialogs shown
    so far. *)
Record app := {
  state : list (string * json);
  boxes : gmap string checkbox;
  emitted : list (string * bool);
  prompts : list string
}.

Section WithEnvironment.
(** [BASE_DIR] is [Path(__file__).resolve().parent.parent], an absolute
    resolved path. *)
Context (BASE_DIR : list string) {J : JsonLib}.

Definition DATA_DIR : list string := BASE_DIR ++ ["data"].
Definition SEC_FILE : list string := DATA_DIR ++ ["security.json"].

Definition _load_state : FS.io json :=
  FS.try_except
    (e ← FS.exists_k SEC_FILE;
     if (e : bool) then
       txt ← FS.read_text_k SEC_FILE;
       FS.lift (json_loads txt)
     else mret (JObj []))
    (fun _ => mret (JObj [])).

Definition _save_state (obj : list (string * json)) : FS.io unit :=
  FS.try_except
    (_ ← FS.makedirs_k (FS.parent SEC_FILE) true;
     FS.write_text_k SEC_FILE (json_dumps (JObj obj)))
    (fun _ => mret ()).

(** [SecurityManagerApp.__init__] as far as the toggles go: one box per
    toggle, checked according to the loaded state. *)
Definition init : FS.io app :=
  st ← _load_state;
  match st with
  | JObj d =>
      mret {| state := d;
              boxes := list_to_map
                (map (fun t : string * option string * string =>
                        (t.1.1,
                         {| checked := truthy (default (JBool true) (PyDict.get t.1.1 d));
                            signals_blocked := false |}))
                     TOGGLES);
              emitted := []; prompts := [] |}
  | _ => FS.throw AttributeError
  end.

Definition _on_toggle (key : string) (a : app) : FS.io app :=
  match boxes a !! key with
  | None => FS.throw KeyError
  | Some cb =>
      let st := PyDict.set key (JBool (checked cb)) (state a) in
      _ ← _save_state st;
      mret {| state := st; boxes := boxes a; emitted := emitted a;
              prompts := prompts a |}
  end.

(** [answer] is the button the user presses in the warning dialog
    ([true] for Yes). *)
Definition _on_toggle_with_warning (key danger : string) (answer : bool)
    (a : app) : FS.io app :=
  match boxes a !! key with
  | None => FS.throw KeyError
  | Some cb =>
      if checked cb then _on_toggle key a
      else
        let a1 := {| state := state a; boxes := boxes a; emitted := emitted a;
                     prompts := prompts a ++
                       [danger +:+ String (ascii_of_nat 10) (String (ascii_of_nat 10)
                          "Are you sure you want to turn it OFF?")] |} in
        let ok := answer in
        if negb ok then
          let cb1 := blockSignals true cb in
          let '(cb2, fired) := setChecked true cb1 in
          let cb3 := blockSignals false cb2 in
          mret {| state := state a1; boxes := <[key := cb3]> (boxes a1);
                  emitted := if fired then emitted a1 ++ [(key, true)]
                             else emitted a1;
                  prompts := prompts a1 |}
        else _on_toggle key a1
  end.

(** The user clicks the check box of [key]: the box flips, [stateChanged]
    fires and the slot connected in [_card] runs. *)
Definition click (key : string) (answer : bool) (a : app) : FS.io app :=
  match boxes a !! key with
  | None => FS.throw KeyError
  | Some cb =>
      let '(cb', fired) := setChecked (negb (checked cb)) cb in
      let a1 := {| state := state a; boxes := <[key := cb']> (boxes a);
                   emitted := if fired then emitted a ++ [(key, checked cb')]
                              else emitted a;
                   prompts := prompts a |} in
      if fired then
        match danger_of key with
        | Some d => _on_toggle_with_warning key d answer a1
        | None => _on_toggle key a1
        end
      else mret a1
  end.

(** What [security.json] holds, if it can be read. *)
Definition persisted (w : FS.world) : result string :=
  (FS.read_text_k SEC_FILE w).1.
End WithEnvironment.

(** A world in which the application lives in [/home/u/PyOS] and has a
    data directory holding a state file. *)
Definition example_base : list string := ["home"; "u"; "PyOS"].

Definition example_world (sec : string) : FS.world :=
  {| FS.cwd := ["home"; "u"; "PyOS"];
     FS.files := {[ ["home"] := FS.Dir; ["home"; "u"] := FS.Dir;
                    ["home"; "u"; "PyOS"] := FS.Dir;
                    ["home"; "u"; "PyOS"; "data"] := FS.Dir;
                    ["home"; "u"; "PyOS"; "data"; "security.json"] := FS.File sec ]} |}.

(** A panel in which every box is checked. *)
Definition all_on : app :=
  {| state := [];
     boxes := list_to_map
       (map (fun t : string * option string * string =>
               (t.1.1, {| checked := true; signals_blocked := false |})) TOGGLES);
     emitted := []; prompts := [] |}.

End Security.

(** ** Settings ([apps/settings.py], the persistence part) *)

Module Settings.

Definition SETTINGS_FILE : string := Path.join "data" "settings.json".

Definition DEFAULTS : list (string * json) :=
  [ ("text", JStr "#FFFFFF");
    ("desktop_bg", JStr "#1E1E1E");
    ("taskbar_bg", JStr "#333333");
    ("start_bg", JStr "#444444");
    ("window_bg", JStr "#2E2E2E") ].

(** [data.get("colors", {})]. *)
Definition get_colors (data : json) : result json :=
  match data with
  | JObj d => Ok (default (JObj []) (PyDict.get "colors" d))
  | _ => Raise AttributeError
  end.

(** [{**DEFAULTS, **saved}]. *)
Definition merge_defaults (saved : json) : result (list (string * json)) :=
  match saved with
  | JObj sv => Ok (PyDict.merge DEFAULTS sv)
  | _ => Raise TypeError
  end.

Section WithJson.
Context {J : JsonLib}.

Definition load_colors_from_disk : FS.io (list (string * json)) :=
  _ ← FS.makedirs "data" true;
  e ← FS.exists_ SETTINGS_FILE;
  if (e : bool) then
    FS.try_except
      (txt ← FS.read_text SETTINGS_FILE;
       data ← FS.lift (json_loads txt);
       saved ← FS.lift (get_colors data);
       FS.lift (merge_defaults saved))
      (fun _ => mret DEFAULTS)
  else mret DEFAULTS.

Definition save_colors_to_disk (colors : list (string * json)) : FS.io bool :=
  _ ← FS.makedirs "data" true;
  FS.try_except
    (_ ← FS.write_text SETTINGS_FILE (json_dumps (JObj [("colors", JObj colors)]));
     mret true)
    (fun _ => mret false).

(** [save_colors_to_disk(load_colors_from_disk())]. *)
Definition save_loaded : FS.io bool :=
  colors ← load_colors_from_disk;
  save_colors_to_disk colors.
End WithJson.

(** The application directory with a data directory that holds the given
    settings document, if any. *)
Definition world_with (doc : option string) : FS.world :=
  {| FS.cwd := ["home"; "u"; "PyOS"];
     FS.files :=
       let base : gmap (list string) FS.node :=
         {[ ["home"] := FS.Dir; ["home"; "u"] := FS.Dir;
            ["home"; "u"; "PyOS"] := FS.Dir;
            ["home"; "u"; "PyOS"; "data"] := FS.Dir ]} in
       match doc with
       | Some txt => <[ ["home"; "u"; "PyOS"; "data"; "settings.json"] := FS.File txt ]> base
       | None => base
       end |}.

(** The application directory in which [data] is a regular file. *)
Definition world_data_is_file : FS.world :=
  {| FS.cwd := ["home"; "u"; "PyOS"];
     FS.files := {[ ["home"] := FS.Dir; ["home"; "u"] := FS.Dir;
                    ["home"; "u"; "PyOS"] := FS.Dir;
                    ["home"; "u"; "PyOS"; "data"] := FS.File "" ]} |}.

End Settings.

(** ** File Explorer ([apps/file_explorer.py]) *)

(** Message boxes, as a log of what was shown. *)
Inductive dialog :=
  | Warning (title text : string)
  | Critical (title : string) (e : exn)
  | Information (title text : string).

(** [l[:n]]. *)
Definition py_take {A} (n : Z) (l : list A) : list A :=
  if n <? 0 then take (Z.to_nat (Z.of_nat (length l) + n)) l
  else take (Z.to_nat n) l.

Module FileExplorer.

Definition ROOT_DIR : string := Path.join "data" "userfiles".
Definition TRASH_DIR : string := Path.join "data" "trash".

(** [os.path.abspath] inside the running process. *)
Definition abspath (p : string) : FS.io string := fun w =>
  (Ok (Path.abspath (FS.getcwd w) p), w).

Definition ensure_trash : FS.io unit := FS.makedirs TRASH_DIR true.

Definition ensure_root : FS.io string :=
  _ ← FS.makedirs ROOT_DIR true;
  abspath ROOT_DIR.

Definition within_root (path : string) : FS.io bool :=
  root ← abspath ROOT_DIR;
  p ← abspath path;
  c ← FS.lift (Path.commonpath root p);
  mret (String.eqb c root).

(** The sandbox test as a property of a path: [commonpath] of the
    resolved root and the resolved path is the root. *)
Definition resolves_inside (w : FS.world) (path : string) : bool :=
  let root := Path.abspath (FS.getcwd w) ROOT_DIR in
  match Path.commonpath root (Path.abspath (FS.getcwd w) path) with
  | Ok c => String.eqb c root
  | Raise _ => false
  end.

Definition is_text_like (path : string) : bool :=
  let ext := Str.lower (Path.splitext path).2 in
  bool_decide (ext ∈ [".txt"; ".md"; ".py"; ".json"; ".csv"; ".log"; ".ini";
                      ".cfg"; ".yaml"; ".yml"]).

Section WithJson.
Context {J : JsonLib}.

(** [tid] is the fresh [uuid.uuid4()], [now] the reading of
    [time.time()]. *)
Definition move_to_trash (path tid : string) (now : Z) : FS.io unit :=
  _ ← ensure_trash;
  let tdir := Path.join TRASH_DIR tid in
  _ ← FS.makedirs tdir true;
  let name := Path.basename path in
  is_dir ← FS.isdir path;
  let stored_name := name in
  orig ← abspath path;
  let meta := JObj [ ("original_path", JStr orig);
                     ("name", JStr name);
                     ("stored_name", JStr stored_name);
                     ("is_dir", JBool is_dir);
                     ("deleted_at", JNum now) ] in
  _ ← FS.write_text (Path.join tdir "metadata.json") (json_dumps meta);
  let dest := Path.join tdir stored_name in
  _ ← FS.shutil_move path dest;
  mret ().
End WithJson.

(** The attributes of [FileExplorerWindow] that navigation and the file
    operations use; [view_root] is the directory both views show. *)
Record window := {
  history : list string;
  history_index : Z;
  current_path : string;
  address : string;
  view_root : string;
  status : string;
  btn_back : bool;
  btn_forward : bool;
  btn_up : bool;
  dialogs : list dialog
}.

Definition show (d : dialog) (win : window) : window :=
  {| history := history win; history_index := history_index win;
     current_path := current_path win; address := address win;
     view_root := view_root win; status := status win;
     btn_back := btn_back win; btn_forward := btn_forward win;
     btn_up := btn_up win; dialogs := dialogs win ++ [d] |}.

Definition update_buttons (win : window) : FS.io window :=
  up ← (wr ← within_root (Path.dirname (current_path win));
        if (wr : bool) then
          root ← ensure_root;
          mret (negb (String.eqb (current_path win) root))
        else mret false);
  mret {| history := history win; history_index := history_index win;
          current_path := current_path win; address := address win;
          view_root := view_root win; status := status win;
          btn_back := 0 <? history_index win;
          btn_forward := (0 <=? history_index win)
                         && (history_index win <? Z.of_nat (length (history win)) - 1);
          btn_up := up; dialogs := dialogs win |}.

Definition update_status (win : window) : FS.io window :=
  count ← FS.try_except
             (names ← FS.listdir (current_path win);
              mret (Z.of_nat (length names)))
             (fun _ => mret 0);
  mret {| history := history win; history_index := history_index win;
          current_path := current_path win; address := address win;
          view_root := view_root win;
          status := current_path win +:+ "   —   " +:+ pretty count +:+ " item(s)";
          btn_back := btn_back win; btn_forward := btn_forward win;
          btn_up := btn_up win; dialogs := dialogs win |}.

Definition navigate (path : string) (push_history : bool) (win : window)
    : FS.io window :=
  path ← abspath path;
  wr ← within_root path;
  if negb (wr : bool) then
    mret (show (Warning "Blocked" "Navigation outside data/userfiles is not allowed.") win)
  else
    e ← FS.exists_ path;
    if negb (e : bool) then
      mret (show (Warning "Not found"
                    ("Path does not exist:" +:+ String (ascii_of_nat 10) path)) win)
    else
      let hist := if push_history
                  then py_take (history_index win + 1) (history win) ++ [path]
                  else history win in
      let win1 :=
        {| history := hist;
           history_index := if push_history then Z.of_nat (length hist) - 1
                            else history_index win;
           current_path := path; address := path; view_root := path;
           status := status win; btn_back := btn_back win;
           btn_forward := btn_forward win; btn_up := btn_up win;
           dialogs := dialogs win |} in
      win2 ← update_buttons win1;
      update_status win2.






Definition refresh (win : window) : FS.io window :=
  update_status
    {| history := history win; history_index := history_index win;
       current_path := current_path win; address := address win;
       view_root := current_path win; status := status win;
       btn_back := btn_back win; btn_forward := btn_forward win;
       btn_up := btn_up win; dialogs := dialogs win |}.

(** [name] and [ok] are what the input dialog returns. *)
Definition new_folder (name : string) (ok : bool) (win : window) : FS.io window :=
  if negb ok || String.eqb (Str.strip name) "" then mret win
  else
    let dest := Path.join (current_path win) (Str.strip name) in
    wr ← within_root dest;
    if negb (wr : bool) then
      mret (show (Warning "Blocked" "Cannot create folder outside sandbox.") win)
    else
      FS.try_except
        (_ ← FS.makedirs dest false; refresh win)
        (fun e =>
           match e with
           | FileExistsError =>
               mret (show (Warning "Exists"
                             "A file or folder with that name already exists.") win)
           | _ => mret (show (Critical "Error" e) win)
           end).

(** [selected] is the path selected in the list view, if any. *)
Definition rename_selected (selected : option string) (new_name : string)
    (ok : bool) (win : window) : FS.io window :=
  match selected with
  | None => mret win
  | Some path =>
      if String.eqb path "" then mret win
      else if negb ok || String.eqb (Str.strip new_name) "" then mret win
      else
        let dest := Path.join (Path.dirname path) (Str.strip new_name) in
        wr ← within_root dest;
        if negb (wr : bool) then
          mret (show (Warning "Blocked" "Cannot move/rename outside sandbox.") win)
        else
          FS.try_except
            (_ ← FS.rename path dest; refresh win)
            (fun e => mret (show (Critical "Error" e) win))
  end.

Section WithJson.
Context {J : JsonLib}.

End WithJson.

(** The application directory with its sandbox and trash directories. *)
Definition example_world : FS.world :=
  {| FS.cwd := ["home"; "u"; "PyOS"];
     FS.files := {[ ["home"] := FS.Dir; ["home"; "u"] := FS.Dir;
                    ["home"; "u"; "PyOS"] := FS.Dir;
                    ["home"; "u"; "PyOS"; "data"] := FS.Dir;
                    ["home"; "u"; "PyOS"; "data"; "trash"] := FS.Dir;
                    ["home"; "u"; "PyOS"; "data"; "userfiles"] := FS.Dir;
                    ["home"; "u"; "PyOS"; "data"; "userfiles"; "notes.txt"] := FS.File "abc" ]} |}.

(** The window as it is after start-up in [example_world]. *)
Definition start_window : window :=
  {| history := ["/home/u/PyOS/data/userfiles"]; history_index := 0;
     current_path := "/home/u/PyOS/data/userfiles";
     address := "/home/u/PyOS/data/userfiles";
     view_root := "/home/u/PyOS/data/userfiles";
     status := "/home/u/PyOS/data/userfiles   —   1 item(s)";
     btn_back := false; btn_forward := false; btn_up := false; dialogs := [] |}.

End FileExplorer.

(** ** Recycle Bin ([apps/recycle_bin.py]) *)

Module RecycleBin.

Definition TRASH_DIR : string := Path.join "data" "trash".
Definition ROOT_DIR : string := Path.join "data" "userfiles".

Definition ensure_dirs : FS.io unit :=
  _ ← FS.makedirs TRASH_DIR true;
  FS.makedirs ROOT_DIR true.

Definition safe_within_root (path : string) : FS.io bool :=
  root ← FileExplorer.abspath ROOT_DIR;
  p ← FileExplorer.abspath path;
  c ← FS.lift (Path.commonpath root p);
  mret (String.eqb c root).

(** A trash record as loaded: the fields of [metadata.json] plus
    [_trash_path]. *)
Definition meta : Type := list (string * json).

(** A value used where Python needs a [str]. *)
Definition as_str (v : option json) : result string :=
  match v with
  | Some (JStr s) => Ok s
  | _ => Raise TypeError
  end.

Section WithJson.
Context {J : JsonLib}.

(** The body of the loop of [trash_items] for one directory entry:
    the record it yields, if any. *)
Definition trash_item (entry : string) : FS.io (option meta) :=
  let tpath := Path.join TRASH_DIR entry in
  d ← FS.isdir tpath;
  if negb (d : bool) then mret None
  else
    let meta_path := Path.join tpath "metadata.json" in
    e ← FS.exists_ meta_path;
    if negb (e : bool) then mret None
    else
      FS.try_except
        (txt ← FS.read_text meta_path;
         m ← FS.lift (json_loads txt);
         match m with
         | JObj fields => mret (Some (PyDict.set "_trash_path" (JStr tpath) fields))
         | _ => FS.throw TypeError
         end)
        (fun _ => mret None).

Fixpoint trash_entries (entries : list string) : FS.io (list meta) :=
  match entries with
  | [] => mret []
  | entry :: rest =>
      o ← trash_item entry;
      ms ← trash_entries rest;
      mret (match o with Some m => m :: ms | None => ms end)
  end.

(** [list(trash_items())]. *)
Definition trash_items : FS.io (list meta) :=
  _ ← ensure_dirs;
  entries ← FS.listdir TRASH_DIR;
  trash_entries entries.
End WithJson.

(** The key [m.get("deleted_at", 0)] when it is a number. *)
Definition deleted_at (m : meta) : option Z :=
  match PyDict.get "deleted_at" m with
  | None => Some 0
  | Some (JNum z) => Some z
  | Some (JBool b) => Some (if b then 1 else 0)
  | Some _ => None
  end.

(** [sorted(ms, key=deleted_at, reverse=True)]: newest first, records
    with equal time stamps in their listed order.  Keys that are not
    numbers cannot be compared with numbers. *)
Definition sorted_by_deletion (ms : list meta) : result (list meta) :=
  match ms with
  | [] | [_] => Ok ms
  | _ =>
      if forallb (fun m => bool_decide (is_Some (deleted_at m))) ms
      then Ok (sort_by (fun m => default 0 (deleted_at m)) (fun a b => b <=? a) ms)
      else Raise TypeError
  end.

(** The window: the records of the list items, top to bottom, the
    number shown in the status line, and the message boxes shown.  The
    sizes and dates on the labels are display only and left out. *)
Record window := {
  items : list meta;
  count : Z;
  dialogs : list dialog
}.

Section WithJson.
Context {J : JsonLib}.

Definition load_items (win : window) : FS.io window :=
  ms ← trash_items;
  sorted ← FS.lift (sorted_by_deletion ms);
  _ ← FS.lift
        (fold_right
           (fun (m : meta) (acc : result unit) =>
              match acc with
              | Raise e => Raise e
              | Ok _ =>
                  match PyDict.get "stored_name" m with
                  | None => Raise KeyError
                  | Some (JStr _) => Ok ()
                  | Some _ => Raise TypeError
                  end
              end)
           (Ok ()) (rev sorted));
  mret {| items := sorted; count := Z.of_nat (length sorted);
          dialogs := dialogs win |}.

(** The search for a free name: [candidate i] for [i], [i+1], ...; the
    loop visits at most one more name than there are files. *)
Fixpoint probe (fuel : nat) (candidate : nat -> string) (i : nat)
    : FS.io (option string) :=
  match fuel with
  | O => mret None
  | S f =>
      e ← FS.exists_ (candidate i);
      if (e : bool) then probe f candidate (S i) else mret (Some (candidate i))
  end.

Definition restored_name (dest : string) (i : nat) : string :=
  let base := Path.basename dest in
  let parent := Path.dirname dest in
  let '(stem, ext) := Path.splitext base in
  Path.join parent (stem +:+ " (restored " +:+ pretty i +:+ ")" +:+ ext).

(** The body of the loop of [restore_selected]: [true] if the record
    was restored. *)
Definition restore_one (m : meta) : FS.io bool :=
  tdir ← FS.lift (as_str (PyDict.get "_trash_path" m));
  let orig := PyDict.get "original_path" m in
  stored_name ← FS.lift (as_str (PyDict.get "stored_name" m));
  let data_path := Path.join tdir stored_name in
  if negb (truthy (default JNull orig)) then mret false
  else
    orig ← FS.lift (as_str orig);
    wr ← safe_within_root orig;
    if negb (wr : bool) then mret false
    else
      e ← FS.exists_ orig;
      dest ← (if (e : bool) then
                fun w =>
                  match probe (S (size (FS.files w))) (restored_name orig) 1 w with
                  | (Ok (Some c), w') => (Ok c, w')
                  | (Ok None, w') => (Raise OSError, w')
                  | (Raise x, w') => (Raise x, w')
                  end
              else mret orig);
      FS.try_except
        (_ ← FS.makedirs (Path.dirname dest) true;
         _ ← FS.shutil_move data_path dest;
         _ ← FS.rmtree tdir;
         mret true)
        (fun _ => mret false).

Fixpoint restore_loop (metas : list meta) (restored : nat) : FS.io nat :=
  match metas with
  | [] => mret restored
  | m :: rest =>
      ok ← restore_one m;
      restore_loop rest (if (ok : bool) then S restored else restored)
  end.

(** [metas] are the records of the selected items. *)
Definition restore_selected (metas : list meta) (win : window) : FS.io window :=
  match metas with
  | [] => mret win
  | _ =>
      restored ← restore_loop metas 0;
      let win1 :=
        match restored with
        | O => win
        | _ => {| items := items win; count := count win;
                  dialogs := dialogs win ++
                    [Information "Recycle Bin"
                       ("Restored " +:+ pretty restored +:+ " item(s).")] |}
        end in
      load_items win1
  end.
End WithJson.

(** The application directory with a sandbox that holds one file
    [name] with the given content, and an empty trash. *)
Definition world_with_file (name content : string) : FS.world :=
  {| FS.cwd := ["home"; "u"; "PyOS"];
     FS.files := {[ ["home"] := FS.Dir; ["home"; "u"] := FS.Dir;
                    ["home"; "u"; "PyOS"] := FS.Dir;
                    ["home"; "u"; "PyOS"; "data"] := FS.Dir;
                    ["home"; "u"; "PyOS"; "data"; "trash"] := FS.Dir;
                    ["home"; "u"; "PyOS"; "data"; "userfiles"] := FS.Dir;
                    ["home"; "u"; "PyOS"; "data"; "userfiles"; name] := FS.File content ]} |}.

Definition empty_window : window := {| items := []; count := 0; dialogs := [] |}.

(** A trash record whose original path lies outside the sandbox. *)
Definition foreign_record : meta :=
  [ ("original_path", JStr "/etc/passwd"); ("name", JStr "passwd");
    ("stored_name", JStr "passwd"); ("is_dir", JBool false);
    ("deleted_at", JNum 100); ("_trash_path", JStr "data/trash/T9") ].

End RecycleBin.

(** ** Terminal ([apps/terminal.py], the environment commands) *)

Module Terminal.

(** What [str(Path(s))] prints: repeated separators, [.] components and
    a trailing separator are dropped. *)
Definition pathlib_str (s : string) : string :=
  let comps := Path.components s in
  let root := if Str.startswith "//" s && negb (Str.startswith "///" s) then "//"
              else if Str.startswith "/" s then "/" else "" in
  let res := root +:+ Str.join "/" comps in
  if String.eqb res "" then "." else res.

(** One [TerminalApp]: its working directory (an absolute resolved
    path), its command history and the lines printed in its output
    pane. *)
Record term := {
  cwd : list string;
  history : list string;
  out : list string
}.

(** The process: [os.environ], shared by everything that runs in it, and
    the terminal windows that are open. *)
Record process := {
  environ : gmap string string;
  terms : gmap nat term
}.

Definition _println (tid : nat) (s : string) (p : process) : result process :=
  match terms p !! tid with
  | None => Raise AttributeError
  | Some t =>
      Ok {| environ := environ p;
            terms := <[tid := {| cwd := cwd t; history := history t;
                                 out := out t ++ [s] |}]> (terms p) |}
  end.

Fixpoint print_all (tid : nat) (lines : list string) (p : process) : result process :=
  match lines with
  | [] => Ok p
  | l :: rest => p' ← _println tid l p; print_all tid rest p'
  end.

(** [os.environ[name] = val]. *)
Definition setenv (name val : string) (p : process) : result process :=
  if String.eqb name "" then Raise OSError
  else Ok {| environ := <[name := val]> (environ p); terms := terms p |}.


(** [sorted(os.environ.items())] rendered as [k=v]. *)
Definition env_lines (env : gmap string string) : list string :=
  map (fun kv : string * string => kv.1 +:+ "=" +:+ kv.2)
      (sort_by fst String.leb (map_to_list env)).

Definition _cmd_env (tid : nat) (p : process) : result process :=
  print_all tid (env_lines (environ p)) p.

Definition _cmd_set (args : list string) (tid : nat) (p : process) : result process :=
  match args with
  | [] => _cmd_env tid p
  | _ =>
      let line := Str.join " " args in
      if Str.contains "=" line then
        match Str.split_first "="%char line with
        | Some (name, val) =>
            p' ← setenv name val p;
            _println tid (name +:+ "=" +:+ val) p'
        | None => Raise (ValueError "not enough values to unpack")
        end
      else
        let val := default "" (environ p !! line) in
        _println tid (line +:+ "=" +:+ val) p
  end.


Definition pathsep : ascii := ":"%char.


Definition exts : list string := [""; ".exe"; ".bat"; ".cmd"; ".py"].

(** The first candidate of [_cmd_which] that exists: in the terminal's
    directory a regular file, then in the folders of [PATH] anything. *)
Definition which_lookup (env : gmap string string) (t : term) (w : FS.world)
    (name : string) : option string :=
  let here :=
    omap (fun ext =>
            let k := Path.components
                       (Path.normpath
                          (Path.join ("/" +:+ Str.join "/" (cwd t)) (name +:+ ext))) in
            if FS.isfile_at (FS.files w) k
            then Some ("/" +:+ Str.join "/" k) else None) exts in
  match here with
  | found :: _ => Some found
  | [] =>
      let folders := Str.split_on pathsep (default "" (env !! "PATH")) in
      let there :=
        folder ← folders;
        omap (fun ext =>
                let cand := Path.join folder (name +:+ ext) in
                if FS.exists_at (FS.files w) (FS.locate w cand)
                then Some (pathlib_str cand) else None) exts in
      head there
  end.

Definition _cmd_which (args : list string) (tid : nat) (w : FS.world)
    (p : process) : result process :=
  match args with
  | [] => _println tid "Usage: which <name>" p
  | name :: _ =>
      match terms p !! tid with
      | None => Raise AttributeError
      | Some t =>
          match which_lookup (environ p) t w name with
          | Some found => _println tid found p
          | None => _println tid "Not found." p
          end
      end
  end.


(** The lines a command added to the pane of terminal [tid]. *)
Definition printed (tid : nat) (before after : process) : option (list string) :=
  match terms before !! tid, terms after !! tid with
  | Some t, Some t' => Some (drop (length (out t)) (out t'))
  | _, _ => None
  end.

Definition fresh_term : term :=
  {| cwd := ["home"; "u"; "PyOS"]; history := []; out := [] |}.

(** Two terminal windows in a process started with a small environment. *)
Definition two_terminals : process :=
  {| environ := {[ "HOME" := "/home/u"; "PATH" := "/usr/bin:/bin" ]};
     terms := {[ 1%nat := fresh_term; 2%nat := fresh_term ]} |}.

(** A file system with a tool in [/opt/tools]. *)
Definition tools_world : FS.world :=
  {| FS.cwd := ["home"; "u"; "PyOS"];
     FS.files := {[ ["home"] := FS.Dir; ["home"; "u"] := FS.Dir;
                    ["home"; "u"; "PyOS"] := FS.Dir;
                    ["opt"] := FS.Dir; ["opt"; "tools"] := FS.Dir;
                    ["opt"; "tools"; "lint.py"] := FS.File "print(1)" ]} |}.

End Terminal.

(** ** Calculator ([apps/calculator.py]) *)

Module Calculator.

Inductive operator :=
  | Add | Sub | Mult | MatMult | Div | Mod | Pow
  | LShift | RShift | BitOr | BitXor | BitAnd | FloorDiv.

Inductive unaryop := Invert | Not | UAdd | USub.

(** The numbers an expression can evaluate to.  Integers and booleans
    are exact; [F] and [C] are Python's [float] and [complex]. *)
Inductive value (F C : Type) :=
  | VInt (z : Z)
  | VBool (b : bool)
  | VFloat (f : F)
  | VComplex (c : C).
Arguments VInt {F C} z.
Arguments VBool {F C} b.
Arguments VFloat {F C} f.
Arguments VComplex {F C} c.

(** Floating-point and complex arithmetic is the interpreter's: an
    interface with the operations the calculator reaches. *)
Class PyNum := {
  F : Type;
  C : Type;
  (** [a / b] for integers, [b] not zero. *)
  int_truediv : Z -> Z -> result F;
  (** [a ** b] for integers, [b] negative. *)
  int_pow_neg : Z -> Z -> result (value F C);
  (** A binary operator with at least one operand that is not an integer. *)
  num_binop : operator -> value F C -> value F C -> result (value F C);
  (** Unary plus or minus on an operand that is not an integer. *)
  num_unop : unaryop -> value F C -> result (value F C);
  (** [int(f)], [int(f) == f] and [str(f)] for a float. *)
  float_trunc : F -> result Z;
  float_eq_int : F -> Z -> bool;
  float_str : F -> string
}.

Section WithNumbers.
Context {N : PyNum}.

(** The value of an [ast.Constant]. *)
Inductive constant :=
  | CInt (z : Z)
  | CBool (b : bool)
  | CFloat (f : F)
  | CComplex (c : C)
  | CStr (s : string)
  | CBytes (s : string)
  | CNone
  | CEllipsis.

(** The nodes of [ast] that can occur where an expression is expected;
    [Other] stands for every node class not named here (comparisons,
    lambdas, subscripts, displays, ...). *)
#[warnings="-register-all"]
Inductive node :=
  | Constant (c : constant)
  | BinOp (left : node) (op : operator) (right : node)
  | UnaryOp (op : unaryop) (operand : node)
  | Expr (value : node)
  | Name (id : string)
  | Call (func : node) (args : list node)
  | Attribute (value : node) (attr : string)
  | Other (kind : string) (children : list node).

(** An integer operand: [int], or [bool] as 0 or 1. *)
Definition as_int (v : value F C) : option Z :=
  match v with
  | VInt z => Some z
  | VBool b => Some (if b then 1 else 0)
  | _ => None
  end.

Definition add (a b : value F C) : result (value F C) :=
  match as_int a, as_int b with
  | Some x, Some y => Ok (VInt (x + y))
  | _, _ => num_binop Add a b
  end.

Definition sub (a b : value F C) : result (value F C) :=
  match as_int a, as_int b with
  | Some x, Some y => Ok (VInt (x - y))
  | _, _ => num_binop Sub a b
  end.

Definition mul (a b : value F C) : result (value F C) :=
  match as_int a, as_int b with
  | Some x, Some y => Ok (VInt (x * y))
  | _, _ => num_binop Mult a b
  end.

Definition truediv (a b : value F C) : result (value F C) :=
  match as_int a, as_int b with
  | Some x, Some y =>
      if y =? 0 then Raise ZeroDivisionError
      else f ← int_truediv x y; mret (VFloat f)
  | _, _ => num_binop Div a b
  end.

Definition mod_ (a b : value F C) : result (value F C) :=
  match as_int a, as_int b with
  | Some x, Some y =>
      if y =? 0 then Raise ZeroDivisionError else Ok (VInt (x mod y))
  | _, _ => num_binop Mod a b
  end.

Definition floordiv (a b : value F C) : result (value F C) :=
  match as_int a, as_int b with
  | Some x, Some y =>
      if y =? 0 then Raise ZeroDivisionError else Ok (VInt (x / y))
  | _, _ => num_binop FloorDiv a b
  end.

Definition pow (a b : value F C) : result (value F C) :=
  match as_int a, as_int b with
  | Some x, Some y =>
      if 0 <=? y then Ok (VInt (x ^ y)) else int_pow_neg x y
  | _, _ => num_binop Pow a b
  end.

Definition neg (a : value F C) : result (value F C) :=
  match as_int a with
  | Some x => Ok (VInt (- x))
  | None => num_unop USub a
  end.

Definition pos (a : value F C) : result (value F C) :=
  match as_int a with
  | Some x => Ok (VInt x)
  | None => num_unop UAdd a
  end.

(** [_ALLOWED[type(node.op)]] for a binary and for a unary node. *)
Definition _ALLOWED_bin (op : operator)
    : result (value F C -> value F C -> result (value F C)) :=
  match op with
  | Add => Ok add
  | Sub => Ok sub
  | Mult => Ok mul
  | Div => Ok truediv
  | Mod => Ok mod_
  | Pow => Ok pow
  | FloorDiv => Ok floordiv
  | _ => Raise KeyError
  end.

Definition _ALLOWED_un (op : unaryop)
    : result (value F C -> result (value F C)) :=
  match op with
  | USub => Ok neg
  | UAdd => Ok pos
  | _ => Raise KeyError
  end.

(** [_eval_ast].  [isinstance(node, ast.Num)] holds for a constant
    that is an [int] other than a [bool], a [float] or a [complex];
    the second test, [isinstance(node.value, (int, float))], also
    admits [bool]. *)
Fixpoint _eval_ast (n : node) : result (value F C) :=
  match n with
  | Constant (CInt z) => Ok (VInt z)
  | Constant (CFloat f) => Ok (VFloat f)
  | Constant (CComplex c) => Ok (VComplex c)
  | Constant (CBool b) => Ok (VBool b)
  | Constant _ => Raise (ValueError "const")
  | BinOp l op r =>
      f ← _ALLOWED_bin op;
      a ← _eval_ast l;
      b ← _eval_ast r;
      f a b
  | UnaryOp op operand =>
      f ← _ALLOWED_un op;
      a ← _eval_ast operand;
      f a
  | Expr e => _eval_ast e
  | _ => Raise (ValueError "bad expr")
  end.

(** [ast.parse(expr, mode="eval").body]: the parser is the
    interpreter's. *)
Class PyAst := { ast_parse : string -> result node }.

Context {P : PyAst}.

Definition safe_eval (expr : string) : result (value F C) :=
  body ← ast_parse expr;
  _eval_ast body.

Definition _normalized (s : string) : string :=
  Str.replace "," "."
    (Str.replace "−" "-" (Str.replace "÷" "/" (Str.replace "×" "*" s))).

(** [int(val)]. *)
Definition to_int (v : value F C) : result Z :=
  match v with
  | VInt z => Ok z
  | VBool b => Ok (if b then 1 else 0)
  | VFloat f => float_trunc f
  | VComplex _ => Raise TypeError
  end.

(** [int(val) == val] once [int(val)] is [i]. *)
Definition eq_int (i : Z) (v : value F C) : bool :=
  match v with
  | VInt z => i =? z
  | VBool b => i =? (if b then 1 else 0)
  | VFloat f => float_eq_int f i
  | VComplex _ => false
  end.

(** [str(val)]. *)
Definition to_str (v : value F C) : result string :=
  match v with
  | VInt z => Ok (pretty z)
  | VBool b => Ok (if b then "True" else "False")
  | VFloat f => Ok (float_str f)
  | VComplex _ => Raise TypeError
  end.

(** [evaluate], on the text of the display: the text it leaves. *)
Definition evaluate (display : string) : string :=
  let expr := _normalized (Str.strip display) in
  if String.eqb expr "" then display
  else
    match (val ← safe_eval expr;
           i ← to_int val;
           if eq_int i val then mret (pretty i) else to_str val) with
    | Ok text => text
    | Raise _ => "Error"
    end.

(** A tree built only from numeric constants, the nine allowed
    operators and expression wrappers: the restricted arithmetic. *)
Fixpoint arithmetic (n : node) : bool :=
  match n with
  | Constant (CInt _) | Constant (CFloat _) | Constant (CComplex _)
  | Constant (CBool _) => true
  | Constant _ => false
  | BinOp l op r =>
      match op with
      | Add | Sub | Mult | Div | Mod | Pow | FloorDiv =>
          arithmetic l && arithmetic r
      | _ => false
      end
  | UnaryOp op operand =>
      match op with
      | UAdd | USub => arithmetic operand
      | _ => false
      end
  | Expr e => arithmetic e
  | _ => false
  end.
End WithNumbers.

End Calculator.

(** ** A small JSON codec

    An executable instance of [JsonLib], used to run the models on
    concrete documents: [dumps] prints like [json.dumps(obj, indent=2)],
    [loads] reads objects, arrays, strings with the short escapes,
    integers and the three literals.  Bytes above 127 are kept as they
    are. *)
Module MiniJson.
Definition dquote : ascii := ascii_of_nat 34.
Definition backslash : ascii := ascii_of_nat 92.
Definition newline : ascii := ascii_of_nat 10.

Fixpoint escape (s : string) : string :=
  match s with
  | EmptyString => EmptyString
  | String c rest =>
      if Ascii.eqb c dquote then String backslash (String dquote (escape rest))
      else if Ascii.eqb c backslash then String backslash (String backslash (escape rest))
      else if Ascii.eqb c newline then String backslash (String "n" (escape rest))
      else if Ascii.eqb c (ascii_of_nat 9) then String backslash (String "t" (escape rest))
      else if Ascii.eqb c (ascii_of_nat 13) then String backslash (String "r" (escape rest))
      else String c (escape rest)
  end.

Definition quote (s : string) : string :=
  String dquote (escape s) +:+ String dquote EmptyString.

Fixpoint indent (lvl : nat) : string :=
  match lvl with
  | O => EmptyString
  | S n => "  " +:+ indent n
  end.

Definition nl : string := String newline EmptyString.

Fixpoint dumps_at (lvl : nat) (v : json) : string :=
  match v with
  | JNull => "null"
  | JBool true => "true"
  | JBool false => "false"
  | JNum z => pretty z
  | JStr s => quote s
  | JArr [] => "[]"
  | JArr items =>
      "[" +:+ nl +:+ indent (S lvl) +:+
      (fix go (l : list json) : string :=
         match l with
         | [] => EmptyString
         | [x] => dumps_at (S lvl) x
         | x :: r => dumps_at (S lvl) x +:+ "," +:+ nl +:+ indent (S lvl) +:+ go r
         end) items
      +:+ nl +:+ indent lvl +:+ "]"
  | JObj [] => "{}"
  | JObj fields =>
      "{" +:+ nl +:+ indent (S lvl) +:+
      (fix go (l : list (string * json)) : string :=
         match l with
         | [] => EmptyString
         | [(k, x)] => quote k +:+ ": " +:+ dumps_at (S lvl) x
         | (k, x) :: r =>
             quote k +:+ ": " +:+ dumps_at (S lvl) x +:+ "," +:+ nl
             +:+ indent (S lvl) +:+ go r
         end) fields
      +:+ nl +:+ indent lvl +:+ "}"
  end.

Definition dumps (v : json) : string := dumps_at 0 v.

Definition is_ws (c : ascii) : bool :=
  Ascii.eqb c " " || Ascii.eqb c newline || Ascii.eqb c (ascii_of_nat 9)
  || Ascii.eqb c (ascii_of_nat 13).

Fixpoint skip_ws (s : string) : string :=
  match s with
  | String c rest => if is_ws c then skip_ws rest else s
  | EmptyString => EmptyString
  end.

(** The characters of a string literal after its opening quote. *)
Fixpoint read_string (s : string) : option (string * string) :=
  match s with
  | EmptyString => None
  | String c rest =>
      if Ascii.eqb c dquote then Some (EmptyString, rest)
      else if Ascii.eqb c backslash then
        match rest with
        | String e rest' =>
            let put (x : ascii) :=
              match read_string rest' with
              | Some (t, r) => Some (String x t, r)
              | None => None
              end in
            if Ascii.eqb e dquote then put dquote
            else if Ascii.eqb e backslash then put backslash
            else if Ascii.eqb e "/" then put "/"%char
            else if Ascii.eqb e "n" then put newline
            else if Ascii.eqb e "t" then put (ascii_of_nat 9)
            else if Ascii.eqb e "r" then put (ascii_of_nat 13)
            else if Ascii.eqb e "b" then put (ascii_of_nat 8)
            else if Ascii.eqb e "f" then put (ascii_of_nat 12)
            else None
        | EmptyString => None
        end
      else if (nat_of_ascii c <? 32)%nat then None
      else match read_string rest with
           | Some (t, r) => Some (String c t, r)
           | None => None
           end
  end.

Definition digit (c : ascii) : option Z :=
  let n := nat_of_ascii c in
  if ((48 <=? n) && (n <=? 57))%nat then Some (Z.of_nat (n - 48)) else None.

Fixpoint read_digits (acc : Z) (s : string) : Z * string :=
  match s with
  | String c rest =>
      match digit c with
      | Some d => read_digits (10 * acc + d) rest
      | None => (acc, s)
      end
  | EmptyString => (acc, s)
  end.

Definition read_number (s : string) : option (Z * string) :=
  match s with
  | String "-" (String c rest) =>
      match digit c with
      | Some d => let '(z, r) := read_digits d rest in Some (- z, r)
      | None => None
      end
  | String c rest =>
      match digit c with
      | Some d => Some (read_digits d rest)
      | None => None
      end
  | EmptyString => None
  end.

Definition after (p s : string) : option string :=
  if String.prefix p s
  then Some (String.substring (String.length p) (String.length s - String.length p) s)
  else None.

Fixpoint read_value (fuel : nat) (s : string) : option (json * string) :=
  match fuel with
  | O => None
  | S f =>
      match skip_ws s with
      | String c rest =>
          if Ascii.eqb c dquote then
            match read_string rest with
            | Some (t, r) => Some (JStr t, r)
            | None => None
            end
          else if Ascii.eqb c "{" then
            match skip_ws rest with
            | String "}" r => Some (JObj [], r)
            | _ => read_members f rest []
            end
          else if Ascii.eqb c "[" then
            match skip_ws rest with
            | String "]" r => Some (JArr [], r)
            | _ => read_items f rest []
            end
          else match after "true" (String c rest), after "false" (String c rest),
                     after "null" (String c rest) with
               | Some r, _, _ => Some (JBool true, r)
               | _, Some r, _ => Some (JBool false, r)
               | _, _, Some r => Some (JNull, r)
               | _, _, _ =>
                   match read_number (String c rest) with
                   | Some (z, r) => Some (JNum z, r)
                   | None => None
                   end
               end
      | EmptyString => None
      end
  end
with read_members (fuel : nat) (s : string) (acc : list (string * json))
    : option (json * string) :=
  match fuel with
  | O => None
  | S f =>
      match skip_ws s with
      | String c rest =>
          if Ascii.eqb c dquote then
            match read_string rest with
            | Some (k, r) =>
                match skip_ws r with
                | String ":" r1 =>
                    match read_value f r1 with
                    | Some (v, r2) =>
                        let acc' := PyDict.set k v acc in
                        match skip_ws r2 with
                        | String "," r3 => read_members f r3 acc'
                        | String "}" r3 => Some (JObj acc', r3)
                        | _ => None
                        end
                    | None => None
                    end
                | _ => None
                end
            | None => None
            end
          else None
      | EmptyString => None
      end
  end
with read_items (fuel : nat) (s : string) (acc : list json)
    : option (json * string) :=
  match fuel with
  | O => None
  | S f =>
      match read_value f s with
      | Some (v, r) =>
          match skip_ws r with
          | String "," r1 => read_items f r1 (acc ++ [v])
          | String "]" r1 => Some (JArr (acc ++ [v]), r1)
          | _ => None
          end
      | None => None
      end
  end.

Definition loads (s : string) : result json :=
  match read_value (S (String.length s)) s with
  | Some (v, rest) =>
      match skip_ws rest with
      | EmptyString => Ok v
      | _ => Raise JSONDecodeError
      end
  | None => Raise JSONDecodeError
  end.

#[export] Instance codec : JsonLib := {| json_dumps := dumps; json_loads := loads |}.
End MiniJson.

(** ** A small expression parser

    An executable instance of the calculator's two interfaces, used to run
    it on concrete inputs.  Numbers are integers; a quotient of integers
    is kept as an exact fraction.  The parser reads integer literals,
    names, quoted strings, calls, attribute access, parentheses and the
    arithmetic operators with Python's precedence. *)
Module MiniPython.
Import Calculator.

#[export] Instance numbers : PyNum := {|
  F := Z * Z;
  C := Empty_set;
  int_truediv := fun a b => Ok (a, b);
  int_pow_neg := fun a b =>
    if a =? 0 then Raise ZeroDivisionError else Ok (VFloat (1, a ^ (- b)));
  num_binop := fun _ _ _ => Raise OverflowError;
  num_unop := fun _ _ => Raise OverflowError;
  float_trunc := fun f => if f.2 =? 0 then Raise OverflowError else Ok (Z.quot f.1 f.2);
  float_eq_int := fun f i => f.1 =? i * f.2;
  float_str := fun f => pretty f.1 +:+ "/" +:+ pretty f.2
|}.

Inductive token :=
  | TNum (z : Z)
  | TName (id : string)
  | TStr (s : string)
  | TOp (op : string)
  | TLParen
  | TRParen
  | TComma
  | TDot.

Definition is_digit (c : ascii) : bool :=
  let n := nat_of_ascii c in ((48 <=? n) && (n <=? 57))%nat.

Definition is_name_start (c : ascii) : bool :=
  let n := nat_of_ascii c in
  (((65 <=? n) && (n <=? 90)) || ((97 <=? n) && (n <=? 122)) || (n =? 95))%nat.

Fixpoint take_while (f : ascii -> bool) (s : string) : string * string :=
  match s with
  | String c rest =>
      if f c then let '(a, b) := take_while f rest in (String c a, b)
      else (EmptyString, s)
  | EmptyString => (EmptyString, EmptyString)
  end.

Fixpoint digits_value (acc : Z) (s : string) : Z :=
  match s with
  | String c rest => digits_value (10 * acc + Z.of_nat (nat_of_ascii c - 48)) rest
  | EmptyString => acc
  end.

Fixpoint until_quote (q : ascii) (s : string) : option (string * string) :=
  match s with
  | EmptyString => None
  | String c rest =>
      if Ascii.eqb c q then Some (EmptyString, rest)
      else match until_quote q rest with
           | Some (a, b) => Some (String c a, b)
           | None => None
           end
  end.

Definition rest_of (s : string) : string :=
  match s with
  | String _ r => r
  | EmptyString => EmptyString
  end.

Fixpoint tokens (fuel : nat) (s : string) : option (list token) :=
  match fuel with
  | O => None
  | S f =>
      match s with
      | EmptyString => Some []
      | String c rest =>
          let cons (t : token) (r : string) :=
            match tokens f r with Some ts => Some (t :: ts) | None => None end in
          if Str.is_space c then tokens f rest
          else if is_digit c then
            let '(d, r) := take_while is_digit s in cons (TNum (digits_value 0 d)) r
          else if is_name_start c then
            let '(d, r) := take_while (fun x => is_name_start x || is_digit x) s in
            cons (TName d) r
          else if Ascii.eqb c "'" || Ascii.eqb c (ascii_of_nat 34) then
            match until_quote c rest with
            | Some (t, r) => cons (TStr t) r
            | None => None
            end
          else if Ascii.eqb c "(" then cons TLParen rest
          else if Ascii.eqb c ")" then cons TRParen rest
          else if Ascii.eqb c "," then cons TComma rest
          else if Ascii.eqb c "." then cons TDot rest
          else if String.prefix "**" s then cons (TOp "**") (rest_of rest)
          else if String.prefix "//" s then cons (TOp "//") (rest_of rest)
          else if Ascii.eqb c "+" || Ascii.eqb c "-" || Ascii.eqb c "*"
                  || Ascii.eqb c "/" || Ascii.eqb c "%" || Ascii.eqb c "~"
                  || Ascii.eqb c "@"
          then cons (TOp (String c EmptyString)) rest
          else None
      end
  end.

Definition binop_of (op : string) : option operator :=
  if String.eqb op "+" then Some Add
  else if String.eqb op "-" then Some Sub
  else if String.eqb op "*" then Some Mult
  else if String.eqb op "/" then Some Div
  else if String.eqb op "//" then Some FloorDiv
  else if String.eqb op "%" then Some Mod
  else if String.eqb op "@" then Some MatMult
  else None.

Definition is_additive (op : string) : bool :=
  String.eqb op "+" || String.eqb op "-".

Definition atom_of_name (id : string) : node :=
  if String.eqb id "True" then Constant (CBool true)
  else if String.eqb id "False" then Constant (CBool false)
  else if String.eqb id "None" then Constant CNone
  else Name id.

Fixpoint p_expr (fuel : nat) (ts : list token) : option (node * list token) :=
  match fuel with
  | O => None
  | S f =>
      match p_term f ts with
      | Some (l, rest) => p_expr_tail f l rest
      | None => None
      end
  end
with p_expr_tail (fuel : nat) (l : node) (ts : list token)
    : option (node * list token) :=
  match fuel with
  | O => None
  | S f =>
      match ts with
      | TOp op :: rest =>
          if is_additive op then
            match binop_of op, p_term f rest with
            | Some o, Some (r, rest') => p_expr_tail f (BinOp l o r) rest'
            | _, _ => None
            end
          else Some (l, ts)
      | _ => Some (l, ts)
      end
  end
with p_term (fuel : nat) (ts : list token) : option (node * list token) :=
  match fuel with
  | O => None
  | S f =>
      match p_factor f ts with
      | Some (l, rest) => p_term_tail f l rest
      | None => None
      end
  end
with p_term_tail (fuel : nat) (l : node) (ts : list token)
    : option (node * list token) :=
  match fuel with
  | O => None
  | S f =>
      match ts with
      | TOp op :: rest =>
          if negb (is_additive op) && negb (String.eqb op "**")
             && negb (String.eqb op "~") then
            match binop_of op, p_factor f rest with
            | Some o, Some (r, rest') => p_term_tail f (BinOp l o r) rest'
            | _, _ => None
            end
          else Some (l, ts)
      | _ => Some (l, ts)
      end
  end
with p_factor (fuel : nat) (ts : list token) : option (node * list token) :=
  match fuel with
  | O => None
  | S f =>
      match ts with
      | TOp op :: rest =>
          let unary (u : unaryop) :=
            match p_factor f rest with
            | Some (x, rest') => Some (UnaryOp u x, rest')
            | None => None
            end in
          if String.eqb op "+" then unary UAdd
          else if String.eqb op "-" then unary USub
          else if String.eqb op "~" then unary Invert
          else None
      | _ =>
          match p_postfix f ts with
          | Some (base, TOp op :: rest) =>
              if String.eqb op "**" then
                match p_factor f rest with
                | Some (e, rest') => Some (BinOp base Pow e, rest')
                | None => None
                end
              else Some (base, TOp op :: rest)
          | other => other
          end
      end
  end
with p_postfix (fuel : nat) (ts : list token) : option (node * list token) :=
  match fuel with
  | O => None
  | S f =>
      match ts with
      | TNum z :: rest => p_trailers f (Constant (CInt z)) rest
      | TName id :: rest => p_trailers f (atom_of_name id) rest
      | TStr s :: rest => p_trailers f (Constant (CStr s)) rest
      | TLParen :: rest =>
          match p_expr f rest with
          | Some (e, TRParen :: rest') => p_trailers f e rest'
          | _ => None
          end
      | _ => None
      end
  end
with p_trailers (fuel : nat) (base : node) (ts : list token)
    : option (node * list token) :=
  match fuel with
  | O => None
  | S f =>
      match ts with
      | TDot :: TName attr :: rest => p_trailers f (Attribute base attr) rest
      | TLParen :: TRParen :: rest => p_trailers f (Call base []) rest
      | TLParen :: rest =>
          match p_args f rest [] with
          | Some (args, rest') => p_trailers f (Call base args) rest'
          | None => None
          end
      | _ => Some (base, ts)
      end
  end
with p_args (fuel : nat) (ts : list token) (acc : list node)
    : option (list node * list token) :=
  match fuel with
  | O => None
  | S f =>
      match p_expr f ts with
      | Some (e, TComma :: rest) => p_args f rest (acc ++ [e])
      | Some (e, TRParen :: rest) => Some (acc ++ [e], rest)
      | _ => None
      end
  end.

Definition parse (s : string) : result node :=
  match tokens (S (String.length s)) s with
  | Some ts =>
      match p_expr (10 * S (length ts)) ts with
      | Some (e, []) => Ok e
      | _ => Raise SyntaxError
      end
  | None => Raise SyntaxError
  end.

#[export] Instance parser : PyAst := {| ast_parse := parse |}.
End MiniPython.


(** ** Python's [int()] on a JSON value *)

(** [int(s)] for a [str] is the interpreter's parser: an interface. *)
Class PyInt := { int_of_str : string -> result Z }.

(** [int(v)] for a value read from a JSON document. *)
Definition py_int {I : PyInt} (v : json) : result Z :=
  match v with
  | JNum z => Ok z
  | JBool b => Ok (if b then 1 else 0)
  | JStr s => int_of_str s
  | JNull | JArr _ | JObj _ => Raise TypeError
  end.

(** An [int()] for plain decimal numerals: an optional sign and digits,
    surrounded by white space; everything else is a [ValueError]. *)
Module MiniInt.
Definition digit (c : ascii) : option Z :=
  let n := nat_of_ascii c in
  if ((48 <=? n) && (n <=? 57))%nat then Some (Z.of_nat n - 48) else None.

Fixpoint digits (acc : Z) (s : string) : option Z :=
  match s with
  | EmptyString => Some acc
  | String c rest =>
      match digit c with
      | Some d => digits (acc * 10 + d) rest
      | None => None
      end
  end.

Definition unsigned (s : string) : result Z :=
  match s with
  | EmptyString => Raise (ValueError "invalid literal for int()")
  | _ => match digits 0 s with
         | Some z => Ok z
         | None => Raise (ValueError "invalid literal for int()")
         end
  end.

Definition parse (s : string) : result Z :=
  match Str.strip s with
  | String "-" rest => z ← unsigned rest; mret (- z)
  | String "+" rest => unsigned rest
  | t => unsigned t
  end.

#[export] Instance numerals : PyInt := {| int_of_str := parse |}.
End MiniInt.

(** ** Snake: settings, restart and keys ([apps/snake.py]) *)

Module SnakeSettings.

(** The dataclass [SnakeSettings]. *)
Record t := {
  grid_w : Z;
  grid_h : Z;
  speed_ms : Z;
  wrap_mode : bool;
  show_grid : bool;
  hud_at_bottom : bool
}.

(** [cls()]: the defaults of the dataclass. *)
Definition base : t :=
  {| grid_w := 24; grid_h := 18; speed_ms := 110; wrap_mode := true;
     show_grid := true; hud_at_bottom := true |}.

Section Coerce.
Context {I : PyInt}.

(** [_coerce_int(v, default, lo, hi)] with both bounds given. *)
Definition _coerce_int (v : json) (default : Z) (lo hi : Z) : Z :=
  match py_int v with
  | Ok i => Z.min hi (Z.max lo i)
  | Raise _ => default
  end.
End Coerce.

Definition _coerce_bool (v : json) (default : bool) : bool :=
  match v with
  | JBool b => b
  | JStr v =>
      let s := Str.lower (Str.strip v) in
      if bool_decide (s ∈ ["true"; "1"; "yes"; "y"; "on"]) then true
      else if bool_decide (s ∈ ["false"; "0"; "no"; "n"; "off"]) then false
      else default
  | _ => default
  end.

(** [data.get(k, d)]: [data] is whatever [json.loads] returned. *)
Definition data_get (data : json) (k : string) (d : json) : result json :=
  match data with
  | JObj fields => Ok (default d (PyDict.get k fields))
  | _ => Raise AttributeError
  end.

Section WithEnvironment.
Context (DATA_DIR : list string) {J : JsonLib} {I : PyInt}.

Definition SETTINGS_FILE : list string := DATA_DIR ++ ["snake_settings.json"].

(** The [try] block of [load]: the document, or [{}]. *)
Definition read_data : FS.io json :=
  FS.try_except
    (_ ← FS.makedirs_k (FS.parent SETTINGS_FILE) true;
     txt ← FS.read_text_k SETTINGS_FILE;
     FS.lift (json_loads txt))
    (fun _ => mret (JObj [])).

Definition load : FS.io t :=
  data ← read_data;
  FS.lift
    (gw ← data_get data "grid_w" (JNum (grid_w base));
     let gw := _coerce_int gw (grid_w base) 6 200 in
     gh ← data_get data "grid_h" (JNum (grid_h base));
     let gh := _coerce_int gh (grid_h base) 6 200 in
     sp ← data_get data "speed_ms" (JNum (speed_ms base));
     let sp := _coerce_int sp (speed_ms base) 30 2000 in
     wm ← data_get data "wrap_mode" (JBool (wrap_mode base));
     let wm := _coerce_bool wm (wrap_mode base) in
     sg ← data_get data "show_grid" (JBool (show_grid base));
     let sg := _coerce_bool sg (show_grid base) in
     hb ← data_get data "hud_at_bottom" (JBool (hud_at_bottom base));
     let hb := _coerce_bool hb (hud_at_bottom base) in
     mret {| grid_w := gw; grid_h := gh; speed_ms := sp; wrap_mode := wm;
             show_grid := sg; hud_at_bottom := hb |}).

(** [asdict(self)]. *)
Definition asdict (cfg : t) : json :=
  JObj [ ("grid_w", JNum (grid_w cfg)); ("grid_h", JNum (grid_h cfg));
         ("speed_ms", JNum (speed_ms cfg)); ("wrap_mode", JBool (wrap_mode cfg));
         ("show_grid", JBool (show_grid cfg));
         ("hud_at_bottom", JBool (hud_at_bottom cfg)) ].

Definition save (cfg : t) : FS.io unit :=
  FS.try_except
    (FS.write_text_k SETTINGS_FILE (json_dumps (asdict cfg)))
    (fun _ => mret ()).
End WithEnvironment.

(** The settings a document gives, by the rules of [load]. *)
Definition in_range (cfg : t) : Prop :=
  6 <= grid_w cfg <= 200 /\ 6 <= grid_h cfg <= 200 /\ 30 <= speed_ms cfg <= 2000.

(** A data directory holding the given settings document. *)
Definition world_with (doc : string) : FS.world :=
  {| FS.cwd := ["home"; "u"; "PyOS"];
     FS.files := {[ ["home"] := FS.Dir; ["home"; "u"] := FS.Dir;
                    ["home"; "u"; "PyOS"] := FS.Dir;
                    ["home"; "u"; "PyOS"; "data"] := FS.Dir;
                    ["home"; "u"; "PyOS"; "data"; "snake_settings.json"]
                      := FS.File doc ]} |}.
End SnakeSettings.

Module SnakeControls.
Import Snake.

(** [_restart]; [rnd] is the draw of [random.choice] in [_rand_food]. *)
Definition _restart (rnd : nat) (st : state) : state :=
  let cx := grid_w st / 2 in
  let cy := grid_h st / 2 in
  let body : list QPoint := map (fun i => (cx - i, cy)) (seqZ 0 4) in
  let st1 :=
    {| grid_w := grid_w st; grid_h := grid_h st; wrap_mode := wrap_mode st;
       score := 0; high_score := high_score st; paused := false;
       game_over := false; dir := (1, 0); next_dir := (1, 0); snake := body;
       food := food st; timer_active := timer_active st; saved := saved st |} in
  {| grid_w := grid_w st1; grid_h := grid_h st1; wrap_mode := wrap_mode st1;
     score := score st1; high_score := high_score st1; paused := paused st1;
     game_over := game_over st1; dir := dir st1; next_dir := next_dir st1;
     snake := snake st1; food := _rand_food rnd st1; timer_active := true;
     saved := saved st1 |}.

Definition set_next_dir (d : QPoint) (st : state) : state :=
  {| grid_w := grid_w st; grid_h := grid_h st; wrap_mode := wrap_mode st;
     score := score st; high_score := high_score st; paused := paused st;
     game_over := game_over st; dir := dir st; next_dir := d;
     snake := snake st; food := food st; timer_active := timer_active st;
     saved := saved st |}.

(** The keys of [keyPressEvent] that act on the game: the arrows (or
    WASD), Space and R. *)
Inductive key := Key_Left | Key_Right | Key_Up | Key_Down | Key_Space | Key_R.

Definition keyPressEvent (k : key) (rnd : nat) (st : state) : state :=
  match k with
  | Key_Left =>
      if negb ((dir st).1 =? 1) then set_next_dir (-1, 0) st else st
  | Key_Right =>
      if negb ((dir st).1 =? -1) then set_next_dir (1, 0) st else st
  | Key_Up =>
      if negb ((dir st).2 =? 1) then set_next_dir (0, -1) st else st
  | Key_Down =>
      if negb ((dir st).2 =? -1) then set_next_dir (0, 1) st else st
  | Key_Space =>
      if negb (game_over st) then
        {| grid_w := grid_w st; grid_h := grid_h st; wrap_mode := wrap_mode st;
           score := score st; high_score := high_score st;
           paused := negb (paused st); game_over := game_over st;
           dir := dir st; next_dir := next_dir st; snake := snake st;
           food := food st; timer_active := paused st; saved := saved st |}
      else st
  | Key_R => _restart rnd st
  end.

(** What happens to a running application: the timer fires or a key is
    pressed; [rnd] is the random draw the handler may use. *)
Inductive event := Tick (rnd : nat) | Key (k : key) (rnd : nat).

Definition handle (e : event) (st : state) : result state :=
  match e with
  | Tick rnd => _tick rnd st
  | Key k rnd => Ok (keyPressEvent k rnd st)
  end.

Fixpoint run (events : list event) (st : state) : result state :=
  match events with
  | [] => Ok st
  | e :: rest => st' ← handle e st; run rest st'
  end.

(** A cell of the grid. *)
Definition in_grid (st : state) (p : QPoint) : Prop :=
  0 <= p.1 < grid_w st /\ 0 <= p.2 < grid_h st.

(** The snake is not empty, lies on the grid and does not cross itself. *)
Definition valid (st : state) : Prop :=
  0 < grid_w st /\ 0 < grid_h st /\ snake st <> []
  /\ NoDup (snake st) /\ Forall (in_grid st) (snake st).

Definition is_arrow (k : key) : bool :=
  match k with
  | Key_Left | Key_Right | Key_Up | Key_Down => true
  | _ => false
  end.


End SnakeControls.

(** ** Calendar: adding, editing and deleting events ([apps/calendar.py]) *)

Module CalendarEdit.
Import Calendar.

(** [CalendarApp] with what its handlers change besides the list: the
    documents handed to [_save_db], oldest first, and the dates given
    to [setDateTextFormat] since the marks were last cleared. *)
Record app := {
  view : state;
  saved : list (gmap string (list event));
  marked : list (Z * Z * Z)
}.

(** A handler runs on the application and may raise; what it changed
    before raising stays changed. *)
Definition act (A : Type) : Type := app -> result A * app.

#[local] Instance act_ret : MRet act := fun A a s => (Ok a, s).
#[local] Instance act_bind : MBind act := fun A B f m s =>
  match m s with
  | (Ok a, s') => f a s'
  | (Raise e, s') => (Raise e, s')
  end.

Definition get_view : act state := fun a => (Ok (view a), a).

Definition set_view (v : state) : act unit := fun a =>
  (Ok (), {| view := v; saved := saved a; marked := marked a |}).

Definition set_db (d : gmap string (list event)) : act unit := fun a =>
  (Ok (), {| view := {| db := d; selected_date := selected_date (view a);
                        search := search (view a); list_ := list_ (view a) |};
             saved := saved a; marked := marked a |}).

Definition lift {A} (r : result A) : act A := fun a => (r, a).

(** [_save_db(self.db)]; a failed write is only printed. *)
Definition _save_db : act unit := fun a =>
  (Ok (), {| view := view a; saved := saved a ++ [db (view a)];
             marked := marked a |}).

Section WithInt.
Context {I : PyInt}.

(** [y, m, d = map(int, datestr.split("-"))]: the parts are converted
    one by one as the unpacking asks for them. *)
Definition parse_date (datestr : string) : result (Z * Z * Z) :=
  match Str.split_on "-"%char datestr with
  | a :: b :: c :: rest =>
      y ← int_of_str a;
      m ← int_of_str b;
      d ← int_of_str c;
      match rest with
      | [] => Ok (y, m, d)
      | e :: _ =>
          _ ← int_of_str e;
          Raise (ValueError "too many values to unpack (expected 3)")
      end
  | [a; b] =>
      _ ← int_of_str a;
      _ ← int_of_str b;
      Raise (ValueError "not enough values to unpack (expected 3, got 2)")
  | [a] =>
      _ ← int_of_str a;
      Raise (ValueError "not enough values to unpack (expected 3, got 1)")
  | [] => Raise (ValueError "not enough values to unpack (expected 3, got 0)")
  end.

(** A C++ [int] argument: PyQt raises [OverflowError] beyond it. *)
Definition c_int (z : Z) : bool := (-2147483648 <=? z) && (z <=? 2147483647).

Definition QDate (y m d : Z) : result (Z * Z * Z) :=
  if c_int y && c_int m && c_int d then Ok (y, m, d) else Raise OverflowError.

(** The loop of [_refresh_marks] over [self.db.items()]; [acc] are the
    dates given to [setDateTextFormat] so far. *)
Fixpoint mark_dates (l : list (string * list event)) (acc : list (Z * Z * Z))
    : result unit * list (Z * Z * Z) :=
  match l with
  | [] => (Ok (), acc)
  | (datestr, items) :: rest =>
      match items with
      | [] => mark_dates rest acc
      | _ =>
          match (ymd ← parse_date datestr; QDate ymd.1.1 ymd.1.2 ymd.2) with
          | Ok date => mark_dates rest (acc ++ [date])
          | Raise e => (Raise e, acc)
          end
      end
  end.

(** [_refresh_marks]: the marks are cleared, then every date with
    events is marked.  The dictionary is walked in the order of its
    keys here; Python walks it in insertion order, which only decides
    which of several malformed keys is met first. *)
Definition _refresh_marks : act unit := fun a =>
  let '(r, ms) := mark_dates (map_to_list (db (view a))) [] in
  (r, {| view := view a; saved := saved a; marked := ms |}).

Definition on_date_changed : act unit := fun a =>
  (Ok (), {| view := _on_date_changed (view a); saved := saved a;
             marked := marked a |}).

(** [asdict(ev)] for the event built by [Event.new] or by
    [_edit_selected]. *)
Definition record (id title time notes : string) : event :=
  {[ "id" := id; "title" := title; "time" := time; "notes" := notes ]}.

(** [_add_event]: [accepted] is the outcome of the dialog, [title],
    [when] (already formatted [HH:mm]) and [notes] what it returns,
    [uid] the fresh [uuid4]. *)
Definition _add_event (accepted : bool) (title when notes uid : string)
    : act unit :=
  if accepted then
    let title := if String.eqb title "" then "(Untitled)" else title in
    let ev := record uid title when notes in
    v ← get_view;
    let key := selected_date v in
    _ ← set_db (<[key := default [] (db v !! key) ++ [ev]]> (db v));
    _ ← _save_db;
    _ ← _refresh_marks;
    on_date_changed
  else mret ().

(** [_current_item]: [row] is the current row of the list, if any. *)
Definition _current_item (row : option nat) (v : state) : option (nat * event) :=
  match row with
  | None => None
  | Some i =>
      match list_ v !! i with
      | Some it => Some (i, it_data it)
      | None => None
      end
  end.

(** [_edit_selected]; [uid] is the [uuid4] used when the event has no
    id. *)
Definition _edit_selected (row : option nat) (accepted : bool)
    (title when notes uid : string) : act unit :=
  v ← get_view;
  match _current_item row v with
  | None => mret ()
  | Some (idx, ev) =>
      let id := default uid (ev !! "id") in
      if accepted then
        let key := selected_date v in
        _ ← (if bool_decide (is_Some (db v !! key)) then mret ()
             else set_db (<[key := []]> (db v)));
        v ← get_view;
        let items := default [] (db v !! key) in
        let new := record id (if String.eqb title "" then "(Untitled)" else title)
                     when notes in
        items' ← lift (py_setitem items (Z.of_nat idx) new);
        _ ← set_db (<[key := items']> (db v));
        _ ← _save_db;
        on_date_changed
      else mret ()
  end.

(** [del self.db[key][idx]] and, when the day is then empty,
    [del self.db[key]], inside [try ... except Exception: pass]. *)
Definition delete_at (key : string) (idx : nat) (d : gmap string (list event))
    : gmap string (list event) :=
  match d !! key with
  | None => d
  | Some items =>
      if bool_decide (idx < length items)%nat then
        match delete idx items with
        | [] => delete key d
        | items' => <[key := items']> d
        end
      else d
  end.

(** [_delete_selected]; [yes] is the answer to the question. *)
Definition _delete_selected (row : option nat) (yes : bool) : act unit :=
  v ← get_view;
  match _current_item row v with
  | None => mret ()
  | Some (idx, ev) =>
      if yes then
        _ ← set_db (delete_at (selected_date v) idx (db v));
        _ ← _save_db;
        _ ← _refresh_marks;
        on_date_changed
      else mret ()
  end.
End WithInt.

(** The list shows the events of the selected day, as
    [_on_date_changed] leaves it. *)
Definition shows_selected_day (v : state) : Prop :=
  map it_data (list_ v)
  = sort_by time_key String.leb (default [] (db v !! selected_date v)).

(** Every date with events has a key of the form [y-m-d]. *)
Definition keys_parse {I : PyInt} (d : gmap string (list event)) : Prop :=
  forall k items, d !! k = Some items -> items <> [] ->
                  exists y m dd, parse_date k = Ok (y, m, dd) /\ QDate y m dd = Ok (y, m, dd).

Definition by_time (a b : event) : Prop :=
  String.leb (time_key a) (time_key b) = true.

(** An application showing the single day of [day events]. *)
Definition open_day (events : list event) : app :=
  {| view := _on_date_changed (day events); saved := []; marked := [] |}.
End CalendarEdit.

(** ** File Explorer: what the user can do in a window *)

Module ExplorerSession.
Import FileExplorer.









End ExplorerSession.

(** ** Recycle Bin: the list and its order *)

Module RecycleBinList.
Import RecycleBin.


(** A record the list can show: its [stored_name] is a string and its
    time stamp a number. *)
Definition listable (m : meta) : Prop :=
  (exists s, PyDict.get "stored_name" m = Some (JStr s)) /\ is_Some (deleted_at m).



End RecycleBinList.

(** ** Terminal: the command history and the working directory
    ([apps/terminal.py]) *)

Module TerminalPrompt.

(** The input line with the history behind it: [self.history],
    [self.hist_index] and the text of [self.inp]. *)
Record prompt := {
  history : list string;
  hist_index : Z;
  inp : string
}.

(** [_hist_prev] (the Up key). *)
Definition _hist_prev (p : prompt) : result prompt :=
  match history p with
  | [] => Ok p
  | _ =>
      let i := if hist_index p <? 0 then Z.of_nat (length (history p)) - 1
               else Z.max 0 (hist_index p - 1) in
      text ← py_index (history p) i;
      mret {| history := history p; hist_index := i; inp := text |}
  end.

(** [_hist_next] (the Down key). *)
Definition _hist_next (p : prompt) : result prompt :=
  match history p with
  | [] => Ok p
  | _ =>
      if Z.of_nat (length (history p)) - 1 <=? hist_index p then
        Ok {| history := history p; hist_index := -1; inp := "" |}
      else
        let i := Z.min (Z.of_nat (length (history p)) - 1) (hist_index p + 1) in
        text ← py_index (history p) i;
        mret {| history := history p; hist_index := i; inp := text |}
  end.

(** What [_on_enter] does to the prompt when no pager is active: the
    line is taken from the input and, unless blank, appended to the
    history. *)
Definition enter (p : prompt) : prompt :=
  let line := inp p in
  if negb (String.eqb (Str.strip line) "") then
    {| history := history p ++ [line]; hist_index := -1; inp := "" |}
  else {| history := history p; hist_index := hist_index p; inp := "" |}.

Inductive key := Up | Down | Enter (typed : string).

(** A key press; for Enter the user has typed [typed] into the input
    first. *)
Definition press (k : key) (p : prompt) : result prompt :=
  match k with
  | Up => _hist_prev p
  | Down => _hist_next p
  | Enter typed =>
      Ok (enter {| history := history p; hist_index := hist_index p; inp := typed |})
  end.

Fixpoint presses (ks : list key) (p : prompt) : result prompt :=
  match ks with
  | [] => Ok p
  | k :: rest => p' ← press k p; presses rest p'
  end.

(** The index is -1 (not browsing) or points into the history. *)
Definition index_ok (p : prompt) : Prop :=
  -1 <= hist_index p < Z.max 0 (Z.of_nat (length (history p))).

Definition fresh : prompt := {| history := []; hist_index := -1; inp := "" |}.
End TerminalPrompt.

Module TerminalFiles.
Import Terminal.

Section WithRoot.
(** [PROJECT_ROOT], an absolute resolved path, by its components. *)
Context (PROJECT_ROOT : list string).

(** [(base / tgt).resolve()] in a file system without symbolic links. *)
Definition resolve (base : list string) (tgt : string) : list string :=
  Path.components (Path.normpath (Path.join ("/" +:+ Str.join "/" base) tgt)).

(** [clamp_to_root(p)] for a resolved [p]. *)
Definition clamp_to_root (p : list string) : list string :=
  if bool_decide (PROJECT_ROOT `prefix_of` p) then p else PROJECT_ROOT.

Definition set_cwd (tid : nat) (c : list string) (p : process) : result process :=
  match terms p !! tid with
  | None => Raise AttributeError
  | Some t =>
      Ok {| environ := environ p;
            terms := <[tid := {| cwd := c; history := history t; out := out t |}]>
                       (terms p) |}
  end.

(** [_cmd_cd]. *)
Definition _cmd_cd (args : list string) (tid : nat) (w : FS.world) (p : process)
    : result process :=
  match terms p !! tid with
  | None => Raise AttributeError
  | Some t =>
      match args with
      | [] => _println tid ("/" +:+ Str.join "/" (cwd t)) p
      | tgt :: _ =>
          let newp := if String.eqb tgt "~" then clamp_to_root PROJECT_ROOT
                      else clamp_to_root (resolve (cwd t) tgt) in
          if FS.isdir_at (FS.files w) newp then set_cwd tid newp p
          else _println tid "The system cannot find the path specified." p
      end
  end.

(** [_cmd_type]; [text_of e] is [str(e)] for the exception raised. *)
Definition _cmd_type (text_of : exn -> string) (args : list string) (tid : nat)
    (w : FS.world) (p : process) : result process :=
  match terms p !! tid with
  | None => Raise AttributeError
  | Some t =>
      match args with
      | [] => _println tid "Usage: type <file>" p
      | name :: _ =>
          let k := clamp_to_root (resolve (cwd t) name) in
          match (FS.read_text_k k w).1 with
          | Ok text => _println tid text p
          | Raise e => _println tid ("type failed: " +:+ text_of e) p
          end
      end
  end.
End WithRoot.

(** The terminal's working directory is the project root or below it. *)
Definition under_root (root : list string) (tid : nat) (p : process) : Prop :=
  exists t, terms p !! tid = Some t /\ root `prefix_of` cwd t.
End TerminalFiles.

(** ** Calculator: integer expressions *)

Module CalculatorInts.
Import Calculator.

Section WithNumbers.
Context {N : PyNum}.


End WithNumbers.
End CalculatorInts.

(** ** Tetris: rotation, hard drop, new game and the remaining keys
    ([apps/tetris.py]) *)

Module TetrisMoves.
Import Tetris.

Definition set_paused (b : bool) (st : state) : state :=
  {| s := s st; BW := BW st; BH := BH st; level := level st; score := score st;
     lines_cleared := lines_cleared st; highscore := highscore st;
     board := board st; current := current st; next_queue := next_queue st;
     paused := b; game_over := game_over st;
     _current_speed := _current_speed st; timer_active := timer_active st;
     timer_interval := timer_interval st;
     saved_highscore := saved_highscore st |}.

(** The loop of [rotate] over the wall kicks [(0, -1, 1, -2, 2)]. *)
Fixpoint try_kicks (st : state) (p : piece) (new_rot : Z) (kicks : list Z)
    : result state :=
  match kicks with
  | [] => Ok st
  | dx :: rest =>
      c ← _collides st (p_shape p) new_rot (p_x p + dx) (p_y p);
      if negb (c : bool) then
        Ok (set_current (Some {| p_shape := p_shape p; p_rot := new_rot;
                                 p_x := p_x p + dx; p_y := p_y p |}) st)
      else try_kicks st p new_rot rest
  end.

Definition rotate (dir : Z) (st : state) : result state :=
  match current st with
  | None => Ok st
  | Some p =>
      if paused st || game_over st then Ok st
      else try_kicks st p ((p_rot p + dir) mod 4) [0; -1; 1; -2; 2]
  end.

(** The loop of [hard_drop_distance], entered with [d]; [fuel] bounds
    the number of iterations, and [None] means it ran out. *)
Fixpoint hard_drop_loop (fuel : nat) (st : state) (sh : shape) (rot x y d : Z)
    : result (option Z) :=
  match fuel with
  | O => Ok None
  | S f =>
      c ← _collides st sh rot x (y + d + 1);
      if negb (c : bool) then hard_drop_loop f st sh rot x y (d + 1)
      else Ok (Some d)
  end.

Definition hard_drop_distance (fuel : nat) (st : state) (sh : shape) (rot x y : Z)
    : result (option Z) :=
  hard_drop_loop fuel st sh rot x y 0.

Definition hard_drop (fuel : nat) (bag : list shape) (st : state)
    : result (option state) :=
  match current st with
  | None => Ok (Some st)
  | Some p =>
      if paused st || game_over st then Ok (Some st)
      else
        od ← hard_drop_distance fuel st (p_shape p) (p_rot p) (p_x p) (p_y p);
        match od with
        | None => Ok None
        | Some d =>
            let st1 := set_current
                         (Some {| p_shape := p_shape p; p_rot := p_rot p;
                                  p_x := p_x p; p_y := p_y p + d |}) st in
            let st2 := set_score (score st1 + d * hard_drop_points (s st1)) st1 in
            st3 ← _lock_piece bag st2;
            mret (Some st3)
        end
  end.

(** [new_game]; [bag] is the shuffled bag of [_refill_bag], [bag2] the
    one [_spawn_piece] would draw if the queue were short. *)
Definition new_game (bag bag2 : list shape) (st : state) : result state :=
  let st1 :=
    {| s := s st; BW := BW st; BH := BH st; level := 1; score := 0;
       lines_cleared := 0; highscore := highscore st;
       board := replicate (Z.to_nat (BH st)) (empty_row (BW st));
       current := current st; next_queue := []; paused := paused st;
       game_over := game_over st; _current_speed := _current_speed st;
       timer_active := timer_active st; timer_interval := timer_interval st;
       saved_highscore := saved_highscore st |} in
  st2 ← _spawn_piece bag2 (_refill_bag bag st1);
  mret (_update_speed
    {| s := s st2; BW := BW st2; BH := BH st2; level := level st2;
       score := score st2; lines_cleared := lines_cleared st2;
       highscore := highscore st2; board := board st2; current := current st2;
       next_queue := next_queue st2; paused := false; game_over := false;
       _current_speed := _current_speed st2; timer_active := timer_active st2;
       timer_interval := timer_interval st2;
       saved_highscore := saved_highscore st2 |}).

Definition toggle_grid (st : state) : state :=
  {| s := {| board_w := board_w (s st); board_h := board_h (s st);
             sidebar_w := sidebar_w (s st); speed_ms := speed_ms (s st);
             ghost_alpha := ghost_alpha (s st);
             draw_grid := negb (draw_grid (s st));
             soft_drop_points := soft_drop_points (s st);
             hard_drop_points := hard_drop_points (s st) |};
     BW := BW st; BH := BH st; level := level st; score := score st;
     lines_cleared := lines_cleared st; highscore := highscore st;
     board := board st; current := current st; next_queue := next_queue st;
     paused := paused st; game_over := game_over st;
     _current_speed := _current_speed st; timer_active := timer_active st;
     timer_interval := timer_interval st;
     saved_highscore := saved_highscore st |}.

(** The keys of [keyPressEvent] (A, D, S and X, R act as Left, Right,
    Down and Up, N). *)
Inductive key :=
  | Left | Right | Down | Up | Z_ | Space | P_ | N_ | G_.

(** An event of a running game: the timer fires or a key is pressed.
    [bag] and [bag2] are the shuffled bags the handler may draw. *)
Inductive event := Tick (bag : list shape) | Key (k : key) (bag bag2 : list shape).

(** [fuel] bounds the loop of a hard drop; [None] means it ran out. *)
Definition handle (fuel : nat) (e : event) (st : state) : result (option state) :=
  match e with
  | Tick bag => st' ← tick bag st; mret (Some st')
  | Key k bag bag2 =>
      match k with
      | Left => st' ← move (-1) 0 bag st; mret (Some st')
      | Right => st' ← move 1 0 bag st; mret (Some st')
      | Down => st' ← move 0 1 bag st; mret (Some st')
      | Up => st' ← rotate 1 st; mret (Some st')
      | Z_ => st' ← rotate (-1) st; mret (Some st')
      | Space => hard_drop fuel bag st
      | P_ => Ok (Some (set_paused (negb (paused st)) st))
      | N_ => st' ← new_game bag bag2 st; mret (Some st')
      | G_ => Ok (Some (toggle_grid st))
      end
  end.

Fixpoint run (fuel : nat) (events : list event) (st : state) : result (option state) :=
  match events with
  | [] => Ok (Some st)
  | e :: rest =>
      o ← handle fuel e st;
      match o with
      | None => Ok None
      | Some st' => run fuel rest st'
      end
  end.

(** *** The invariant of a game *)

(** The board has [BH] rows of [BW] cells. *)
Definition board_shaped (st : state) : Prop :=
  length (board st) = Z.to_nat (BH st)
  /\ Forall (fun row => length row = Z.to_nat (BW st)) (board st).

(** A cell that is on the board and empty. *)
Definition free (st : state) (c : Z * Z) : Prop :=
  0 <= c.1 < BW st /\ 0 <= c.2 < BH st
  /\ exists row, board st !! Z.to_nat c.2 = Some row
                 /\ row !! Z.to_nat c.1 = Some None.

(** The cells of the piece [p]. *)
Definition cells_of (p : piece) : list (Z * Z) :=
  match SHAPES (p_shape p) !! Z.to_nat (p_rot p) with
  | Some l => map (fun c => (p_x p + c.1, p_y p + c.2)) l
  | None => []
  end.

(** The board is at least 4 wide and 3 high, well shaped and without
    a complete row; there is a current piece, in one of its four
    rotation states, and while the game is not over the piece lies on
    free cells. *)
Definition playable (st : state) : Prop :=
  4 <= BW st /\ 3 <= BH st
  /\ board_shaped st
  /\ Forall (fun row => has_empty row = true) (board st)
  /\ exists p, current st = Some p /\ 0 <= p_rot p < 4
               /\ (game_over st = false -> Forall (free st) (cells_of p)).

(** [st'] is a playable state of the same board size. *)
Definition kept (st st' : state) : Prop :=
  playable st' /\ BW st' = BW st /\ BH st' = BH st.

(** The cells of a piece of shape [sh], rotation [rot], at [(x, y)]. *)
Definition at_row (sh : shape) (rot x y : Z) : list (Z * Z) :=
  cells_of {| p_shape := sh; p_rot := rot; p_x := x; p_y := y |}.

(** A game on the default board: three cells locked in row 18, nine in
    row 19, and the I piece at the top. *)
Definition stacked : state :=
  {| s := DEFAULTS; BW := 10; BH := 20; level := 1; score := 0;
     lines_cleared := 0; highscore := 0;
     board := replicate 18 (empty_row 10)
              ++ [replicate 3 (Some "#00cbe6") ++ replicate 7 None;
                  replicate 9 (Some "#00cbe6") ++ [None]];
     current := Some {| p_shape := ShI; p_rot := 0; p_x := 3; p_y := 0 |};
     next_queue := [ShO; ShT; ShS; ShZ; ShJ; ShL; ShI];
     paused := false; game_over := false;
     _current_speed := 500; timer_active := true; timer_interval := 500;
     saved_highscore := None |}.

(** Every bag an event brings is a shuffle of the seven shapes. *)
Definition bags_ok (e : event) : Prop :=
  match e with
  | Tick bag => Permutation bag BAG_ORDER
  | Key _ bag bag2 => Permutation bag BAG_ORDER /\ Permutation bag2 BAG_ORDER
  end.
End TetrisMoves.


(** * Properties *)

Lemma py_index_lookup {A} (l : list A) (i : nat) (a : A) :
  l !! i = Some a -> py_index l (Z.of_nat i) = Ok a.
Proof.
  intros H. unfold py_index.
  pose proof (lookup_lt_Some _ _ _ H) as Hlt.
  destruct (Z.ltb_spec (Z.of_nat i) 0); [lia|].
  destruct (Z.ltb_spec (Z.of_nat i) 0); [lia|].
  destruct (Z.leb_spec (Z.of_nat (length l)) (Z.of_nat i)); [lia|].
  simpl. rewrite Nat2Z.id, H. reflexivity.
Qed.

(** ** The order on strings *)







(** ** Paths *)

#[global] Arguments String.append : simpl nomatch.

Module PathProps.
Import Path.

Lemma append_nil_r (s : string) : s +:+ "" = s.
Proof. induction s as [|c s IH]; simpl; [reflexivity|]. f_equal. exact IH. Qed.

Lemma append_assoc (a b c : string) : (a +:+ b) +:+ c = a +:+ (b +:+ c).
Proof. induction a as [|x a IH]; simpl; [reflexivity|]. f_equal. exact IH. Qed.

Lemma split_no_sep (s : string) : no_sep s = true -> Str.split_on sep s = [s].
Proof.
  induction s as [|c s IH]; simpl; [reflexivity|].
  intros H. apply andb_true_iff in H as [Hc Hs].
  apply negb_true_iff in Hc. rewrite Hc, (IH Hs). reflexivity.
Qed.

Lemma split_app (x s : string) :
  no_sep x = true ->
  Str.split_on sep (x +:+ String sep s) = x :: Str.split_on sep s.
Proof.
  induction x as [|c x IH]; simpl.
  - intros _. reflexivity.
  - intros H. apply andb_true_iff in H as [Hc Hx].
    apply negb_true_iff in Hc. rewrite Hc, (IH Hx). reflexivity.
Qed.

Lemma split_pieces (s : string) :
  Forall (fun c => no_sep c = true) (Str.split_on sep s).
Proof.
  induction s as [|c s IH]; simpl; [repeat constructor|].
  destruct (Ascii.eqb c sep) eqn:E.
  - constructor; [reflexivity|exact IH].
  - destruct (Str.split_on sep s) as [|w ws].
    + repeat constructor. simpl. rewrite E. reflexivity.
    + inversion IH; subst. constructor; [|assumption].
      simpl. rewrite E. simpl. assumption.
Qed.

Lemma split_join (cs : list string) :
  cs <> [] ->
  Forall (fun c => no_sep c = true) cs ->
  Str.split_on sep (Str.join "/" cs) = cs.
Proof.
  induction cs as [|c cs IH]; [congruence|]. intros _ H.
  inversion H as [|? ? Hc Hcs]; subst.
  destruct cs as [|d cs].
  - simpl. apply split_no_sep. exact Hc.
  - change (Str.join "/" (c :: d :: cs))
      with (c +:+ "/" +:+ Str.join "/" (d :: cs)).
    change ("/" +:+ Str.join "/" (d :: cs))
      with (String sep (Str.join "/" (d :: cs))).
    rewrite (split_app _ _ Hc). f_equal. apply IH; [discriminate|exact Hcs].
Qed.

Lemma clean_no_sep (c : string) : clean c = true -> no_sep c = true.
Proof.
  unfold clean. intros H. repeat (apply andb_true_iff in H as [H ?]). exact H.
Qed.

Lemma clean_tests (c : string) :
  clean c = true ->
  String.eqb c "" = false /\ String.eqb c "." = false /\ String.eqb c ".." = false.
Proof.
  unfold clean. intros H. repeat (apply andb_true_iff in H as [H ?]).
  repeat split; apply negb_true_iff; assumption.
Qed.

(** With a leading separator, [normpath] keeps exactly the proper
    components that survive the [..] steps. *)
Lemma norm_comps_clean (comps acc : list string) :
  Forall (fun c => no_sep c = true) comps ->
  Forall (fun c => clean c = true) acc ->
  Forall (fun c => clean c = true) (norm_comps true comps acc).
Proof.
  revert acc. induction comps as [|c comps IH]; intros acc Hc Ha; simpl; [exact Ha|].
  inversion Hc as [|? ? Hc1 Hc2]; subst.
  destruct (String.eqb c "" || String.eqb c ".") eqn:E1; [apply IH; assumption|].
  apply orb_false_iff in E1 as [E1a E1b].
  destruct (String.eqb c "..") eqn:E2; simpl.
  - assert (Hlast : match acc with
                    | last :: _ => String.eqb last ".."
                    | [] => false
                    end = false).
    { destruct acc as [|l acc]; [reflexivity|].
      inversion Ha; subst. apply clean_tests. assumption. }
    rewrite Hlast. apply IH; [assumption|].
    destruct acc; [constructor|]. inversion Ha; assumption.
  - apply IH; [assumption|]. constructor; [|assumption].
    unfold clean. rewrite Hc1, E1a, E1b, E2. reflexivity.
Qed.

Lemma norm_comps_of_clean (comps acc : list string) :
  Forall (fun c => clean c = true) comps ->
  norm_comps true comps acc = rev comps ++ acc.
Proof.
  revert acc. induction comps as [|c comps IH]; intros acc H; simpl; [reflexivity|].
  inversion H as [|? ? Hc Hcs]; subst.
  destruct (clean_tests c Hc) as (E1 & E2 & E3).
  rewrite E1, E2, E3. simpl. rewrite (IH _ Hcs), <- app_assoc. reflexivity.
Qed.

Lemma components_of_clean (comps : list string) :
  Forall (fun c => clean c = true) comps ->
  List.filter (fun c => negb (String.eqb c "") && negb (String.eqb c ".")) comps
  = comps.
Proof.
  induction 1 as [|c comps Hc _ IH]; simpl; [reflexivity|].
  destruct (clean_tests c Hc) as (E1 & E2 & _). rewrite E1, E2. simpl.
  rewrite IH. reflexivity.
Qed.

Lemma prefix_sep_join (cs : list string) :
  Forall (fun c => clean c = true) cs ->
  String.prefix "/" (Str.join "/" cs) = false.
Proof.
  intros H. destruct cs as [|c cs]; [reflexivity|].
  inversion H as [|? ? Hc _]; subst.
  assert (Hn := clean_no_sep c Hc). destruct (clean_tests c Hc) as (E1 & _).
  destruct c as [|a c]; [discriminate|].
  simpl in Hn. apply andb_true_iff in Hn as [Ha _]. apply negb_true_iff in Ha.
  assert (Hs : Str.join "/" (String a c :: cs) = String a (Str.join "/" (c :: cs))).
  { destruct cs; reflexivity. }
  rewrite Hs. cbn [String.prefix].
  destruct (ascii_dec "/"%char a) as [<-|]; [|reflexivity].
  vm_compute in Ha. discriminate.
Qed.

Lemma prefix_empty (s : string) : String.prefix "" s = true.
Proof. destruct s; reflexivity. Qed.

Lemma prefix_same (a : ascii) (p s : string) :
  String.prefix (String a p) (String a s) = String.prefix p s.
Proof.
  cbn [String.prefix]. destruct (ascii_dec a a); [reflexivity|congruence].
Qed.

Lemma norm_comps_join (cs : list string) :
  Forall (fun c => clean c = true) cs ->
  norm_comps true (Str.split_on sep (Str.join "/" cs)) [] = rev cs.
Proof.
  intros H. destruct cs as [|c cs]; [reflexivity|].
  rewrite split_join; [|discriminate|].
  - rewrite norm_comps_of_clean by exact H. apply app_nil_r.
  - eapply Forall_impl; [exact H|]. intros ? ?. apply clean_no_sep. assumption.
Qed.

(** A path in normal form is a fixed point of [normpath]. *)
Lemma normpath_of_components (two : bool) (cs : list string) :
  Forall (fun c => clean c = true) cs ->
  normpath ((if two then "//" else "/") +:+ Str.join "/" cs)
  = (if two then "//" else "/") +:+ Str.join "/" cs.
Proof.
  intros H. pose proof (prefix_sep_join cs H) as Hp.
  pose proof (norm_comps_join cs H) as Hn.
  set (J := Str.join "/" cs) in *.
  destruct two.
  - change ("//" +:+ J) with (String sep (String sep J)).
    unfold normpath, Str.startswith. cbv zeta.
    change (String.eqb (String sep (String sep J)) "") with false. cbv iota.
    change "//" with (String sep (String sep "")).
    change "///" with (String sep (String sep (String sep ""))).
    change "/" with (String sep "").
    rewrite !prefix_same. change (String sep "") with "/". rewrite Hp.
    rewrite !prefix_empty.
    cbv iota. simpl andb. cbv iota.
    change (Str.split_on sep (String sep (String sep J)))
      with ("" :: "" :: Str.split_on sep J).
    change (norm_comps true ("" :: "" :: Str.split_on sep J) [])
      with (norm_comps true (Str.split_on sep J) []).
    rewrite Hn, rev_involutive. reflexivity.
  - change ("/" +:+ J) with (String sep J).
    unfold normpath, Str.startswith. cbv zeta.
    change (String.eqb (String sep J) "") with false. cbv iota.
    change "//" with (String sep (String sep "")).
    change "///" with (String sep (String sep (String sep ""))).
    change "/" with (String sep "").
    rewrite !prefix_same. change (String sep "") with "/". rewrite Hp.
    rewrite !prefix_empty.
    cbv iota. simpl andb. cbv iota.
    change (Str.split_on sep (String sep J)) with ("" :: Str.split_on sep J).
    change (norm_comps true ("" :: Str.split_on sep J) [])
      with (norm_comps true (Str.split_on sep J) []).
    rewrite Hn, rev_involutive. reflexivity.
Qed.

Lemma isabs_cons (r : string) : isabs (String sep r) = true.
Proof.
  unfold isabs, Str.startswith. change "/" with (String sep "").
  rewrite prefix_same. apply prefix_empty.
Qed.

Lemma isabs_inv (s : string) : isabs s = true -> exists r, s = String sep r.
Proof.
  unfold isabs, Str.startswith. destruct s as [|a s]; [discriminate|].
  cbn [String.prefix]. destruct (ascii_dec "/"%char a) as [<-|]; [eauto|discriminate].
Qed.

Lemma normpath_absolute (q : string) :
  isabs q = true ->
  exists (two : bool) (cs : list string),
    Forall (fun c => clean c = true) cs
    /\ normpath q = (if two then "//" else "/") +:+ Str.join "/" cs.
Proof.
  intros Habs. destruct (isabs_inv q Habs) as [r ->].
  unfold normpath. cbv zeta.
  change (String.eqb (String sep r) "") with false. cbv iota.
  change (Str.startswith "/" (String sep r)) with (isabs (String sep r)).
  rewrite isabs_cons.
  set (two := Str.startswith "//" (String sep r)
              && negb (Str.startswith "///" (String sep r))).
  set (cs := rev (norm_comps true (Str.split_on sep (String sep r)) [])).
  exists two, cs. split.
  - unfold cs. apply Forall_rev. apply norm_comps_clean; [apply split_pieces|constructor].
  - destruct two; reflexivity.
Qed.

(** What [abspath] normalises is absolute. *)
Lemma abspath_target (c p : string) :
  isabs c = true -> isabs (if isabs p then p else join c p) = true.
Proof.
  intros Hc. destruct (isabs p) eqn:E; [exact E|].
  destruct (isabs_inv c Hc) as [r ->].
  unfold join. unfold isabs in E. rewrite E.
  destruct (String.eqb (String sep r) "" || Str.endswith "/" (String sep r));
    cbn [String.append]; apply isabs_cons.
Qed.

Lemma abspath_isabs (c p : string) : isabs c = true -> isabs (abspath c p) = true.
Proof.
  intros Hc. unfold abspath.
  destruct (normpath_absolute _ (abspath_target c p Hc)) as (two & cs & _ & ->).
  destruct two; cbn [String.append]; apply isabs_cons.
Qed.

(** [abspath] is idempotent. *)
Lemma abspath_idem (c p : string) :
  isabs c = true -> abspath c (abspath c p) = abspath c p.
Proof.
  intros Hc. pose proof (abspath_isabs c p Hc) as Habs.
  unfold abspath at 1. rewrite Habs. unfold abspath.
  destruct (normpath_absolute _ (abspath_target c p Hc)) as (two & cs & Hcs & ->).
  apply normpath_of_components. exact Hcs.
Qed.

Lemma of_components_isabs (cs : list string) : isabs (of_components cs) = true.
Proof. unfold of_components. cbn [String.append]. apply isabs_cons. Qed.

Lemma commonpath_absolute (a b : string) :
  isabs a = true -> isabs b = true ->
  commonpath a b = Ok ("/" +:+ Str.join "/" (common_prefix (components a) (components b))).
Proof. intros Ha Hb. unfold commonpath. rewrite Ha, Hb. reflexivity. Qed.
End PathProps.

(** ** The stable sort *)

Section StableSortFacts.
Context {A K : Type} (key : A -> K) (leb : K -> K -> bool).

Lemma insert_sorted_perm (x : A) (l : list A) :
  Permutation (insert_sorted key leb x l) (x :: l).
Proof.
  induction l as [|y r IH]; simpl; [reflexivity|].
  destruct (leb (key x) (key y)); [reflexivity|].
  rewrite IH. apply perm_swap.
Qed.

Lemma sort_by_perm (l : list A) : Permutation (sort_by key leb l) l.
Proof.
  induction l as [|x r IH]; simpl; [reflexivity|].
  rewrite insert_sorted_perm. constructor. exact IH.
Qed.

Hypothesis leb_total : forall a b, leb a b = true \/ leb b a = true.
Hypothesis leb_trans : forall a b c, leb a b = true -> leb b c = true -> leb a c = true.




Context `{EqDecision K}.
Hypothesis leb_refl : forall a, leb a a = true.


End StableSortFacts.
(** ** Tetris *)

Module TetrisProps.
Import Tetris.

Lemma filter_split_length (b : list (list cell)) :
  (length (filter (fun row => has_empty row = true) b)
   + length (filter (fun row => has_empty row = false) b) = length b)%nat.
Proof.
  induction b as [|row b IH]; [reflexivity|].
  rewrite !filter_cons. destruct (has_empty row) eqn:E.
  - rewrite decide_True by reflexivity. rewrite decide_False by discriminate.
    simpl. lia.
  - rewrite decide_False by discriminate. rewrite decide_True by reflexivity.
    simpl. lia.
Qed.

Lemma cleared_is_full_rows (st : state) :
  Z.of_nat (length (board st)) = BH st ->
  BH st - Z.of_nat (length (filter (fun row => has_empty row = true) (board st)))
  = full_rows (board st).
Proof.
  intros H. unfold full_rows. pose proof (filter_split_length (board st)). lia.
Qed.

Lemma div10_second_decade (n : Z) : 10 <= n < 20 -> n / 10 = 1.
Proof.
  intros H. symmetry. apply (Z.div_unique n 10 1 (n - 10)); lia.
Qed.

(** C7.  When a lock leaves exactly [k] full rows (1 to 4) on a board of
    [BH] rows at level 1, [_clear_lines] adds 40, 100, 300 or 1200 to the
    score and [k] to the line count; with the default base interval of
    500 ms the interval is 500 ms at level 1, and the clear that takes
    the line count from below 10 to 10 or more sets the level to 2 and
    the effective interval to max(80, 500 - 35) = 465 ms, which is also
    what the running timer is restarted with. *)
Theorem tetris_line_clear_scoring (st : state) (k : Z) :
  Z.of_nat (length (board st)) = BH st ->
  full_rows (board st) = k ->
  1 <= k <= 4 ->
  level st = 1 ->
  exists st',
    _clear_lines st = Ok st'
    /\ (k = 1 -> score st' = score st + 40)
    /\ (k = 2 -> score st' = score st + 100)
    /\ (k = 3 -> score st' = score st + 300)
    /\ (k = 4 -> score st' = score st + 1200)
    /\ lines_cleared st' = lines_cleared st + k
    /\ (speed_ms (s st) = 500 ->
        _current_speed (_update_speed st) = 500
        /\ (lines_cleared st < 10 <= lines_cleared st + k ->
            level st' = 2 /\ _current_speed st' = 465
            /\ (timer_active st = true -> timer_interval st' = 465))).
Proof.
  intros Hlen Hfull Hk Hlvl.
  unfold _clear_lines. rewrite (cleared_is_full_rows st Hlen), Hfull.
  destruct (Z.ltb_spec 0 k); [|lia].
  assert (Hcases : k = 1 \/ k = 2 \/ k = 3 \/ k = 4) by lia.
  destruct Hcases as [-> | [-> | [-> | ->]]]; cbn [py_index length];
    simpl; eexists; (split; [reflexivity|]); rewrite ?Hlvl; cbn [score lines_cleared level _update_speed _current_speed timer_interval timer_active s];
    repeat split; try lia; intros; try lia.
  all: rewrite (div10_second_decade (lines_cleared st + _)) by lia.
  all: try reflexivity.
  all: try (match goal with H : speed_ms _ = _ |- _ => rewrite H end; reflexivity).
  all: match goal with H : timer_active _ = _ |- _ => rewrite H end.
  all: match goal with H : speed_ms _ = _ |- _ => rewrite H end; reflexivity.
Qed.

Lemma tetris_line_clear_scoring_witness :
  Z.of_nat (length (board before_tenth_line)) = BH before_tenth_line
  /\ full_rows (board before_tenth_line) = 1
  /\ level before_tenth_line = 1
  /\ exists st',
    _clear_lines before_tenth_line = Ok st'
    /\ (1 = 1 -> score st' = score before_tenth_line + 40)
    /\ (1 = 2 -> score st' = score before_tenth_line + 100)
    /\ (1 = 3 -> score st' = score before_tenth_line + 300)
    /\ (1 = 4 -> score st' = score before_tenth_line + 1200)
    /\ lines_cleared st' = lines_cleared before_tenth_line + 1
    /\ (speed_ms (s before_tenth_line) = 500 ->
        _current_speed (_update_speed before_tenth_line) = 500
        /\ (lines_cleared before_tenth_line < 10
             <= lines_cleared before_tenth_line + 1 ->
            level st' = 2 /\ _current_speed st' = 465
            /\ (timer_active before_tenth_line = true ->
                timer_interval st' = 465))).
Proof.
  split; [reflexivity|]. split; [reflexivity|]. split; [reflexivity|].
  apply (tetris_line_clear_scoring before_tenth_line 1);
    [reflexivity | reflexivity | lia | reflexivity].
Defined.

(** The timer callback and the Down key run the same code. *)
Lemma tick_is_key_down (bag : list shape) (st : state) :
  tick bag st = keyPressEvent Key_Down bag st.
Proof.
  unfold tick, keyPressEvent, move.
  destruct (paused st || game_over st) eqn:E; [|reflexivity].
  destruct (current st); reflexivity.
Qed.

(** C5.  The gravity tick is not score-neutral: [tick] calls
    [move(0, 1)], the very call the Down key makes, so every row the
    piece falls on its own adds [soft_drop_points] to the score.  In a
    new game with the default settings the first timer tick moves the
    piece from row 0 to row 1 and takes the score from 0 to 1. *)
Theorem tetris_gravity_tick_scores :
  (forall bag st, tick bag st = keyPressEvent Key_Down bag st)
  /\ exists st st',
       init DEFAULTS 0 BAG_ORDER = Ok st
       /\ tick BAG_ORDER st = Ok st'
       /\ score st = 0
       /\ (p_y <$> current st) = Some 0
       /\ (p_y <$> current st') = Some 1
       /\ score st' = 1.
Proof.
  split; [exact tick_is_key_down|].
  eexists. eexists.
  split; [vm_compute; reflexivity|].
  split; [vm_compute; reflexivity|].
  repeat split.
Qed.
End TetrisProps.

(** ** Snake *)

Module SnakeProps.
Import Snake.

Lemma wrap_right_edge (w : Z) : 0 < w -> (w - 1 + 1 + w) mod w = 0.
Proof.
  intros H. replace (w - 1 + 1 + w) with (2 * w) by lia.
  apply Z.mod_mul. lia.
Qed.

Lemma wrap_row (y h : Z) : 0 <= y < h -> (y + 0 + h) mod h = y.
Proof.
  intros H. replace (y + 0 + h) with (y + 1 * h) by lia.
  rewrite Z.mod_add by lia. apply Z.mod_small. exact H.
Qed.

(** C8 (amended).  The game is running, the head is in the rightmost
    column of a grid of positive width and the next move is to the
    right.  In wrap mode the new head cell is column 0 of the same row:
    the head advances there if the snake does not already occupy that
    cell, and otherwise the tick ends the game with the snake where it
    was.  In non-wrap mode the tick ends the game, stops the timer and
    leaves the snake where it was. *)
Theorem snake_right_edge_tick (rnd : nat) (st : state) (y : Z) (body : list QPoint) :
  paused st = false ->
  game_over st = false ->
  snake st = (grid_w st - 1, y) :: body ->
  heading st = (1, 0) ->
  0 < grid_w st ->
  0 <= y < grid_h st ->
  (wrap_mode st = true ->
     (in_snake (0, y) (snake st) = false ->
        exists st', _tick rnd st = Ok st'
                    /\ game_over st' = false
                    /\ head (snake st') = Some (0, y))
     /\ (in_snake (0, y) (snake st) = true ->
        exists st', _tick rnd st = Ok st'
                    /\ game_over st' = true
                    /\ snake st' = snake st))
  /\ (wrap_mode st = false ->
        exists st', _tick rnd st = Ok st'
                    /\ game_over st' = true
                    /\ timer_active st' = false
                    /\ snake st' = snake st).
Proof.
  intros Hp Hg Hs Hh Hw Hy.
  assert (Hdir : dir (if bool_decide (padd (next_dir st) (dir st) ≠ (0, 0))
                      then set_dir (next_dir st) st else st) = (1, 0)).
  { unfold heading in Hh. destruct (bool_decide _); simpl; exact Hh. }
  unfold _tick. rewrite Hp, Hg. simpl orb. cbv iota.
  set (st1 := if bool_decide (padd (next_dir st) (dir st) ≠ (0, 0))
              then set_dir (next_dir st) st else st) in *.
  assert (E1 : snake st1 = snake st) by (unfold st1; destruct (bool_decide _); reflexivity).
  assert (E2 : grid_w st1 = grid_w st) by (unfold st1; destruct (bool_decide _); reflexivity).
  assert (E3 : grid_h st1 = grid_h st) by (unfold st1; destruct (bool_decide _); reflexivity).
  assert (E4 : wrap_mode st1 = wrap_mode st) by (unfold st1; destruct (bool_decide _); reflexivity).
  assert (E5 : game_over st1 = false) by (unfold st1; destruct (bool_decide _); simpl; exact Hg).
  rewrite E1, Hs. cbn [py_index length]. simpl.
  rewrite Hdir, E2, E3, E4. simpl.
  split.
  - intros Hwrap. rewrite Hwrap. unfold py_mod.
    destruct (Z.eqb_spec (grid_w st) 0); [lia|].
    destruct (Z.eqb_spec (grid_h st) 0); [lia|].
    simpl. rewrite wrap_right_edge by lia. rewrite wrap_row by lia.
    split; intros Hocc; rewrite Hocc.
    + case_bool_decide; eexists;
        (split; [reflexivity|]); simpl; (split; [exact E5|reflexivity]).
    + eexists. split; [reflexivity|]. simpl. split; [reflexivity|].
      rewrite E1, Hs. reflexivity.
  - intros Hwrap. rewrite Hwrap.
    destruct (Z.ltb_spec (grid_w st - 1 + 1) (grid_w st)); [lia|].
    rewrite andb_false_r. simpl.
    eexists. split; [reflexivity|]. simpl. repeat split.
    rewrite E1, Hs. reflexivity.
Qed.

Lemma snake_right_edge_tick_witness :
  (wrap_mode (at_right_edge true) = true ->
     (in_snake (0, 9) (snake (at_right_edge true)) = false ->
        exists st', _tick 0 (at_right_edge true) = Ok st'
                    /\ game_over st' = false
                    /\ head (snake st') = Some (0, 9))
     /\ (in_snake (0, 9) (snake (at_right_edge true)) = true ->
        exists st', _tick 0 (at_right_edge true) = Ok st'
                    /\ game_over st' = true
                    /\ snake st' = snake (at_right_edge true)))
  /\ (wrap_mode (at_right_edge true) = false ->
        exists st', _tick 0 (at_right_edge true) = Ok st'
                    /\ game_over st' = true
                    /\ timer_active st' = false
                    /\ snake st' = snake (at_right_edge true)).
Proof.
  apply (snake_right_edge_tick 0 (at_right_edge true) 9 [(22, 9); (21, 9); (20, 9)]);
    try reflexivity; simpl; lia.
Defined.

(** C8 as stated fails when the snake fills its row: the head is in the
    rightmost column of a wrap-mode grid and heads right, yet the tick
    ends the game and the head does not reach column 0. *)
Lemma snake_wrap_full_row_counterexample :
  paused full_row_snake = false
  /\ game_over full_row_snake = false
  /\ wrap_mode full_row_snake = true
  /\ heading full_row_snake = (1, 0)
  /\ head (snake full_row_snake) = Some (grid_w full_row_snake - 1, 2)
  /\ exists st', _tick 0 full_row_snake = Ok st'
                 /\ game_over st' = true
                 /\ head (snake st') <> Some (0, 2).
Proof.
  repeat (split; [reflexivity|]).
  eexists. split; [vm_compute; reflexivity|].
  split; [reflexivity|]. simpl. discriminate.
Qed.
End SnakeProps.

(** ** Calendar *)

Module CalendarProps.
Import Calendar.

Lemma refilter_data (st : state) :
  map it_data (list_ (_refilter_list st)) = map it_data (list_ st).
Proof.
  unfold _refilter_list. simpl. rewrite map_map. reflexivity.
Qed.

Lemma refilter_text (st : state) :
  map it_text (list_ (_refilter_list st)) = map it_text (list_ st).
Proof.
  unfold _refilter_list. simpl. rewrite map_map. reflexivity.
Qed.

Lemma shown_events (st : state) :
  map it_data (list_ (_on_date_changed st))
  = sort_by time_key String.leb (default [] (db st !! selected_date st)).
Proof.
  unfold _on_date_changed. rewrite refilter_data. unfold _fill_list. simpl.
  rewrite map_map. simpl. apply map_id.
Qed.


End CalendarProps.


(** ** The file system *)

Module FSProps.
Import FS.

Lemma parent_snoc (k : list string) (x : string) : parent (k ++ [x]) = k.
Proof. apply removelast_last. Qed.

Lemma isdir_exists (m : gmap (list string) node) (k : list string) :
  isdir_at m k = true -> exists_at m k = true.
Proof.
  destruct k as [|x k]; [reflexivity|]. unfold isdir_at, exists_at.
  destruct (m !! (x :: k)) as [[|]|] eqn:E; try discriminate.
  intros _. apply bool_decide_eq_true. eauto.
Qed.

Lemma with_files_id (w : world) : with_files (files w) w = w.
Proof. destruct w; reflexivity. Qed.

(** [makedirs(..., exist_ok=True)] on a directory that exists changes
    nothing. *)
Lemma makedirs_at_existing (m : gmap (list string) node) (k : list string) :
  wf m -> isdir_at m k = true -> makedirs_at (rev k) true m = (Ok (), m).
Proof.
  intros Hwf Hdir.
  destruct k as [|x0 k0] using rev_ind; [reflexivity|]. clear IHk0.
  rewrite rev_unit. cbn [makedirs_at]. rewrite rev_involutive.
  assert (Hpar : exists_at m k0 = true).
  { apply isdir_exists.
    assert (Hk : m !! (k0 ++ [x0]) = Some Dir).
    { unfold isdir_at in Hdir. destruct (k0 ++ [x0]) eqn:E.
      - destruct k0; discriminate.
      - destruct (m !! (s :: l)) as [[|]|]; try discriminate. reflexivity. }
    destruct (Hwf _ _ Hk) as [_ H]. rewrite parent_snoc in H. exact H. }
  rewrite Hpar.
  replace (rev (x0 :: rev k0)) with (k0 ++ [x0])
    by (simpl; rewrite rev_involutive; reflexivity).
  unfold mkdir_at. rewrite (isdir_exists _ _ Hdir). rewrite Hdir. reflexivity.
Qed.

Lemma makedirs_k_existing (w : world) (k : list string) :
  wf (files w) -> isdir_at (files w) k = true -> makedirs_k k true w = (Ok (), w).
Proof.
  intros Hwf Hdir. unfold makedirs_k.
  rewrite (makedirs_at_existing _ _ Hwf Hdir). rewrite with_files_id. reflexivity.
Qed.

Lemma read_after_write (w : world) (k : list string) (data : string) :
  k <> [] ->
  (read_text_k k (with_files (<[k := File data]> (files w)) w)).1 = Ok data.
Proof.
  intros Hk. unfold read_text_k. simpl.
  destruct k as [|x k]; [congruence|].
  unfold isdir_at. rewrite lookup_insert_eq. reflexivity.
Qed.
End FSProps.

(** ** Security Manager *)

Module SecurityProps.
Import Security.

Section WithEnvironment.
Context (BASE_DIR : list string) {J : JsonLib}.

#[local] Abbreviation SEC_FILE := (SEC_FILE BASE_DIR).
#[local] Abbreviation DATA_DIR := (DATA_DIR BASE_DIR).

Lemma sec_file_parent : FS.parent SEC_FILE = DATA_DIR.
Proof. apply FSProps.parent_snoc. Qed.

Lemma save_state_persists (obj : list (string * json)) (w : FS.world) :
  FS.wf (FS.files w) ->
  FS.isdir_at (FS.files w) DATA_DIR = true ->
  FS.isdir_at (FS.files w) SEC_FILE = false ->
  exists w', _save_state BASE_DIR obj w = (Ok (), w')
             /\ persisted BASE_DIR w' = Ok (json_dumps (JObj obj)).
Proof.
  intros Hwf Hdata Hsec.
  unfold _save_state, FS.try_except.
  unfold mbind at 1, FS.io_bind.
  rewrite sec_file_parent, (FSProps.makedirs_k_existing _ _ Hwf Hdata).
  unfold FS.write_text_k. rewrite Hsec, sec_file_parent, Hdata.
  eexists. split; [reflexivity|].
  unfold persisted. apply FSProps.read_after_write.
  unfold Security.SEC_FILE. destruct (Security.DATA_DIR BASE_DIR); discriminate.
Qed.

(** C9.  Let [key] be a toggle registered with a danger message, whose
    box is enabled for signals, and let the data directory exist with
    [security.json] not a directory.  Unchecking the box prompts; if
    the user declines, the box is checked again, no [stateChanged] is
    emitted beyond the one of the click itself, the in-memory state is
    the old one and the file system is untouched; if the user
    confirms, [False] is stored under [key] in memory and the state
    file holds the dump of the new state.  Checking the box stores
    [True] and writes the file without any prompt, whatever the answer
    would have been. *)
Theorem security_danger_toggle (key d : string) (a : app) (cb : checkbox)
    (w : FS.world) :
  danger_of key = Some d ->
  boxes a !! key = Some cb ->
  signals_blocked cb = false ->
  FS.wf (FS.files w) ->
  FS.isdir_at (FS.files w) DATA_DIR = true ->
  FS.isdir_at (FS.files w) SEC_FILE = false ->
  (checked cb = true ->
     (exists msg,
        click BASE_DIR key false a w
        = (Ok {| state := state a; boxes := boxes a;
                 emitted := emitted a ++ [(key, false)];
                 prompts := prompts a ++ [msg] |}, w))
     /\ (exists a' w',
           click BASE_DIR key true a w = (Ok a', w')
           /\ state a' = PyDict.set key (JBool false) (state a)
           /\ (checked <$> boxes a' !! key) = Some false
           /\ length (prompts a') = S (length (prompts a))
           /\ persisted BASE_DIR w' = Ok (json_dumps (JObj (state a')))))
  /\ (checked cb = false ->
      forall answer, exists a' w',
        click BASE_DIR key answer a w = (Ok a', w')
        /\ prompts a' = prompts a
        /\ state a' = PyDict.set key (JBool true) (state a)
        /\ (checked <$> boxes a' !! key) = Some true
        /\ persisted BASE_DIR w' = Ok (json_dumps (JObj (state a')))).
Proof.
  intros Hd Hb Hsig Hwf Hdata Hsec.
  destruct cb as [c b]. simpl in Hsig. subst b.
  split.
  - simpl. intros ->. split.
    + eexists. unfold click. rewrite Hb. simpl. rewrite Hd.
      unfold _on_toggle_with_warning. simpl. rewrite lookup_insert_eq. simpl.
      unfold mret, FS.io_ret. do 2 f_equal.
      rewrite insert_insert_eq. rewrite (insert_id _ _ _ Hb). reflexivity.
    + unfold click. rewrite Hb. simpl. rewrite Hd.
      unfold _on_toggle_with_warning. simpl. rewrite lookup_insert_eq. simpl.
      unfold _on_toggle. simpl. rewrite lookup_insert_eq. simpl.
      destruct (save_state_persists (PyDict.set key (JBool false) (state a)) w
                  Hwf Hdata Hsec) as (w' & Hsave & Hread).
      unfold mbind, FS.io_bind. rewrite Hsave.
      eexists. eexists. split; [reflexivity|]. simpl.
      rewrite lookup_insert_eq. simpl. rewrite length_app. simpl.
      repeat split; [lia | exact Hread].
  - simpl. intros -> answer.
    unfold click. rewrite Hb. simpl. rewrite Hd.
    unfold _on_toggle_with_warning. simpl. rewrite lookup_insert_eq. simpl.
    unfold _on_toggle. simpl. rewrite lookup_insert_eq. simpl.
    destruct (save_state_persists (PyDict.set key (JBool true) (state a)) w
                Hwf Hdata Hsec) as (w' & Hsave & Hread).
    unfold mbind, FS.io_bind. rewrite Hsave.
    eexists. eexists. split; [reflexivity|]. simpl.
    rewrite lookup_insert_eq. simpl.
    repeat split. exact Hread.
Qed.
End WithEnvironment.

#[local] Existing Instance MiniJson.codec.

Lemma security_danger_toggle_witness :
  danger_of "fw_enable" = Some "Disabling the firewall exposes your device to network attacks."
  /\ (exists msg,
        click example_base "fw_enable" false all_on (example_world "{}")
        = (Ok {| state := state all_on; boxes := boxes all_on;
                 emitted := emitted all_on ++ [("fw_enable", false)];
                 prompts := prompts all_on ++ [msg] |}, example_world "{}"))
  /\ (exists a' w',
        click example_base "fw_enable" true all_on (example_world "{}") = (Ok a', w')
        /\ state a' = PyDict.set "fw_enable" (JBool false) (state all_on)
        /\ (checked <$> boxes a' !! "fw_enable") = Some false
        /\ length (prompts a') = S (length (prompts all_on))
        /\ persisted example_base w' = Ok (json_dumps (JObj (state a')))).
Proof.
  split; [reflexivity|].
  refine (proj1 (security_danger_toggle example_base "fw_enable" _ all_on
                   {| checked := true; signals_blocked := false |}
                   (example_world "{}") _ _ _ _ _ _) _);
    try reflexivity.
  unfold FS.wf. apply (bool_decide_unpack _). vm_compute. exact I.
Defined.
End SecurityProps.

(** ** Operations that leave the file system alone *)

Module IOProps.
Import FS.

(** [m] run in [w] ends in [w]. *)
Definition preserves {A} (m : io A) (w : world) : Prop := (m w).2 = w.

Lemma preserves_ret {A} (a : A) (w : world) : preserves (mret a) w.
Proof. reflexivity. Qed.

Lemma preserves_throw {A} (e : exn) (w : world) : preserves (@throw A e) w.
Proof. reflexivity. Qed.

Lemma preserves_lift {A} (r : result A) (w : world) : preserves (lift r) w.
Proof. reflexivity. Qed.

Lemma preserves_bind {A B} (m : io A) (f : A -> io B) (w : world) :
  preserves m w -> (forall a, preserves (f a) w) -> preserves (m ≫= f) w.
Proof.
  unfold preserves, mbind, io_bind. intros Hm Hf.
  destruct (m w) as [[a|e] w'] eqn:E; simpl in Hm; subst w'; [apply Hf|reflexivity].
Qed.

Lemma preserves_try {A} (m : io A) (h : exn -> io A) (w : world) :
  preserves m w -> (forall e, preserves (h e) w) -> preserves (try_except m h) w.
Proof.
  unfold preserves, try_except. intros Hm Hh.
  destruct (m w) as [[a|e] w'] eqn:E; simpl in Hm; subst w'; [reflexivity|apply Hh].
Qed.

Lemma preserves_exists (p : string) (w : world) : preserves (exists_ p) w.
Proof. reflexivity. Qed.

Lemma preserves_isdir (p : string) (w : world) : preserves (isdir p) w.
Proof. reflexivity. Qed.

Lemma preserves_read (p : string) (w : world) : preserves (read_text p) w.
Proof.
  unfold preserves, read_text. destruct (String.eqb p ""); [reflexivity|].
  destruct (isdir_at _ _); [reflexivity|].
  destruct (files w !! locate w p) as [[|]|]; reflexivity.
Qed.

Lemma preserves_listdir (p : string) (w : world) : preserves (listdir p) w.
Proof.
  unfold preserves, listdir. destruct (String.eqb p ""); [reflexivity|].
  destruct (isdir_at _ _); [reflexivity|]. destruct (exists_at _ _); reflexivity.
Qed.

Lemma makedirs_existing (p : string) (w : world) :
  wf (files w) -> String.eqb p "" = false ->
  isdir_at (files w) (locate w p) = true ->
  makedirs p true w = (Ok (), w).
Proof.
  intros Hwf Hp Hdir. unfold makedirs. rewrite Hp.
  rewrite (FSProps.makedirs_at_existing _ _ Hwf Hdir).
  rewrite FSProps.with_files_id. reflexivity.
Qed.
End IOProps.

(** ** File Explorer and Recycle Bin: the sandbox *)

Module SandboxProps.
Import FileExplorer.

Lemma getcwd_isabs (w : FS.world) : Path.isabs (FS.getcwd w) = true.
Proof. apply PathProps.of_components_isabs. Qed.

Lemma within_root_eq (p : string) (w : FS.world) :
  within_root p w = (Ok (resolves_inside w p), w).
Proof.
  unfold within_root, resolves_inside, abspath, mbind, FS.io_bind, FS.lift.
  rewrite PathProps.commonpath_absolute
    by (apply PathProps.abspath_isabs, getcwd_isabs).
  reflexivity.
Qed.

Lemma safe_within_root_eq (p : string) (w : FS.world) :
  RecycleBin.safe_within_root p w = (Ok (resolves_inside w p), w).
Proof. exact (within_root_eq p w). Qed.

Lemma resolves_inside_abspath (w : FS.world) (p : string) :
  resolves_inside w (Path.abspath (FS.getcwd w) p) = resolves_inside w p.
Proof.
  unfold resolves_inside. rewrite PathProps.abspath_idem by apply getcwd_isabs.
  reflexivity.
Qed.

Lemma navigate_blocked (p : string) (push : bool) (win : window) (w : FS.world) :
  resolves_inside w p = false ->
  navigate p push win w
  = (Ok (show (Warning "Blocked" "Navigation outside data/userfiles is not allowed.")
           win), w).
Proof.
  intros H. unfold navigate. unfold mbind at 1, FS.io_bind, abspath at 1.
  unfold mbind at 1, FS.io_bind. rewrite within_root_eq, resolves_inside_abspath, H.
  reflexivity.
Qed.

Lemma new_folder_blocked (name : string) (win : window) (w : FS.world) :
  String.eqb (Str.strip name) "" = false ->
  resolves_inside w (Path.join (current_path win) (Str.strip name)) = false ->
  new_folder name true win w
  = (Ok (show (Warning "Blocked" "Cannot create folder outside sandbox.") win), w).
Proof.
  intros Hn H. unfold new_folder. rewrite Hn. cbn [negb orb].
  unfold mbind, FS.io_bind. rewrite within_root_eq, H. reflexivity.
Qed.

Lemma rename_blocked (path new_name : string) (win : window) (w : FS.world) :
  String.eqb path "" = false ->
  String.eqb (Str.strip new_name) "" = false ->
  resolves_inside w (Path.join (Path.dirname path) (Str.strip new_name)) = false ->
  rename_selected (Some path) new_name true win w
  = (Ok (show (Warning "Blocked" "Cannot move/rename outside sandbox.") win), w).
Proof.
  intros Hp Hn H. unfold rename_selected. rewrite Hp, Hn. cbn [negb orb].
  unfold mbind, FS.io_bind. rewrite within_root_eq, H. reflexivity.
Qed.

Section Restore.
Context {J : JsonLib}.
Import RecycleBin.

Lemma restore_one_skips (m : meta) (tdir stored orig : string) (w : FS.world) :
  PyDict.get "_trash_path" m = Some (JStr tdir) ->
  PyDict.get "stored_name" m = Some (JStr stored) ->
  PyDict.get "original_path" m = Some (JStr orig) ->
  resolves_inside w orig = false ->
  restore_one m w = (Ok false, w).
Proof.
  intros Ht Hs Ho H. unfold restore_one. rewrite Ht, Hs, Ho.
  change (truthy (default JNull (Some (JStr orig))))
    with (negb (String.eqb orig "")).
  unfold mbind, FS.io_bind, FS.lift. cbn [as_str].
  destruct (String.eqb orig "") eqn:E; [reflexivity|].
  cbn [negb]. rewrite safe_within_root_eq, H. reflexivity.
Qed.

Lemma trash_item_preserves (entry : string) (w : FS.world) :
  IOProps.preserves (trash_item entry) w.
Proof.
  unfold trash_item.
  apply IOProps.preserves_bind; [apply IOProps.preserves_isdir|]. intros d.
  destruct d; [|apply IOProps.preserves_ret]. cbn [negb].
  apply IOProps.preserves_bind; [apply IOProps.preserves_exists|]. intros e.
  destruct e; [|apply IOProps.preserves_ret]. cbn [negb].
  apply IOProps.preserves_try; [|intros; apply IOProps.preserves_ret].
  apply IOProps.preserves_bind; [apply IOProps.preserves_read|]. intros txt.
  apply IOProps.preserves_bind; [apply IOProps.preserves_lift|]. intros [| | | | |fields];
    try apply IOProps.preserves_throw. apply IOProps.preserves_ret.
Qed.

Lemma trash_entries_preserves (entries : list string) (w : FS.world) :
  IOProps.preserves (trash_entries entries) w.
Proof.
  induction entries as [|e es IH]; [reflexivity|]. cbn [trash_entries].
  apply IOProps.preserves_bind; [apply trash_item_preserves|]. intros o.
  apply IOProps.preserves_bind; [exact IH|]. intros ms.
  apply IOProps.preserves_ret.
Qed.

(** Refreshing the list reads the trash and writes nothing once the
    two directories exist. *)
Lemma load_items_preserves (win : window) (w : FS.world) :
  FS.wf (FS.files w) ->
  FS.isdir_at (FS.files w) (FS.locate w TRASH_DIR) = true ->
  FS.isdir_at (FS.files w) (FS.locate w ROOT_DIR) = true ->
  IOProps.preserves (load_items win) w.
Proof.
  intros Hwf Ht Hr. unfold load_items.
  apply IOProps.preserves_bind.
  - unfold trash_items. apply IOProps.preserves_bind.
    + unfold IOProps.preserves, ensure_dirs, mbind, FS.io_bind.
      rewrite (IOProps.makedirs_existing TRASH_DIR w Hwf eq_refl Ht).
      rewrite (IOProps.makedirs_existing ROOT_DIR w Hwf eq_refl Hr). reflexivity.
    + intros _. apply IOProps.preserves_bind; [apply IOProps.preserves_listdir|].
      intros es. apply trash_entries_preserves.
  - intros ms. apply IOProps.preserves_bind; [apply IOProps.preserves_lift|].
    intros sorted. apply IOProps.preserves_bind; [apply IOProps.preserves_lift|].
    intros _. apply IOProps.preserves_ret.
Qed.
End Restore.

(** C1.  Let the resolved absolute form of [p] not have the sandbox
    root as its common path with the root.  Then navigating to [p] shows
    the Blocked warning and leaves the window (its current path
    included) and the file system as they were; so do creating a folder
    whose destination is [p] and renaming to the destination [p], each
    with its own warning.  A trash record whose original path is [p] is
    skipped by the restore loop without a message and without touching
    the file system or the count of restored items, and restoring a
    selection of that record alone only refreshes the list. *)
Theorem sandbox_rejects_outside_paths {J : JsonLib} (w : FS.world) (p : string) :
  resolves_inside w p = false ->
  (forall win push,
      navigate p push win w
      = (Ok (show (Warning "Blocked" "Navigation outside data/userfiles is not allowed.")
               win), w)
      /\ current_path (show (Warning "Blocked"
                              "Navigation outside data/userfiles is not allowed.") win)
         = current_path win)
  /\ (forall win name,
        String.eqb (Str.strip name) "" = false ->
        p = Path.join (current_path win) (Str.strip name) ->
        new_folder name true win w
        = (Ok (show (Warning "Blocked" "Cannot create folder outside sandbox.") win), w))
  /\ (forall win path new_name,
        String.eqb path "" = false ->
        String.eqb (Str.strip new_name) "" = false ->
        p = Path.join (Path.dirname path) (Str.strip new_name) ->
        rename_selected (Some path) new_name true win w
        = (Ok (show (Warning "Blocked" "Cannot move/rename outside sandbox.") win), w))
  /\ (forall (m : RecycleBin.meta) tdir stored,
        PyDict.get "_trash_path" m = Some (JStr tdir) ->
        PyDict.get "stored_name" m = Some (JStr stored) ->
        PyDict.get "original_path" m = Some (JStr p) ->
        RecycleBin.restore_one m w = (Ok false, w)
        /\ (forall ms n, RecycleBin.restore_loop (m :: ms) n w
                         = RecycleBin.restore_loop ms n w)
        /\ (forall win,
              FS.wf (FS.files w) ->
              FS.isdir_at (FS.files w) (FS.locate w RecycleBin.TRASH_DIR) = true ->
              FS.isdir_at (FS.files w) (FS.locate w RecycleBin.ROOT_DIR) = true ->
              RecycleBin.restore_selected [m] win w = RecycleBin.load_items win w
              /\ (RecycleBin.restore_selected [m] win w).2 = w)).
Proof.
  intros H. split; [|split; [|split]].
  - intros win push. split; [apply navigate_blocked; exact H|reflexivity].
  - intros win name Hn ->. apply new_folder_blocked; assumption.
  - intros win path new_name Hp Hn ->. apply rename_blocked; assumption.
  - intros m tdir stored Ht Hs Ho.
    pose proof (restore_one_skips m tdir stored p w Ht Hs Ho H) as Hone.
    split; [exact Hone|]. split.
    + intros ms n. cbn [RecycleBin.restore_loop]. unfold mbind at 1, FS.io_bind.
      rewrite Hone. reflexivity.
    + intros win Hwf Hdt Hdr.
      assert (E : RecycleBin.restore_selected [m] win w = RecycleBin.load_items win w).
      { unfold RecycleBin.restore_selected. cbn [RecycleBin.restore_loop].
        unfold mbind at 1, FS.io_bind. unfold mbind at 1, FS.io_bind.
        rewrite Hone. reflexivity. }
      split; [exact E|]. rewrite E.
      apply load_items_preserves; assumption.
Qed.

#[local] Existing Instance MiniJson.codec.

Lemma sandbox_rejects_outside_paths_witness :
  resolves_inside example_world "/etc/passwd" = false
  /\ navigate "/etc/passwd" true start_window example_world
     = (Ok (show (Warning "Blocked" "Navigation outside data/userfiles is not allowed.")
              start_window), example_world)
  /\ new_folder "../../x" true start_window example_world
     = (Ok (show (Warning "Blocked" "Cannot create folder outside sandbox.")
              start_window), example_world)
  /\ rename_selected (Some "/home/u/PyOS/data/userfiles/notes.txt") "../../n.txt" true
       start_window example_world
     = (Ok (show (Warning "Blocked" "Cannot move/rename outside sandbox.")
              start_window), example_world)
  /\ RecycleBin.restore_one RecycleBin.foreign_record example_world
     = (Ok false, example_world)
  /\ (RecycleBin.restore_selected [RecycleBin.foreign_record]
        RecycleBin.empty_window example_world).2 = example_world.
Proof.
  assert (Hwf : FS.wf (FS.files example_world)).
  { unfold FS.wf. apply (bool_decide_unpack _). vm_compute. exact I. }
  split; [vm_compute; reflexivity|].
  split.
  { apply (sandbox_rejects_outside_paths example_world "/etc/passwd").
    vm_compute; reflexivity. }
  split.
  { refine (proj1 (proj2 (sandbox_rejects_outside_paths example_world
                            "/home/u/PyOS/data/userfiles/../../x" _))
              start_window "../../x" _ _);
      vm_compute; reflexivity. }
  split.
  { refine (proj1 (proj2 (proj2 (sandbox_rejects_outside_paths example_world
                            "/home/u/PyOS/data/userfiles/../../n.txt" _)))
              start_window "/home/u/PyOS/data/userfiles/notes.txt" "../../n.txt" _ _ _);
      vm_compute; reflexivity. }
  pose proof (proj2 (proj2 (proj2 (sandbox_rejects_outside_paths example_world
                "/etc/passwd" eq_refl)))
                RecycleBin.foreign_record "data/trash/T9" "passwd"
                eq_refl eq_refl eq_refl) as (H1 & _ & H3).
  split; [exact H1|].
  apply (H3 RecycleBin.empty_window Hwf); vm_compute; reflexivity.
Defined.
End SandboxProps.

(** ** Move to trash and restore *)

Module TrashProps.
Import FS RecycleBin.

#[local] Existing Instance MiniJson.codec.

(** A deleted file comes back with its content when it is restored at
    once, and its trash folder is gone. *)
Lemma trash_round_trip_example :
  exists w1 win w2 win' w3,
    FileExplorer.move_to_trash "/home/u/PyOS/data/userfiles/a.txt" "T1" 100
      (world_with_file "a.txt" "hello") = (Ok (), w1)
    /\ files w1 !! ["home"; "u"; "PyOS"; "data"; "userfiles"; "a.txt"] = None
    /\ load_items empty_window w1 = (Ok win, w2)
    /\ length (items win) = 1%nat
    /\ restore_selected (items win) win w2 = (Ok win', w3)
    /\ files w3 !! ["home"; "u"; "PyOS"; "data"; "userfiles"; "a.txt"]
       = Some (File "hello")
    /\ files w3 !! ["home"; "u"; "PyOS"; "data"; "trash"; "T1"] = None
    /\ w3 = world_with_file "a.txt" "hello".
Proof.
  do 5 eexists.
  split; [vm_compute; reflexivity|].
  split; [vm_compute; reflexivity|].
  split; [vm_compute; reflexivity|].
  split; [reflexivity|].
  split; [vm_compute; reflexivity|].
  repeat split; vm_compute; reflexivity.
Qed.

(** When the original path and the first alternative name are taken,
    the file comes back under the next free name. *)
Lemma trash_round_trip_renamed_example :
  exists w1 win w2 win' w3,
    (_ ← FileExplorer.move_to_trash "/home/u/PyOS/data/userfiles/a.txt" "T1" 100;
     _ ← write_text "data/userfiles/a.txt" "new";
     write_text "data/userfiles/a (restored 1).txt" "other")
      (world_with_file "a.txt" "hello") = (Ok (), w1)
    /\ load_items empty_window w1 = (Ok win, w2)
    /\ restore_selected (items win) win w2 = (Ok win', w3)
    /\ files w3 !! ["home"; "u"; "PyOS"; "data"; "userfiles"; "a (restored 2).txt"]
       = Some (File "hello")
    /\ files w3 !! ["home"; "u"; "PyOS"; "data"; "userfiles"; "a.txt"]
       = Some (File "new")
    /\ files w3 !! ["home"; "u"; "PyOS"; "data"; "trash"; "T1"] = None.
Proof.
  do 5 eexists.
  split; [vm_compute; reflexivity|].
  split; [vm_compute; reflexivity|].
  split; [vm_compute; reflexivity|].
  repeat split; vm_compute; reflexivity.
Qed.

(** C2.  The round trip fails for a file named [metadata.json]:
    [move_to_trash] writes the record to [<trash>/T1/metadata.json] and
    then moves the file onto that very path ([stored_name] is the base
    name), so the record is replaced by the file's bytes.  The Recycle
    Bin finds no record to list, a restore has nothing to act on, the
    original path stays empty and the trash folder stays. *)
Theorem trash_metadata_json_not_restorable :
  exists w1 win w2,
    FileExplorer.move_to_trash "/home/u/PyOS/data/userfiles/metadata.json" "T1" 100
      (world_with_file "metadata.json" "hello") = (Ok (), w1)
    /\ files w1 !! ["home"; "u"; "PyOS"; "data"; "trash"; "T1"; "metadata.json"]
       = Some (File "hello")
    /\ (trash_items w1).1 = Ok []
    /\ load_items empty_window w1 = (Ok win, w2)
    /\ items win = []
    /\ restore_selected (items win) win w2 = (Ok win, w2)
    /\ files w2 !! ["home"; "u"; "PyOS"; "data"; "userfiles"; "metadata.json"] = None
    /\ files w2 !! ["home"; "u"; "PyOS"; "data"; "trash"; "T1"] = Some Dir.
Proof.
  do 3 eexists.
  split; [vm_compute; reflexivity|].
  split; [vm_compute; reflexivity|].
  split; [vm_compute; reflexivity|].
  split; [vm_compute; reflexivity|].
  split; [reflexivity|].
  repeat split; vm_compute; reflexivity.
Qed.
End TrashProps.

(** ** Settings *)

Module SettingsProps.
Import FS Settings.

(** With [data] a directory, [load_colors_from_disk] returns a dictionary
    and leaves the file system as it was, whatever the file holds. *)
Lemma load_total_when_data_is_a_directory {J : JsonLib} (w : world) :
  wf (files w) ->
  isdir_at (files w) (locate w "data") = true ->
  exists colors, load_colors_from_disk w = (Ok colors, w).
Proof.
  intros Hwf Hdir. unfold load_colors_from_disk.
  unfold mbind at 1, io_bind. rewrite (IOProps.makedirs_existing "data" w Hwf eq_refl Hdir).
  unfold mbind at 1, io_bind, exists_.
  match goal with |- context [if ?c then _ else _] => destruct c end;
    [|eexists; reflexivity].
  unfold try_except, mbind, io_bind.
  pose proof (IOProps.preserves_read SETTINGS_FILE w) as Hr.
  unfold IOProps.preserves in Hr.
  destruct (read_text SETTINGS_FILE w) as [[txt|e] w'] eqn:E; simpl in Hr; subst w';
    [|eexists; reflexivity].
  unfold lift. destruct (json_loads txt) as [data|e]; [|eexists; reflexivity].
  destruct (get_colors data) as [saved|e]; [|eexists; reflexivity].
  destruct (merge_defaults saved) as [cs|e]; eexists; reflexivity.
Qed.

(** A saved override is merged over the defaults; saving what was loaded
    writes the five keys, after which loading gives the same colours and
    saving again changes nothing.  A file that does not parse gives the
    defaults. *)
Lemma settings_round_trip_example :
  let J := MiniJson.codec in
  let doc := json_dumps (JObj [("colors", JObj [("text", JStr "#000000")])]) in
  let merged := PyDict.set "text" (JStr "#000000") DEFAULTS in
  let w1 := world_with (Some (json_dumps (JObj [("colors", JObj merged)]))) in
  load_colors_from_disk (world_with (Some doc)) = (Ok merged, world_with (Some doc))
  /\ save_loaded (world_with (Some doc)) = (Ok true, w1)
  /\ load_colors_from_disk w1 = (Ok merged, w1)
  /\ save_loaded w1 = (Ok true, w1)
  /\ load_colors_from_disk (world_with (Some "{oops"))
     = (Ok DEFAULTS, world_with (Some "{oops"))
  /\ load_colors_from_disk (world_with None) = (Ok DEFAULTS, world_with None).
Proof.
  repeat split; vm_compute; reflexivity.
Qed.

(** C6.  [load_colors_from_disk] can raise: [os.makedirs("data",
    exist_ok=True)] runs before the [try], and it raises
    [FileExistsError] when [data] is a regular file; so does
    [save_colors_to_disk], and with it the composition. *)
Theorem settings_load_raises_when_data_is_a_file (J : JsonLib) :
  load_colors_from_disk world_data_is_file = (Raise FileExistsError, world_data_is_file)
  /\ save_colors_to_disk DEFAULTS world_data_is_file
     = (Raise FileExistsError, world_data_is_file)
  /\ save_loaded world_data_is_file = (Raise FileExistsError, world_data_is_file).
Proof.
  repeat split; vm_compute; reflexivity.
Qed.
End SettingsProps.

(** ** Calculator *)

Module CalculatorProps.
Import Calculator.

Section WithInterpreter.
Context {N : PyNum} {P : PyAst}.

(** Whatever [_eval_ast] evaluates is restricted arithmetic. *)
Lemma eval_ok_arithmetic (n : node) (v : value F C) :
  _eval_ast n = Ok v -> arithmetic n = true.
Proof.
  revert v. induction n as [c | l IHl op r IHr | op x IHx | e IHe | | | | ];
    intros v H; simpl in H; try discriminate.
  - destruct c; try discriminate; reflexivity.
  - destruct op; simpl in H; try discriminate; simpl;
      destruct (_eval_ast l) as [a|]; simpl in H; try discriminate;
      destruct (_eval_ast r) as [b|]; simpl in H; try discriminate;
      rewrite (IHl a eq_refl), (IHr b eq_refl); reflexivity.
  - destruct op; simpl in H; try discriminate; simpl;
      destruct (_eval_ast x) as [a|]; simpl in H; try discriminate;
      exact (IHx a eq_refl).
  - simpl. eapply IHe. exact H.
Qed.

Lemma eval_raises (n : node) : arithmetic n = false -> raises (_eval_ast n).
Proof.
  intros H. destruct (_eval_ast n) as [v|e] eqn:E; [|eexists; reflexivity].
  apply eval_ok_arithmetic in E. congruence.
Qed.

Lemma evaluate_error (display : string) :
  String.eqb (_normalized (Str.strip display)) "" = false ->
  raises (safe_eval (_normalized (Str.strip display))) ->
  evaluate display = "Error".
Proof.
  intros Hne [e He]. unfold evaluate. rewrite Hne, He. reflexivity.
Qed.

(** C3.  Given the trees that [ast.parse] returns for the three
    inputs: [safe_eval] of [2+2*2] is 6; [safe_eval] of [10/0] raises,
    and [evaluate] then leaves the text [Error] in the display;
    [safe_eval] of the [__import__] call raises.  In general
    [safe_eval] raises on every input that does not parse to
    restricted arithmetic (numeric constants, the seven binary and two
    unary operators): a name, a call or an attribute access anywhere
    in the tree makes it raise, and what it returns comes from such a
    tree only. *)
Theorem calculator_safe_eval :
  (ast_parse "2+2*2"
   = Ok (BinOp (Constant (CInt 2)) Add
           (BinOp (Constant (CInt 2)) Mult (Constant (CInt 2)))) ->
   safe_eval "2+2*2" = Ok (VInt 6))
  /\ (ast_parse "10/0" = Ok (BinOp (Constant (CInt 10)) Div (Constant (CInt 0))) ->
      raises (safe_eval "10/0") /\ evaluate "10/0" = "Error")
  /\ (ast_parse "__import__('os')"
      = Ok (Call (Name "__import__") [Constant (CStr "os")]) ->
      raises (safe_eval "__import__('os')"))
  /\ (forall s, (forall t, ast_parse s = Ok t -> arithmetic t = false) ->
                raises (safe_eval s))
  /\ (forall s v, safe_eval s = Ok v ->
                  exists t, ast_parse s = Ok t /\ arithmetic t = true)
  /\ (forall id, raises (_eval_ast (Name id)))
  /\ (forall f args, raises (_eval_ast (Call f args)))
  /\ (forall x attr, raises (_eval_ast (Attribute x attr)))
  /\ (forall l op r, arithmetic l = false \/ arithmetic r = false ->
                     raises (_eval_ast (BinOp l op r)))
  /\ (forall op x, arithmetic x = false -> raises (_eval_ast (UnaryOp op x))).
Proof.
  split; [|split; [|split; [|split; [|split; [|split; [|split; [|split; [|split]]]]]]]].
  - intros H. unfold safe_eval. rewrite H. reflexivity.
  - intros H.
    assert (R : raises (safe_eval "10/0")).
    { unfold safe_eval. rewrite H. eexists. reflexivity. }
    split; [exact R|]. apply evaluate_error; [reflexivity|exact R].
  - intros H. unfold safe_eval. rewrite H. eexists. reflexivity.
  - intros s H. unfold safe_eval.
    destruct (ast_parse s) as [t|e] eqn:E; [|eexists; reflexivity].
    apply eval_raises. apply H. reflexivity.
  - intros s v H. unfold safe_eval in H.
    destruct (ast_parse s) as [t|e] eqn:E; [|discriminate].
    exists t. split; [reflexivity|]. eapply eval_ok_arithmetic. exact H.
  - intros id. eexists. reflexivity.
  - intros f args. eexists. reflexivity.
  - intros x attr. eexists. reflexivity.
  - intros l op r H. apply eval_raises. simpl.
    destruct op; try reflexivity; destruct H as [-> | ->];
      rewrite ?andb_false_r; reflexivity.
  - intros op x H. apply eval_raises. simpl. destruct op; try reflexivity; exact H.
Qed.
End WithInterpreter.

Lemma calculator_safe_eval_witness :
  safe_eval (N := MiniPython.numbers) (P := MiniPython.parser) "2+2*2" = Ok (VInt 6)
  /\ raises (safe_eval (N := MiniPython.numbers) (P := MiniPython.parser) "10/0")
  /\ evaluate (N := MiniPython.numbers) (P := MiniPython.parser) "10/0" = "Error"
  /\ raises (safe_eval (N := MiniPython.numbers) (P := MiniPython.parser)
               "__import__('os')").
Proof.
  pose proof (calculator_safe_eval (N := MiniPython.numbers) (P := MiniPython.parser))
    as (H1 & H2 & H3 & _).
  split; [apply H1; vm_compute; reflexivity|].
  split; [apply H2; vm_compute; reflexivity|].
  split; [apply H2; vm_compute; reflexivity|].
  apply H3; vm_compute; reflexivity.
Defined.
End CalculatorProps.

(** ** Terminal *)

Module TerminalProps.
Import Terminal.










(** In the process of [two_terminals], [set PATH=/opt/tools] typed in
    terminal 1 makes [which lint.py] in terminal 2 find the tool, which
    it did not find before. *)
Lemma which_sees_new_path :
  (q ← _cmd_which ["lint.py"] 2 tools_world two_terminals;
   Ok (printed 2 two_terminals q)) = Ok (Some ["Not found."])
  /\ (p' ← _cmd_set ["PATH=/opt/tools"] 1 two_terminals;
      q ← _cmd_which ["lint.py"] 2 tools_world p';
      Ok (printed 2 p' q)) = Ok (Some ["/opt/tools/lint.py"]).
Proof. split; vm_compute; reflexivity. Qed.

End TerminalProps.


(** * Further properties *)

(** ** Running [io] computations *)

Module IORun.
Lemma bind_run {A B} (m : FS.io A) (f : A -> FS.io B) (w : FS.world) :
  (m ≫= f) w = match m w with
               | (Ok a, w') => f a w'
               | (Raise e, w') => (Raise e, w')
               end.
Proof. reflexivity. Qed.

Lemma try_run {A} (m : FS.io A) (h : exn -> FS.io A) (w : FS.world) :
  FS.try_except m h w = match m w with
                        | (Ok a, w') => (Ok a, w')
                        | (Raise e, w') => h e w'
                        end.
Proof. reflexivity. Qed.
End IORun.

(** ** Snake: the game as it runs *)

Module SnakeRunProps.
Import Snake SnakeControls.

Lemma removelast_subset {A} (l : list A) (x : A) : x ∈ removelast l -> x ∈ l.
Proof.
  induction l as [|a [|b r] IH]; simpl; intros H.
  - exact H.
  - inversion H.
  - apply elem_of_cons in H as [->|H]; [left|right; apply IH; exact H].
Qed.

Lemma removelast_NoDup {A} (l : list A) : NoDup l -> NoDup (removelast l).
Proof.
  induction l as [|a [|b r] IH]; simpl; intros H.
  - constructor.
  - constructor.
  - apply NoDup_cons in H as [Ha Hr]. apply NoDup_cons. split.
    + intros Hin. apply Ha. apply (removelast_subset (b :: r)). exact Hin.
    + apply IH. exact Hr.
Qed.


Lemma removelast_cons_nonempty {A} (a : A) (l : list A) :
  l <> [] -> removelast (a :: l) <> [].
Proof. destruct l; [congruence|discriminate]. Qed.

Lemma all_cells_spec (w h : Z) (p : QPoint) :
  p ∈ all_cells w h <-> 0 <= p.1 < w /\ 0 <= p.2 < h.
Proof.
  unfold all_cells. rewrite list_elem_of_bind. split.
  - intros (x & Hy & Hx). apply list_elem_of_bind in Hy as (y & Hp & Hy).
    apply list_elem_of_singleton in Hp. subst p. simpl.
    apply elem_of_seqZ in Hx. apply elem_of_seqZ in Hy. lia.
  - intros [Hx Hy]. exists p.1. split; [|apply elem_of_seqZ; lia].
    apply list_elem_of_bind. exists p.2. split; [|apply elem_of_seqZ; lia].
    destruct p. simpl. apply list_elem_of_singleton. reflexivity.
Qed.

(** What one tick does to a valid game: nothing (paused, over, or the
    move ends the game), or the head [nh] is put in front and the tail
    cell is dropped unless [nh] is the food. *)
Lemma tick_spec (rnd : nat) (st : state) :
  valid st ->
  exists st',
    _tick rnd st = Ok st'
    /\ grid_w st' = grid_w st /\ grid_h st' = grid_h st
    /\ wrap_mode st' = wrap_mode st
    /\ (dir st' = dir st
        \/ (dir st' = next_dir st /\ padd (next_dir st) (dir st) <> (0, 0)))
    /\ (score st <= high_score st ->
        score st' <= high_score st' /\ high_score st <= high_score st')
    /\ ((snake st' = snake st /\ score st' = score st)
        \/ (exists nh, (nh ∉ snake st) /\ in_grid st nh /\ nh = food st
                       /\ snake st' = nh :: snake st /\ score st' = score st + 1
                       /\ food st' = _rand_food rnd st')
        \/ (exists nh, (nh ∉ snake st) /\ in_grid st nh /\ nh <> food st
                       /\ snake st' = removelast (nh :: snake st)
                       /\ score st' = score st /\ food st' = food st)).
Proof.
  intros (Hw & Hh & Hne & Hnd & Hin). unfold _tick.
  destruct (paused st || game_over st) eqn:Hp.
  { exists st. repeat split; try lia; left; try split; reflexivity. }
  set (st1 := if bool_decide (padd (next_dir st) (dir st) ≠ (0, 0))
              then set_dir (next_dir st) st else st).
  assert (E : grid_w st1 = grid_w st /\ grid_h st1 = grid_h st
              /\ wrap_mode st1 = wrap_mode st /\ snake st1 = snake st
              /\ score st1 = score st /\ high_score st1 = high_score st
              /\ food st1 = food st
              /\ (dir st1 = dir st
                  \/ (dir st1 = next_dir st
                      /\ padd (next_dir st) (dir st) <> (0, 0)))).
  { unfold st1. case_bool_decide as Hd.
    - repeat split; try reflexivity. right. split; [reflexivity|exact Hd].
    - repeat split; try reflexivity. left. reflexivity. }
  destruct E as (Ew & Eh & Ewm & Es & Esc & Ehs & Ef & Ed).
  destruct (snake st) as [|hd tl] eqn:Hsn; [congruence|].
  assert (Hidx : py_index (snake st1) 0 = Ok hd).
  { rewrite Es. reflexivity. }
  rewrite Hidx. cbn [mbind result_bind].
  set (nx := hd.1 + (dir st1).1). set (ny := hd.2 + (dir st1).2).
  match goal with
  | |- context [mbind _ (if wrap_mode st1 then ?a else ?b)] =>
      set (mv := if wrap_mode st1 then a else b)
  end.
  assert (Hmoved : exists moved : option QPoint,
             mv = Ok moved /\ forall nh, moved = Some nh -> in_grid st nh).
  { unfold mv. destruct (wrap_mode st1).
    - unfold py_mod. rewrite Ew, Eh.
      destruct (grid_w st =? 0) eqn:E1; [lia|].
      destruct (grid_h st =? 0) eqn:E2; [lia|].
      eexists. split; [reflexivity|]. intros nh [= <-]. unfold in_grid. simpl.
      split; apply Z.mod_pos_bound; lia.
    - destruct ((0 <=? (nx, ny).1) && ((nx, ny).1 <? grid_w st1)
                && (0 <=? (nx, ny).2) && ((nx, ny).2 <? grid_h st1)) eqn:Eb; simpl.
      + eexists. split; [reflexivity|]. intros nh [= <-]. unfold in_grid. simpl in *.
        rewrite !andb_true_iff in Eb. lia.
      + eexists. split; [reflexivity|]. intros nh [=]. }
  destruct Hmoved as (moved & -> & Hgrid). cbn [mbind result_bind].
  destruct moved as [nh|].
  2:{ eexists. split; [reflexivity|]. simpl. rewrite Ew, Eh, Ewm, Es, Esc, Ehs.
      split; [reflexivity|]. split; [reflexivity|]. split; [reflexivity|].
      split; [exact Ed|]. split; [lia|]. left. split; reflexivity. }
  specialize (Hgrid nh eq_refl). unfold in_snake. rewrite Es.
  case_bool_decide as Hself.
  { eexists. split; [reflexivity|]. simpl. rewrite Ew, Eh, Ewm, Es, Esc, Ehs.
    split; [reflexivity|]. split; [reflexivity|]. split; [reflexivity|].
    split; [exact Ed|]. split; [lia|]. left. split; reflexivity. }
  case_bool_decide as Hfood.
  - eexists. split; [reflexivity|]. simpl. rewrite Ew, Eh, Ewm, Esc, Ehs.
    split; [reflexivity|]. split; [reflexivity|]. split; [reflexivity|].
    split; [exact Ed|]. split.
    + destruct (high_score st <? score st + 1) eqn:Hb; lia.
    + right. left. exists nh. rewrite <- Ef.
      split; [exact Hself|]. split; [exact Hgrid|]. split; [exact Hfood|].
      split; [reflexivity|]. split; reflexivity.
  - eexists. split; [reflexivity|]. simpl. rewrite Ew, Eh, Ewm, Esc, Ehs.
    split; [reflexivity|]. split; [reflexivity|]. split; [reflexivity|].
    split; [exact Ed|]. split; [lia|].
    right. right. exists nh. rewrite <- Ef.
    split; [exact Hself|]. split; [exact Hgrid|]. split; [exact Hfood|].
    split; [reflexivity|]. split; reflexivity.
Qed.

Lemma tick_valid (rnd : nat) (st : state) :
  valid st ->
  exists st', _tick rnd st = Ok st' /\ valid st'
              /\ grid_w st' = grid_w st /\ grid_h st' = grid_h st.
Proof.
  intros Hv. destruct (tick_spec rnd st Hv) as (st' & Ht & Ew & Eh & _ & _ & _ & Hc).
  destruct Hv as (Hw & Hh & Hne & Hnd & Hin).
  exists st'. split; [exact Ht|]. split; [|split; assumption].
  assert (Hg : forall p, in_grid st p -> in_grid st' p).
  { intros p. unfold in_grid. rewrite Ew, Eh. tauto. }
  unfold valid. rewrite Ew, Eh. split; [exact Hw|]. split; [exact Hh|].
  destruct Hc as [[Es _] | [(nh & Hn & Hg' & _ & Es & _) | (nh & Hn & Hg' & _ & Es & _)]];
    rewrite Es.
  - split; [exact Hne|]. split; [exact Hnd|].
    eapply Forall_impl; [exact Hin|exact Hg].
  - split; [discriminate|]. split; [apply NoDup_cons; split; assumption|].
    constructor; [apply Hg; exact Hg'|eapply Forall_impl; [exact Hin|exact Hg]].
  - split; [apply removelast_cons_nonempty; exact Hne|].
    split; [apply removelast_NoDup, NoDup_cons; split; assumption|].
    apply Forall_forall. intros p Hp. apply removelast_subset in Hp.
    apply Hg. apply elem_of_cons in Hp as [->|Hp]; [exact Hg'|].
    rewrite Forall_forall in Hin. apply Hin. exact Hp.
Qed.

Lemma restart_valid (rnd : nat) (st : state) :
  6 <= grid_w st -> 0 < grid_h st -> valid (_restart rnd st).
Proof.
  intros Hw Hh. unfold valid, _restart. simpl.
  split; [lia|]. split; [lia|]. split; [discriminate|].
  assert (Hd : 0 <= grid_w st / 2 - 3 /\ grid_w st / 2 < grid_w st
               /\ 0 <= grid_h st / 2 < grid_h st).
  { split; [|split].
    - assert (3 <= grid_w st / 2) by (apply Z.div_le_lower_bound; lia). lia.
    - apply Z.div_lt; lia.
    - split; [apply Z.div_pos; lia|apply Z.div_lt; lia]. }
  split.
  - change (seqZ 0 4) with [0; 1; 2; 3]. simpl.
    repeat (apply NoDup_cons; split;
            [rewrite ?elem_of_cons, elem_of_nil; intros H;
             repeat (destruct H as [H|H]); try (inversion H; lia); exact H|]).
    constructor.
  - change (seqZ 0 4) with [0; 1; 2; 3]. simpl.
    repeat (constructor; [unfold in_grid; simpl; lia|]). constructor.
Qed.

Lemma key_valid (k : key) (rnd : nat) (st : state) :
  6 <= grid_w st -> valid st -> valid (keyPressEvent k rnd st).
Proof.
  intros Hw Hv. destruct k; unfold keyPressEvent;
    try (match goal with |- context [if ?c then _ else _] => destruct c end; exact Hv).
  apply restart_valid; [exact Hw|]. destruct Hv as (_ & Hh & _). exact Hh.
Qed.

Lemma key_grid (k : key) (rnd : nat) (st : state) :
  grid_w (keyPressEvent k rnd st) = grid_w st
  /\ grid_h (keyPressEvent k rnd st) = grid_h st.
Proof.
  destruct k; simpl;
    try (match goal with |- context [if ?c then _ else _] => destruct c end);
    split; reflexivity.
Qed.

(** X1.  Whatever sequence of timer ticks and key presses (arrows, Space,
    R) a game receives, no handler raises, and the snake stays non-empty,
    on the grid and free of self-overlap; the grid keeps its size. *)
Theorem snake_run_keeps_snake_valid (events : list event) (st : state) :
  6 <= grid_w st ->
  valid st ->
  exists st', run events st = Ok st' /\ valid st'
              /\ grid_w st' = grid_w st /\ grid_h st' = grid_h st.
Proof.
  revert st. induction events as [|e rest IH]; intros st Hw Hv.
  - exists st. split; [reflexivity|]. split; [exact Hv|]. split; reflexivity.
  - assert (H1 : exists st1, handle e st = Ok st1 /\ valid st1
                             /\ grid_w st1 = grid_w st /\ grid_h st1 = grid_h st).
    { destruct e as [rnd|k rnd]; simpl.
      - apply tick_valid. exact Hv.
      - eexists. split; [reflexivity|]. split; [apply key_valid; assumption|].
        apply key_grid. }
    destruct H1 as (st1 & He & Hv1 & Ew & Eh).
    destruct (IH st1) as (st' & Hr & Hv' & Ew' & Eh'); [lia|exact Hv1|].
    exists st'. simpl. rewrite He. simpl. split; [exact Hr|].
    split; [exact Hv'|]. split; congruence.
Qed.

Lemma snake_run_keeps_snake_valid_witness :
  exists st', run [Tick 0; Key Key_Up 0; Tick 1; Key Key_R 2; Tick 3]
                (at_right_edge true) = Ok st' /\ valid st'.
Proof.
  destruct (snake_run_keeps_snake_valid
              [Tick 0; Key Key_Up 0; Tick 1; Key Key_R 2; Tick 3] (at_right_edge true))
    as (st' & Hr & Hv & _).
  - simpl. lia.
  - unfold valid. simpl. split; [lia|]. split; [lia|]. split; [discriminate|].
    split.
    + apply (bool_decide_unpack _). vm_compute. exact I.
    + repeat (constructor; [unfold in_grid; simpl; lia|]). constructor.
  - exists st'. split; assumption.
Defined.




(** X3.  [_rand_food] returns a cell of the grid that the snake does not
    occupy whenever there is one, every such cell is a possible draw,
    and on a full grid it returns (0, 0). *)
Theorem rand_food_is_a_free_cell (st : state) :
  (forall rnd c, in_grid st c -> c ∉ snake st ->
                 in_grid st (_rand_food rnd st) /\ _rand_food rnd st ∉ snake st)
  /\ (forall c, in_grid st c -> c ∉ snake st -> exists rnd, _rand_food rnd st = c)
  /\ ((forall c, in_grid st c -> c ∈ snake st) ->
      forall rnd, _rand_food rnd st = (0, 0)).
Proof.
  assert (Hfree : forall c,
             In c (List.filter (fun c => negb (in_snake c (snake st)))
                     (all_cells (grid_w st) (grid_h st)))
             <-> in_grid st c /\ c ∉ snake st).
  { intros c. rewrite filter_In, <- list_elem_of_In, all_cells_spec.
    unfold in_snake, in_grid. rewrite negb_true_iff, bool_decide_eq_false. tauto. }
  unfold _rand_food.
  set (free := List.filter (fun c => negb (in_snake c (snake st)))
                 (all_cells (grid_w st) (grid_h st))) in *.
  split; [|split].
  - intros rnd c Hg Hn.
    destruct free as [|c0 r] eqn:E.
    { exfalso. apply (proj2 (Hfree c)); split; assumption. }
    apply Hfree. apply nth_In. apply Nat.mod_upper_bound. discriminate.
  - intros c Hg Hn.
    destruct (In_nth free c c (proj2 (Hfree c) (conj Hg Hn))) as (n & Hlt & Hnth).
    exists n. destruct free as [|c0 r] eqn:E; [simpl in Hlt; lia|].
    rewrite Nat.mod_small by exact Hlt.
    rewrite <- Hnth. apply nth_indep. exact Hlt.
  - intros Hfull rnd. destruct free as [|c0 r] eqn:E; [reflexivity|].
    exfalso. destruct (proj1 (Hfree c0)) as [Hg Hn]; [left; reflexivity|].
    apply Hn, Hfull, Hg.
Qed.

Lemma arrows_keep (ks : list (key * nat)) : forall st,
  Forall (fun kr => is_arrow kr.1 = true) ks ->
  exists st', run (map (fun kr => Key kr.1 kr.2) ks) st = Ok st'
              /\ dir st' = dir st /\ snake st' = snake st
              /\ grid_w st' = grid_w st /\ grid_h st' = grid_h st.
Proof.
  induction ks as [|[k r] ks IH]; intros st H.
  - exists st. repeat split; reflexivity.
  - inversion H as [|? ? Hk Hks]; subst. simpl in Hk.
    destruct (IH (keyPressEvent k r st) Hks) as (st' & Hr & Hd & Hs & Hw & Hh).
    exists st'. split; [exact Hr|].
    rewrite Hd, Hs, Hw, Hh.
    destruct k; try discriminate; unfold keyPressEvent;
      match goal with |- context [if ?c then _ else _] => destruct c end;
      repeat split; reflexivity.
Qed.

Lemma run_app (a b : list event) (st : state) :
  run (a ++ b) st = (st' ← run a st; run b st').
Proof.
  revert st. induction a as [|e a IH]; intros st; [reflexivity|].
  simpl. destruct (handle e st) as [st1|x]; simpl; [apply IH|reflexivity].
Qed.

(** X4.  The snake never turns back on itself: whatever arrow keys are
    pressed before a tick, the direction after the tick is not the
    opposite of the direction before. *)
Theorem snake_never_reverses (ks : list (key * nat)) (rnd : nat) (st : state) :
  valid st ->
  dir st <> (0, 0) ->
  Forall (fun kr => is_arrow kr.1 = true) ks ->
  exists st',
    run (map (fun kr => Key kr.1 kr.2) ks ++ [Tick rnd]) st = Ok st'
    /\ padd (dir st') (dir st) <> (0, 0).
Proof.
  intros Hv Hd Hks.
  destruct (arrows_keep ks st Hks) as (st1 & Hr & Ed & Es & Ew & Eh).
  assert (Hv1 : valid st1).
  { destruct Hv as (H1 & H2 & H3 & H4 & H5). unfold valid.
    rewrite Ew, Eh, Es. repeat split; try assumption.
    eapply Forall_impl; [exact H5|]. intros p. unfold in_grid. rewrite Ew, Eh. tauto. }
  destruct (tick_spec rnd st1 Hv1) as (st' & Ht & _ & _ & _ & Hdir & _).
  exists st'. rewrite run_app, Hr. simpl. rewrite Ht. split; [reflexivity|].
  rewrite <- Ed. destruct Hdir as [-> | [-> Hn]]; [|exact Hn].
  rewrite Ed. destruct (dir st) as [a b]. unfold padd. simpl.
  intros [= Ha Hb]. apply Hd. f_equal; lia.
Qed.

Lemma snake_never_reverses_witness :
  exists st',
    run [Key Key_Up 0; Key Key_Left 0; Tick 0] (at_right_edge true) = Ok st'
    /\ padd (dir st') (dir (at_right_edge true)) <> (0, 0).
Proof.
  apply (snake_never_reverses [(Key_Up, 0%nat); (Key_Left, 0%nat)] 0 (at_right_edge true)).
  - unfold valid. simpl. split; [lia|]. split; [lia|]. split; [discriminate|].
    split.
    + apply (bool_decide_unpack _). vm_compute. exact I.
    + repeat (constructor; [unfold in_grid; simpl; lia|]). constructor.
  - discriminate.
  - repeat constructor.
Defined.
End SnakeRunProps.

(** ** Snake: loading the settings *)

Module SnakeSettingsProps.
Import SnakeSettings.

Lemma coerce_int_range {I : PyInt} (v : json) (d lo hi : Z) :
  lo <= hi -> lo <= d <= hi -> lo <= _coerce_int v d lo hi <= hi.
Proof.
  intros Hb Hd. unfold _coerce_int. destruct (py_int v); lia.
Qed.

Section WithEnvironment.
Context (DATA_DIR : list string) {J : JsonLib} {I : PyInt}.

Lemma read_data_returns (w : FS.world) :
  exists data, (read_data DATA_DIR w).1 = Ok data.
Proof.
  unfold read_data, FS.try_except.
  destruct ((FS.makedirs_k _ true ≫= _) w) as [[v|e] w']; eexists; reflexivity.
Qed.

Lemma load_of_data (w : FS.world) (data : json) :
  (read_data DATA_DIR w).1 = Ok data ->
  match data with
  | JObj _ => exists cfg, (load DATA_DIR w).1 = Ok cfg /\ in_range cfg
  | _ => (load DATA_DIR w).1 = Raise AttributeError
  end.
Proof.
  intros H. unfold load. rewrite IORun.bind_run.
  destruct (read_data DATA_DIR w) as [r w'] eqn:E. simpl in H. subst r.
  destruct data; try reflexivity.
  unfold FS.lift, data_get. cbn [mbind result_bind fst mret result_ret].
  eexists. split; [reflexivity|]. unfold in_range. cbn [grid_w grid_h speed_ms].
  repeat split; apply coerce_int_range; simpl; lia.
Qed.

(** X5.  [SnakeSettings.load] returns settings within the limits (grid
    6..200 by 6..200, speed 30..2000 ms) whatever the settings file
    holds, with one exception: when the file parses to a JSON value
    that is not an object, [data.get] raises [AttributeError] outside
    the [try]. *)
Theorem snake_settings_load_in_range (w : FS.world) :
  (exists cfg, (load DATA_DIR w).1 = Ok cfg /\ in_range cfg)
  \/ ((load DATA_DIR w).1 = Raise AttributeError
      /\ exists data, (read_data DATA_DIR w).1 = Ok data
                      /\ forall fields, data <> JObj fields).
Proof.
  destruct (read_data_returns w) as (data & Hd).
  pose proof (load_of_data w data Hd) as H.
  destruct data;
    try (right; split; [exact H|]; eexists; split; [exact Hd|]; discriminate).
  left. exact H.
Qed.

(** X6.  A settings file that cannot be read or parsed gives the
    defaults (24 x 18, 110 ms, wrap mode on). *)
Theorem snake_settings_defaults_on_bad_file (w : FS.world) (e : exn) :
  (txt ← FS.read_text_k (SETTINGS_FILE DATA_DIR);
   FS.lift (json_loads txt)) w = (Raise e, w) ->
  FS.wf (FS.files w) ->
  FS.isdir_at (FS.files w) DATA_DIR = true ->
  load DATA_DIR w = (Ok base, w).
Proof.
  intros Hread Hwf Hdir. unfold load. rewrite IORun.bind_run.
  unfold read_data, FS.try_except. rewrite IORun.bind_run.
  unfold SETTINGS_FILE at 1. rewrite FSProps.parent_snoc.
  rewrite (FSProps.makedirs_k_existing w DATA_DIR Hwf Hdir).
  rewrite Hread. reflexivity.
Qed.
End WithEnvironment.

Lemma snake_settings_defaults_on_bad_file_witness :
  load (J := MiniJson.codec) (I := MiniInt.numerals) ["home"; "u"; "PyOS"; "data"]
    (world_with "{oops")
  = (Ok base, world_with "{oops").
Proof.
  apply (snake_settings_defaults_on_bad_file (J := MiniJson.codec)
           (I := MiniInt.numerals) _ _ JSONDecodeError).
  - vm_compute. reflexivity.
  - unfold FS.wf. apply (bool_decide_unpack _). vm_compute. exact I.
  - reflexivity.
Defined.

(** Out-of-range and mistyped entries are clamped or replaced by the
    defaults; a document that is a list makes [load] raise. *)
Lemma snake_settings_examples :
  let J := MiniJson.codec in
  let I := MiniInt.numerals in
  let dir := ["home"; "u"; "PyOS"; "data"] in
  (load dir (world_with
               (json_dumps (JObj [("grid_w", JNum 1000); ("grid_h", JStr " 3 ");
                                  ("speed_ms", JStr "fast");
                                  ("wrap_mode", JStr " Off ");
                                  ("show_grid", JNum 0)])))).1
  = Ok {| grid_w := 200; grid_h := 6; speed_ms := 110; wrap_mode := false;
          show_grid := true; hud_at_bottom := true |}
  /\ (load dir (world_with "[1, 2]")).1 = Raise AttributeError.
Proof. split; vm_compute; reflexivity. Qed.
End SnakeSettingsProps.

(** ** Calendar: adding and deleting events *)

Section SortedInput.
Context {A K : Type} (key : A -> K) (leb : K -> K -> bool).

(** Sorting a list that is already in order returns it. *)
Lemma sort_by_sorted_id (l : list A) :
  StronglySorted (fun a b => leb (key a) (key b) = true) l ->
  sort_by key leb l = l.
Proof.
  induction 1 as [|x r Hr IH Hx]; [reflexivity|].
  simpl. rewrite IH. destruct r as [|y r']; [reflexivity|].
  simpl. inversion Hx as [|? ? Hxy _]; subst. rewrite Hxy. reflexivity.
Qed.
End SortedInput.

Module CalendarEditProps.
Import Calendar CalendarEdit.

Section WithInt.
Context {I : PyInt}.

Lemma mark_dates_ok (l : list (string * list event)) : forall acc,
  Forall (fun kv : string * list event =>
            kv.2 <> [] ->
            exists y m d, parse_date kv.1 = Ok (y, m, d)
                          /\ QDate y m d = Ok (y, m, d)) l ->
  (mark_dates l acc).1 = Ok ().
Proof.
  induction l as [|[k items] rest IH]; intros acc H; [reflexivity|].
  inversion H as [|? ? Hk Hrest]; subst. simpl.
  destruct items as [|e items]; [apply IH; exact Hrest|].
  destruct Hk as (y & m & d & Hp & Hq); [discriminate|].
  simpl in Hp. rewrite Hp. simpl. rewrite Hq. apply IH. exact Hrest.
Qed.

Lemma refresh_marks_ok (a : app) :
  keys_parse (db (view a)) ->
  exists ms, _refresh_marks a
             = (Ok (), {| view := view a; saved := saved a; marked := ms |}).
Proof.
  intros H. unfold _refresh_marks.
  pose proof (mark_dates_ok (map_to_list (db (view a))) []) as Hm.
  destruct (mark_dates (map_to_list (db (view a))) []) as [r ms].
  simpl in Hm. rewrite Hm; [eexists; reflexivity|].
  apply Forall_forall. intros [k items] Hin Hne. simpl in *.
  apply elem_of_map_to_list in Hin. exact (H k items Hin Hne).
Qed.

Lemma keys_parse_delete_at (key : string) (idx : nat)
    (d : gmap string (list event)) :
  keys_parse d -> keys_parse (delete_at key idx d).
Proof.
  intros H. unfold delete_at.
  destruct (d !! key) as [items|] eqn:E; [|exact H].
  case_bool_decide as Hlt; [|exact H].
  destruct (delete idx items) as [|e r] eqn:Ed.
  - intros k its Hk Hne. apply lookup_delete_Some in Hk as [_ Hk].
    exact (H k its Hk Hne).
  - intros k its Hk Hne. destruct (decide (k = key)) as [->|Hneq].
    + apply (H key items E). intros ->. destruct idx; discriminate.
    + rewrite lookup_insert_ne in Hk by congruence. exact (H k its Hk Hne).
Qed.

Lemma shows_after_change (v : state) : shows_selected_day (_on_date_changed v).
Proof. unfold shows_selected_day. rewrite CalendarProps.shown_events. reflexivity. Qed.

Lemma agenda_shown (v : state) :
  agenda (_on_date_changed v)
  = map render (sort_by time_key String.leb (default [] (db v !! selected_date v))).
Proof.
  unfold agenda, _on_date_changed. rewrite CalendarProps.refilter_text.
  unfold _fill_list. simpl. rewrite map_map. reflexivity.
Qed.

Lemma shown_length (v : state) (stored : list event) :
  shows_selected_day v ->
  default [] (db v !! selected_date v) = stored ->
  length (list_ v) = length stored.
Proof.
  intros Hs Hd. rewrite <- (length_map it_data), Hs, Hd.
  apply Permutation_length, sort_by_perm.
Qed.

(** What [_delete_selected] does once the question is answered Yes. *)
Lemma delete_selected_yes (a : app) (i : nat) (stored : list event) :
  shows_selected_day (view a) ->
  keys_parse (db (view a)) ->
  db (view a) !! selected_date (view a) = Some stored ->
  (i < length stored)%nat ->
  exists ms,
    let d' := delete_at (selected_date (view a)) i (db (view a)) in
    _delete_selected (Some i) true a
    = (Ok (),
       {| view := _on_date_changed
                    {| db := d'; selected_date := selected_date (view a);
                       search := search (view a); list_ := list_ (view a) |};
          saved := saved a ++ [d']; marked := ms |}).
Proof.
  intros Hs Hk Hd Hi.
  assert (Hlen : length (list_ (view a)) = length stored).
  { apply shown_length; [exact Hs|]. rewrite Hd. reflexivity. }
  destruct (lookup_lt_is_Some_2 (list_ (view a)) i) as [it Hit]; [lia|].
  unfold _delete_selected, mbind, act_bind, get_view, _current_item.
  rewrite Hit. unfold set_db, _save_db. cbn [view saved marked db].
  set (a1 := {| view := _ ; saved := _; marked := _ |}).
  destruct (refresh_marks_ok a1) as (ms & Hr).
  { unfold a1. simpl. apply keys_parse_delete_at. exact Hk. }
  rewrite Hr. exists ms. reflexivity.
Qed.

(** X7.  Deleting the current row with Yes removes from the stored
    list of the selected day the event at the row's index (and the
    day's key with it when the list becomes empty), saves the
    document and shows the day again.  The row indexes the sorted
    list, so the event removed is the selected one when the day's
    events are stored in ascending time order; stored out of order,
    another event can go (see [delete_hits_other_event_example]).
    Answering No changes nothing. *)
Theorem calendar_delete_removes_stored_row
    (a : app) (i : nat) (stored : list event) :
  shows_selected_day (view a) ->
  keys_parse (db (view a)) ->
  db (view a) !! selected_date (view a) = Some stored ->
  (i < length stored)%nat ->
  _delete_selected (Some i) false a = (Ok (), a)
  /\ exists a',
       _delete_selected (Some i) true a = (Ok (), a')
       /\ default [] (db (view a') !! selected_date (view a')) = delete i stored
       /\ (delete i stored = [] -> db (view a') !! selected_date (view a') = None)
       /\ (forall k, k <> selected_date (view a) ->
                     db (view a') !! k = db (view a) !! k)
       /\ saved a' = saved a ++ [db (view a')]
       /\ agenda (view a')
          = map render (sort_by time_key String.leb (delete i stored))
       /\ (StronglySorted by_time stored ->
           it_data <$> (list_ (view a) !! i) = stored !! i).
Proof.
  intros Hs Hk Hd Hi. split.
  { assert (Hlen : length (list_ (view a)) = length stored).
    { apply shown_length; [exact Hs|]. rewrite Hd. reflexivity. }
    destruct (lookup_lt_is_Some_2 (list_ (view a)) i) as [it Hit]; [lia|].
    unfold _delete_selected, mbind, act_bind, get_view, _current_item.
    rewrite Hit. reflexivity. }
  destruct (delete_selected_yes a i stored Hs Hk Hd Hi) as (ms & Hdel).
  eexists. split; [exact Hdel|]. cbn [view saved marked].
  set (key := selected_date (view a)) in *.
  set (d' := delete_at key i (db (view a))).
  assert (Hd' : default [] (d' !! key) = delete i stored
                /\ (delete i stored = [] -> d' !! key = None)
                /\ forall k, k <> key -> d' !! k = db (view a) !! k).
  { unfold d', delete_at. rewrite Hd. rewrite bool_decide_eq_true_2 by exact Hi.
    destruct (delete i stored) as [|e r] eqn:E.
    - rewrite lookup_delete_eq. split; [reflexivity|]. split; [reflexivity|].
      intros k Hne. apply lookup_delete_ne. congruence.
    - rewrite lookup_insert_eq. split; [reflexivity|]. split; [discriminate|].
      intros k Hne. apply lookup_insert_ne. congruence. }
  destruct Hd' as (H1 & H2 & H3).
  assert (Ev : forall v, db (_on_date_changed v) = db v
                         /\ selected_date (_on_date_changed v) = selected_date v).
  { intros v. split; reflexivity. }
  rewrite (proj1 (Ev _)), (proj2 (Ev _)). cbn [db selected_date].
  split; [exact H1|]. split; [exact H2|]. split; [exact H3|].
  split; [reflexivity|]. split.
  - rewrite agenda_shown. cbn [db selected_date]. rewrite H1. reflexivity.
  - intros Hsorted. rewrite <- list_lookup_fmap.
    change (it_data <$> list_ (view a)) with (map it_data (list_ (view a))).
    rewrite Hs. fold key. rewrite Hd. cbn [default].
    change (id stored) with stored.
    rewrite (sort_by_sorted_id time_key String.leb stored Hsorted). reflexivity.
Qed.

Lemma keys_parse_insert (key : string) (items : list event)
    (d : gmap string (list event)) (y m dd : Z) :
  keys_parse d ->
  parse_date key = Ok (y, m, dd) -> QDate y m dd = Ok (y, m, dd) ->
  keys_parse (<[key := items]> d).
Proof.
  intros H Hp Hq k its Hk Hne. destruct (decide (k = key)) as [->|Hneq].
  - exists y, m, dd. split; assumption.
  - rewrite lookup_insert_ne in Hk by congruence. exact (H k its Hk Hne).
Qed.

Lemma sorted_snoc (stored : list event) (ev : event) :
  StronglySorted by_time stored ->
  Forall (fun e => by_time e ev) stored ->
  StronglySorted by_time (stored ++ [ev]).
Proof.
  induction 1 as [|x r Hr IH Hx]; intros Hall.
  - simpl. constructor; constructor.
  - inversion Hall as [|? ? Hxe Hre]; subst. simpl. constructor.
    + apply IH. exact Hre.
    + apply Forall_app. split; [exact Hx|]. constructor; [exact Hxe|constructor].
Qed.

(** X8.  An event added to a day whose events are stored in ascending
    time order, with a time not before any of them, is shown in the
    last row; deleting that row gives back the stored document. *)
Theorem calendar_add_then_delete_round_trip
    (a : app) (stored : list event) (title when notes uid : string)
    (y m dd : Z) :
  keys_parse (db (view a)) ->
  parse_date (selected_date (view a)) = Ok (y, m, dd) ->
  QDate y m dd = Ok (y, m, dd) ->
  ((db (view a) !! selected_date (view a) = Some stored /\ stored <> [])
   \/ (db (view a) !! selected_date (view a) = None /\ stored = [])) ->
  StronglySorted by_time stored ->
  Forall (fun e => String.leb (time_key e) when = true) stored ->
  exists a1 a2 ev,
    _add_event true title when notes uid a = (Ok (), a1)
    /\ db (view a1) !! selected_date (view a) = Some (stored ++ [ev])
    /\ ev !! "id" = Some uid /\ ev !! "time" = Some when
    /\ it_data <$> (list_ (view a1) !! length stored) = Some ev
    /\ _delete_selected (Some (length stored)) true a1 = (Ok (), a2)
    /\ db (view a2) = db (view a).
Proof.
  intros Hk Hp Hq Hst Hsorted Hle.
  set (key := selected_date (view a)) in *.
  set (ev := record uid (if String.eqb title "" then "(Untitled)" else title)
               when notes).
  assert (Hdef : default [] (db (view a) !! key) = stored).
  { destruct Hst as [[-> _] | [-> ->]]; reflexivity. }
  set (d1 := <[key := stored ++ [ev]]> (db (view a))).
  assert (Hk1 : keys_parse d1).
  { unfold d1. eapply keys_parse_insert; eassumption. }
  set (a0 := {| view := {| db := d1; selected_date := key;
                           search := search (view a); list_ := list_ (view a) |};
                saved := saved a ++ [d1]; marked := marked a |}).
  destruct (refresh_marks_ok a0 Hk1) as (ms & Hr).
  set (a1 := {| view := _on_date_changed (view a0); saved := saved a0;
                marked := ms |}).
  assert (Hadd : _add_event true title when notes uid a = (Ok (), a1)).
  { unfold _add_event, mbind, act_bind, get_view, set_db, _save_db.
    cbn [view saved marked db]. fold key. rewrite Hdef. fold ev. fold d1.
    fold a0. rewrite Hr. reflexivity. }
  assert (Htk : time_key ev = when).
  { unfold time_key, ev, record. vm_compute. reflexivity. }
  assert (Hs1 : StronglySorted by_time (stored ++ [ev])).
  { apply sorted_snoc; [exact Hsorted|].
    eapply Forall_impl; [exact Hle|]. intros e He. unfold by_time.
    rewrite Htk. exact He. }
  assert (Hd1 : db (view a1) !! selected_date (view a1) = Some (stored ++ [ev])).
  { change (d1 !! key = Some (stored ++ [ev])). unfold d1. apply lookup_insert_eq. }
  assert (Hshow : shows_selected_day (view a1)) by apply shows_after_change.
  assert (Hlt : (length stored < length (stored ++ [ev]))%nat).
  { rewrite length_app. simpl. lia. }
  destruct (delete_selected_yes a1 (length stored) (stored ++ [ev]) Hshow Hk1 Hd1 Hlt)
    as (ms2 & Hdel).
  eexists a1, _, ev. split; [exact Hadd|]. split; [exact Hd1|].
  split; [unfold ev, record; vm_compute; reflexivity|].
  split.
  { unfold ev, record. vm_compute. reflexivity. }
  split.
  { rewrite <- list_lookup_fmap.
    change (it_data <$> list_ (view a1)) with (map it_data (list_ (view a1))).
    rewrite Hshow, Hd1. cbn [default]. change (id (stored ++ [ev])) with (stored ++ [ev]).
    rewrite (sort_by_sorted_id time_key String.leb _ Hs1).
    rewrite lookup_app_r by lia. rewrite Nat.sub_diag. reflexivity. }
  split; [exact Hdel|].
  cbn [view]. change (db (_on_date_changed ?v)) with (db v). cbn [db].
  change (selected_date (view a1)) with key. change (db (view a1)) with d1.
  unfold delete_at, d1. rewrite lookup_insert_eq.
  rewrite bool_decide_eq_true_2 by exact Hlt.
  assert (Hdl : delete (length stored) (stored ++ [ev]) = stored).
  { clear. induction stored as [|x r IH]; [reflexivity|]. simpl. f_equal. exact IH. }
  rewrite Hdl. destruct Hst as [[Hl Hne] | [Hl ->]].
  - destruct stored as [|x r]; [congruence|].
    rewrite insert_insert_eq. apply insert_id. exact Hl.
  - rewrite delete_insert_eq. apply delete_id. exact Hl.
Qed.
End WithInt.

#[local] Existing Instance MiniInt.numerals.

Lemma day_keys_parse (events : list event) : keys_parse (db (day events)).
Proof.
  intros k items Hk _. unfold day in Hk. cbn [db] in Hk.
  apply lookup_singleton_Some in Hk as [<- _].
  exists 2025, 1, 1. split; vm_compute; reflexivity.
Qed.

Lemma calendar_delete_removes_stored_row_witness :
  exists a',
    _delete_selected (Some 0%nat) true
      (open_day [mk_event "A" "09:00"; mk_event "B" "10:00"]) = (Ok (), a')
    /\ agenda (view a') = ["10:00  -  B"].
Proof.
  destruct (calendar_delete_removes_stored_row
              (open_day [mk_event "A" "09:00"; mk_event "B" "10:00"]) 0
              [mk_event "A" "09:00"; mk_event "B" "10:00"])
    as (_ & a' & Hd & _ & _ & _ & _ & Hag & _).
  - vm_compute. reflexivity.
  - apply day_keys_parse.
  - vm_compute. reflexivity.
  - simpl. lia.
  - exists a'. split; [exact Hd|]. rewrite Hag. vm_compute. reflexivity.
Defined.

(** With the day stored as 10:00 A, 09:00 B the agenda shows B first;
    deleting the first row removes A and leaves B. *)
Lemma delete_hits_other_event_example :
  let a := open_day [mk_event "A" "10:00"; mk_event "B" "09:00"] in
  agenda (view a) = ["09:00  -  B"; "10:00  -  A"]
  /\ exists a', _delete_selected (Some 0%nat) true a = (Ok (), a')
                /\ agenda (view a') = ["09:00  -  B"].
Proof.
  split; [vm_compute; reflexivity|].
  eexists. split; vm_compute; reflexivity.
Qed.

Lemma calendar_add_then_delete_round_trip_witness :
  exists a1 a2,
    _add_event true "C" "11:00" "" "id-3"
      (open_day [mk_event "A" "09:00"; mk_event "B" "10:00"]) = (Ok (), a1)
    /\ _delete_selected (Some 2%nat) true a1 = (Ok (), a2)
    /\ db (view a2) = db (day [mk_event "A" "09:00"; mk_event "B" "10:00"]).
Proof.
  destruct (calendar_add_then_delete_round_trip
              (open_day [mk_event "A" "09:00"; mk_event "B" "10:00"])
              [mk_event "A" "09:00"; mk_event "B" "10:00"] "C" "11:00" "" "id-3"
              2025 1 1)
    as (a1 & a2 & ev & Ha & _ & _ & _ & _ & Hd & Hdb).
  - apply day_keys_parse.
  - vm_compute. reflexivity.
  - vm_compute. reflexivity.
  - left. split; [vm_compute; reflexivity|discriminate].
  - repeat constructor.
  - repeat constructor.
  - exists a1, a2. split; [exact Ha|]. split; [exact Hd|exact Hdb].
Defined.
End CalendarEditProps.

(** ** File Explorer: the window never leaves the sandbox *)

Module ExplorerProps.
Import FileExplorer ExplorerSession.

(** *** Operations that keep the working directory *)











(** *** Operations that keep the place shown *)














(** *** Navigation *)



Lemma py_take_length {A} (n : Z) (l : list A) :
  (length (py_take n l) <= length l)%nat.
Proof.
  unfold py_take. destruct (n <? 0); rewrite length_take; lia.
Qed.












(** *** Back and forward *)



End ExplorerProps.

(** ** The sandbox test, by path components *)

Module RootProps.
Import Path FileExplorer.

Lemma clean_Forall_no_sep (cs : list string) :
  Forall (fun c => clean c = true) cs -> Forall (fun c => no_sep c = true) cs.
Proof. intros H. eapply Forall_impl; [exact H|]. apply PathProps.clean_no_sep. Qed.

Lemma components_slash (s : string) :
  components (String sep s) = components s.
Proof. reflexivity. Qed.

Lemma components_join (cs : list string) :
  Forall (fun c => clean c = true) cs -> components (Str.join "/" cs) = cs.
Proof.
  intros H. destruct cs as [|c cs]; [reflexivity|]. unfold components.
  rewrite PathProps.split_join; [|discriminate|apply clean_Forall_no_sep; exact H].
  apply PathProps.components_of_clean. exact H.
Qed.

Lemma components_rooted (two : bool) (cs : list string) :
  Forall (fun c => clean c = true) cs ->
  components ((if two then "//" else "/") +:+ Str.join "/" cs) = cs.
Proof.
  intros H. destruct two.
  - change ("//" +:+ Str.join "/" cs) with (String sep (String sep (Str.join "/" cs))).
    rewrite !components_slash. apply components_join. exact H.
  - change ("/" +:+ Str.join "/" cs) with (String sep (Str.join "/" cs)).
    rewrite components_slash. apply components_join. exact H.
Qed.

Lemma endswith_char_app (x y : string) :
  y <> "" -> Str.endswith_char sep (x +:+ y) = Str.endswith_char sep y.
Proof.
  intros Hy. induction x as [|c x IH]; [reflexivity|].
  change (String c x +:+ y) with (String c (x +:+ y)).
  cbn [Str.endswith_char]. destruct (x +:+ y) eqn:E.
  - destruct x; [simpl in E; congruence|discriminate].
  - exact IH.
Qed.

Lemma endswith_no_sep (c : string) :
  no_sep c = true -> Str.endswith_char sep c = false.
Proof.
  induction c as [|a c IH]; [reflexivity|]. intros H.
  cbn [no_sep] in H. apply andb_true_iff in H as [Ha Hc].
  cbn [Str.endswith_char]. destruct c as [|b c].
  - apply negb_true_iff in Ha. rewrite Ascii.eqb_sym. exact Ha.
  - apply IH. exact Hc.
Qed.

Lemma join_snoc (cs : list string) (d : string) :
  cs <> [] -> Str.join "/" (cs ++ [d]) = Str.join "/" cs +:+ "/" +:+ d.
Proof.
  induction cs as [|c cs IH]; [congruence|]. intros _.
  destruct cs as [|c' cs]; [reflexivity|].
  change (Str.join "/" ((c :: c' :: cs) ++ [d]))
    with (c +:+ "/" +:+ Str.join "/" ((c' :: cs) ++ [d])).
  rewrite IH by discriminate.
  change (Str.join "/" (c :: c' :: cs)) with (c +:+ "/" +:+ Str.join "/" (c' :: cs)).
  rewrite !PathProps.append_assoc. reflexivity.
Qed.

Lemma endswith_join (cs : list string) :
  cs <> [] -> Forall (fun c => clean c = true) cs ->
  Str.endswith_char sep ("/" +:+ Str.join "/" cs) = false.
Proof.
  intros Hne H. destruct cs as [|c cs] using rev_ind; [congruence|]. clear IHcs.
  apply Forall_app in H as [_ Hc]. inversion Hc as [|? ? Hcl _]; subst.
  destruct (PathProps.clean_tests c Hcl) as (Hnz & _).
  assert (c <> "") by (intros ->; discriminate).
  destruct cs as [|c0 cs].
  - simpl Str.join. rewrite endswith_char_app by assumption.
    apply endswith_no_sep, PathProps.clean_no_sep, Hcl.
  - rewrite join_snoc by discriminate.
    rewrite <- !PathProps.append_assoc. rewrite endswith_char_app by assumption.
    apply endswith_no_sep, PathProps.clean_no_sep, Hcl.
Qed.

(** The resolved sandbox root has the components of the working
    directory followed by [data] and [userfiles]. *)
Lemma root_resolved (cwd : list string) :
  Forall (fun c => clean c = true) cwd ->
  Path.abspath (of_components cwd) ROOT_DIR
  = of_components (cwd ++ ["data"; "userfiles"]).
Proof.
  intros H. unfold Path.abspath.
  change (isabs ROOT_DIR) with false. cbv iota.
  assert (Hj : join (of_components cwd) ROOT_DIR
               = of_components (cwd ++ ["data"; "userfiles"])).
  { unfold join. change (Str.startswith "/" ROOT_DIR) with false. cbv iota.
    unfold of_components. destruct cwd as [|c cs].
    - reflexivity.
    - change (String.eqb ("/" +:+ Str.join "/" (c :: cs)) "") with false.
      unfold Str.endswith. rewrite endswith_join by (discriminate || exact H).
      cbn [orb]. change ROOT_DIR with ("data" +:+ "/" +:+ "userfiles").
      replace ((c :: cs) ++ ["data"; "userfiles"])
        with (((c :: cs) ++ ["data"]) ++ ["userfiles"])
        by (rewrite <- app_assoc; reflexivity).
      rewrite join_snoc by (destruct cs; discriminate).
      rewrite join_snoc by discriminate.
      rewrite !PathProps.append_assoc. reflexivity. }
  rewrite Hj. unfold of_components.
  apply (PathProps.normpath_of_components false).
  apply Forall_app. split; [exact H|]. repeat constructor.
Qed.

Lemma common_prefix_is_prefix (a b : list string) :
  common_prefix a b = a <-> a `prefix_of` b.
Proof.
  revert b. induction a as [|x a IH]; intros b.
  - split; [intros _; apply prefix_nil|reflexivity].
  - destruct b as [|y b].
    + split; [discriminate|]. intros [k Hk]. discriminate.
    + cbn [common_prefix]. destruct (String.eqb_spec x y) as [->|Hne].
      * split.
        -- intros [= H]. apply prefix_cons, IH, H.
        -- intros Hp. f_equal. apply IH. eapply prefix_cons_inv_2. exact Hp.
      * split; [discriminate|]. intros Hp. apply prefix_cons_inv_1 in Hp. congruence.
Qed.

Lemma common_prefix_clean (a b : list string) :
  Forall (fun c => clean c = true) a ->
  Forall (fun c => clean c = true) (common_prefix a b).
Proof.
  revert b. induction a as [|x a IH]; intros b H; [constructor|].
  destruct b as [|y b]; [constructor|]. cbn [common_prefix].
  inversion H; subst. destruct (String.eqb x y); constructor; auto.
Qed.

Lemma rooted_inj (a b : list string) :
  Forall (fun c => clean c = true) a -> Forall (fun c => clean c = true) b ->
  "/" +:+ Str.join "/" a = "/" +:+ Str.join "/" b -> a = b.
Proof.
  intros Ha Hb H.
  rewrite <- (components_rooted false a Ha), <- (components_rooted false b Hb).
  cbv iota. rewrite H. reflexivity.
Qed.

(** X11.  [within_root] (and the Recycle Bin's [safe_within_root])
    compares whole path components: a path is inside the sandbox
    exactly when the components of the resolved root (the working
    directory, then [data], then [userfiles]) are the leading components
    of the resolved path.  A sibling such as [data/userfiles2] is
    outside, and [..] segments are resolved before the comparison. *)
Theorem within_root_iff_components (w : FS.world) (p : string) :
  Forall (fun c => clean c = true) (FS.cwd w) ->
  within_root p w
  = (Ok (bool_decide ((FS.cwd w ++ ["data"; "userfiles"])
                        `prefix_of` components (Path.abspath (FS.getcwd w) p))), w)
  /\ RecycleBin.safe_within_root p w = within_root p w.
Proof.
  intros Hc. split; [|reflexivity].
  rewrite SandboxProps.within_root_eq. f_equal. f_equal.
  set (rc := FS.cwd w ++ ["data"; "userfiles"]).
  assert (Hrc : Forall (fun c => clean c = true) rc).
  { apply Forall_app. split; [exact Hc|]. repeat constructor. }
  assert (Hroot : Path.abspath (FS.getcwd w) ROOT_DIR = of_components rc).
  { apply root_resolved. exact Hc. }
  assert (Habs : isabs (Path.abspath (FS.getcwd w) p) = true).
  { apply PathProps.abspath_isabs, PathProps.of_components_isabs. }
  set (pc := components (Path.abspath (FS.getcwd w) p)).
  unfold resolves_inside. rewrite Hroot.
  rewrite PathProps.commonpath_absolute
    by (try apply PathProps.of_components_isabs; exact Habs).
  fold pc.
  assert (Hcr : components (of_components rc) = rc).
  { apply (components_rooted false rc Hrc). }
  rewrite Hcr.
  match goal with |- context [String.eqb ?a ?b] =>
    destruct (String.eqb_spec a b) as [He|Hne] end.
  - symmetry. apply bool_decide_eq_true. apply common_prefix_is_prefix.
    apply rooted_inj; [apply common_prefix_clean; exact Hrc|exact Hrc|exact He].
  - symmetry. apply bool_decide_eq_false. intros Hp.
    apply common_prefix_is_prefix in Hp. apply Hne. rewrite Hp. reflexivity.
Qed.

Lemma within_root_iff_components_witness :
  within_root "data/userfiles2/x" example_world = (Ok false, example_world)
  /\ within_root "data/userfiles/a/../b" example_world = (Ok true, example_world)
  /\ within_root "data/userfiles/../trash" example_world = (Ok false, example_world).
Proof.
  assert (H : Forall (fun c => clean c = true) (FS.cwd example_world))
    by (repeat constructor).
  split; [|split].
  - rewrite (proj1 (within_root_iff_components example_world _ H)).
    vm_compute. reflexivity.
  - rewrite (proj1 (within_root_iff_components example_world _ H)).
    vm_compute. reflexivity.
  - rewrite (proj1 (within_root_iff_components example_world _ H)).
    vm_compute. reflexivity.
Defined.
End RootProps.

(** ** Recycle Bin: the list *)

Module RecycleBinListProps.
Import RecycleBin RecycleBinList.









Section WithJson.
Context {J : JsonLib}.


End WithJson.

#[local] Existing Instance MiniJson.codec.

End RecycleBinListProps.

(** ** Python dictionaries *)

Module PyDictProps.
Import PyDict.

Section Dict.
Context {V : Type}.

Lemma get_set_eq (k : string) (v : V) (d : list (string * V)) :
  get k (set k v d) = Some v.
Proof.
  induction d as [|[k' v'] r IH]; simpl.
  - rewrite String.eqb_refl. reflexivity.
  - destruct (String.eqb k k') eqn:E; simpl; rewrite ?String.eqb_refl, ?E; auto.
Qed.

Lemma get_set_ne (k k' : string) (v : V) (d : list (string * V)) :
  k <> k' -> get k (set k' v d) = get k d.
Proof.
  intros Hne. induction d as [|[k2 v2] r IH]; simpl.
  - destruct (String.eqb_spec k k'); [congruence|reflexivity].
  - destruct (String.eqb_spec k' k2) as [->|H2]; simpl.
    + destruct (String.eqb_spec k k2); [congruence|reflexivity].
    + destruct (String.eqb_spec k k2); [reflexivity|exact IH].
Qed.

Lemma get_none_not_key (k : string) (d : list (string * V)) :
  k ∉ map fst d -> get k d = None.
Proof.
  induction d as [|[k' v'] r IH]; simpl; [reflexivity|]. intros H.
  destruct (String.eqb_spec k k') as [->|Hne].
  - exfalso. apply H. left.
  - apply IH. intros Hin. apply H. right. exact Hin.
Qed.

(** [{**a, **b}[k]] is [b[k]] when [b] has the key and [a[k]]
    otherwise. *)
Lemma get_merge (k : string) (b : list (string * V)) : forall a,
  NoDup (map fst b) ->
  get k (merge a b) = match get k b with Some v => Some v | None => get k a end.
Proof.
  unfold merge. induction b as [|[k' v'] r IH]; intros a Hnd; [reflexivity|].
  simpl in Hnd. apply NoDup_cons in Hnd as [Hk' Hr].
  cbn [fold_left fst snd]. rewrite (IH _ Hr). cbn [get].
  destruct (String.eqb_spec k k') as [->|Hne].
  - rewrite (get_none_not_key _ _ Hk'). apply get_set_eq.
  - rewrite (get_set_ne _ _ _ _ Hne). reflexivity.
Qed.

(** A key of [a] is a key of [{**a, **b}], whatever [b] holds. *)
Lemma merge_keeps_keys (k : string) (b : list (string * V)) : forall a,
  is_Some (get k a) -> is_Some (get k (merge a b)).
Proof.
  unfold merge. induction b as [|[k' v'] r IH]; intros a H; [exact H|].
  cbn [fold_left fst snd]. apply IH.
  destruct (String.eqb_spec k k') as [->|Hne].
  - rewrite get_set_eq. eauto.
  - rewrite get_set_ne by exact Hne. exact H.
Qed.
End Dict.
End PyDictProps.

(** ** Settings: what [load_colors_from_disk] returns *)

Module SettingsLoadProps.
Import FS Settings.

Section WithJson.
Context {J : JsonLib}.

Lemma load_shape (w : world) :
  wf (files w) -> isdir_at (files w) (locate w "data") = true ->
  exists colors,
    load_colors_from_disk w = (Ok colors, w)
    /\ (colors = DEFAULTS
        \/ exists saved : list (string * json), colors = PyDict.merge DEFAULTS saved).
Proof.
  intros Hwf Hdir. unfold load_colors_from_disk.
  rewrite IORun.bind_run, (IOProps.makedirs_existing "data" w Hwf eq_refl Hdir).
  rewrite IORun.bind_run. unfold exists_ at 1.
  match goal with |- context [if ?c then _ else _] => destruct c end;
    [|eexists; split; [reflexivity|left; reflexivity]].
  rewrite IORun.try_run, IORun.bind_run.
  pose proof (IOProps.preserves_read SETTINGS_FILE w) as Hr.
  unfold IOProps.preserves in Hr.
  destruct (read_text SETTINGS_FILE w) as [[txt|e] w'] eqn:E; simpl in Hr; subst w';
    [|eexists; split; [reflexivity|left; reflexivity]].
  rewrite IORun.bind_run. unfold lift at 1.
  destruct (json_loads txt) as [data|e] eqn:El;
    [|eexists; split; [reflexivity|left; reflexivity]].
  rewrite IORun.bind_run. unfold lift at 1.
  destruct (get_colors data) as [saved|e] eqn:Eg;
    [|eexists; split; [reflexivity|left; reflexivity]].
  unfold lift, merge_defaults.
  destruct saved; try (eexists; split; [reflexivity|left; reflexivity]).
  eexists. split; [reflexivity|]. right. eexists. reflexivity.
Qed.

Lemma read_exists (p txt : string) (w : world) :
  read_text p w = (Ok txt, w) -> exists_ p w = (Ok true, w).
Proof.
  unfold read_text, exists_. destruct (String.eqb p ""); [discriminate|].
  destruct (isdir_at (files w) (locate w p)); [discriminate|].
  unfold exists_at. destruct (locate w p) as [|x l]; [reflexivity|].
  destruct (files w !! (x :: l)) as [[d|]|] eqn:El; try discriminate.
  intros _. cbn [negb andb]. rewrite bool_decide_eq_true_2 by eauto. reflexivity.
Qed.

Lemma load_run_saved (w : world) (txt : string) (data saved : list (string * json)) :
  wf (files w) -> isdir_at (files w) (locate w "data") = true ->
  read_text SETTINGS_FILE w = (Ok txt, w) ->
  json_loads txt = Ok (JObj data) ->
  PyDict.get "colors" data = Some (JObj saved) ->
  load_colors_from_disk w = (Ok (PyDict.merge DEFAULTS saved), w).
Proof.
  intros Hwf Hdir Hr Hj Hg. unfold load_colors_from_disk.
  rewrite IORun.bind_run, (IOProps.makedirs_existing "data" w Hwf eq_refl Hdir).
  rewrite IORun.bind_run, (read_exists _ _ _ Hr).
  rewrite IORun.try_run, IORun.bind_run, Hr, IORun.bind_run. unfold lift at 1.
  rewrite Hj, IORun.bind_run. unfold lift at 1. cbn [get_colors]. rewrite Hg.
  reflexivity.
Qed.

(** X13.  With [data] a directory, [load_colors_from_disk] always
    returns a dictionary that has the five colour keys, so a lookup
    of one of them never fails; and when the file parses to an object
    whose [colors] entry is an object, each key of the result is the
    saved value if there is one and the default otherwise.  The file
    system is left as it was. *)
Theorem settings_load_merges_saved_over_defaults (w : world) :
  wf (files w) ->
  isdir_at (files w) (locate w "data") = true ->
  exists colors,
    load_colors_from_disk w = (Ok colors, w)
    /\ (forall k, k ∈ ["text"; "desktop_bg"; "taskbar_bg"; "start_bg"; "window_bg"] ->
                  is_Some (PyDict.get k colors))
    /\ (forall txt data saved,
          read_text SETTINGS_FILE w = (Ok txt, w) ->
          json_loads txt = Ok (JObj data) ->
          PyDict.get "colors" data = Some (JObj saved) ->
          NoDup (map fst saved) ->
          forall k, PyDict.get k colors
                    = match PyDict.get k saved with
                      | Some v => Some v
                      | None => PyDict.get k DEFAULTS
                      end).
Proof.
  intros Hwf Hdir.
  assert (Hdef : forall k,
             k ∈ ["text"; "desktop_bg"; "taskbar_bg"; "start_bg"; "window_bg"] ->
             is_Some (PyDict.get k DEFAULTS)).
  { intros k Hk. rewrite !elem_of_cons, elem_of_nil in Hk.
    destruct Hk as [->|[->|[->|[->|[->|[]]]]]]; eexists; reflexivity. }
  assert (Hex : exists colors,
             load_colors_from_disk w = (Ok colors, w)
             /\ forall k,
                  k ∈ ["text"; "desktop_bg"; "taskbar_bg"; "start_bg"; "window_bg"] ->
                  is_Some (PyDict.get k colors)).
  { destruct (load_shape w Hwf Hdir) as (colors & Hl & [-> | [saved ->]]).
    - exists DEFAULTS. split; [exact Hl|exact Hdef].
    - eexists. split; [exact Hl|]. intros k Hk.
      apply PyDictProps.merge_keeps_keys, Hdef, Hk. }
  destruct Hex as (colors & Hl & Hkeys). exists colors.
  split; [exact Hl|]. split; [exact Hkeys|].
  intros txt data saved Hr Hj Hg Hnd k.
  rewrite (load_run_saved w txt data saved Hwf Hdir Hr Hj Hg) in Hl.
  injection Hl as <-. apply PyDictProps.get_merge. exact Hnd.
Qed.
End WithJson.

Lemma settings_load_merges_saved_over_defaults_witness :
  let J := MiniJson.codec in
  let w := world_with (Some (json_dumps
                               (JObj [("colors", JObj [("text", JStr "#000000")])]))) in
  exists colors,
    load_colors_from_disk w = (Ok colors, w)
    /\ PyDict.get "text" colors = Some (JStr "#000000")
    /\ PyDict.get "window_bg" colors = Some (JStr "#2E2E2E").
Proof.
  intros J w. subst J w.
  destruct (settings_load_merges_saved_over_defaults (J := MiniJson.codec)
              (world_with (Some (json_dumps (JsonLib := MiniJson.codec)
                 (JObj [("colors", JObj [("text", JStr "#000000")])])))))
    as (colors & Hl & _ & Hm).
  - unfold wf. apply (bool_decide_unpack _). vm_compute. exact I.
  - vm_compute. reflexivity.
  - exists colors. split; [exact Hl|].
    assert (H : forall k, PyDict.get k colors
                          = match PyDict.get k [("text", JStr "#000000")] with
                            | Some v => Some v
                            | None => PyDict.get k DEFAULTS
                            end).
    { eapply Hm.
      - vm_compute. reflexivity.
      - vm_compute. reflexivity.
      - reflexivity.
      - repeat constructor. intros H. inversion H. }
    split; rewrite H; reflexivity.
Defined.
End SettingsLoadProps.

(** ** Security Manager: the toggles across sessions *)

Module SecurityRestartProps.
Import Security.

Lemma toggle_keys_nodup : NoDup (map (fun t : string * option string * string => t.1.1) TOGGLES).
Proof. apply (bool_decide_unpack _). vm_compute. exact I. Qed.

Section WithEnvironment.
Context (BASE_DIR : list string) {J : JsonLib}.

Lemma init_boxes (d : list (string * json)) (k : string) :
  k ∈ map (fun t : string * option string * string => t.1.1) TOGGLES ->
  (list_to_map
     (map (fun t : string * option string * string =>
             (t.1.1,
              {| checked := truthy (default (JBool true) (PyDict.get t.1.1 d));
                 signals_blocked := false |}))
          TOGGLES) : gmap string checkbox) !! k
  = Some {| checked := truthy (default (JBool true) (PyDict.get k d));
            signals_blocked := false |}.
Proof.
  intros Hk. apply elem_of_list_to_map_1.
  - rewrite <- list_fmap_compose. exact toggle_keys_nodup.
  - apply list_elem_of_fmap in Hk as (t & -> & Ht).
    apply list_elem_of_fmap. exists t. split; [reflexivity|exact Ht].
Qed.

(** X14.  A toggle survives a restart: after [_on_toggle] has stored
    the state of a box, a panel opened on the resulting files loads
    exactly the stored state, shows the box of [key] as it was left,
    and shows every other box according to the state held before the
    toggle (checked when the state has no entry for it). *)
Theorem security_toggle_survives_restart
    (key : string) (a : app) (cb : checkbox) (w : FS.world) :
  boxes a !! key = Some cb ->
  key ∈ map (fun t : string * option string * string => t.1.1) TOGGLES ->
  FS.wf (FS.files w) ->
  FS.isdir_at (FS.files w) (DATA_DIR BASE_DIR) = true ->
  FS.isdir_at (FS.files w) (SEC_FILE BASE_DIR) = false ->
  json_loads (json_dumps (JObj (PyDict.set key (JBool (checked cb)) (state a))))
  = Ok (JObj (PyDict.set key (JBool (checked cb)) (state a))) ->
  exists a' w' a2,
    _on_toggle BASE_DIR key a w = (Ok a', w')
    /\ init BASE_DIR w' = (Ok a2, w')
    /\ state a2 = state a'
    /\ checked <$> (boxes a2 !! key) = Some (checked cb)
    /\ forall k,
         k ∈ map (fun t : string * option string * string => t.1.1) TOGGLES ->
         k <> key ->
         checked <$> (boxes a2 !! k)
         = Some (truthy (default (JBool true) (PyDict.get k (state a)))).
Proof.
  intros Hb Hk Hwf Hdata Hsec Hrt.
  set (st := PyDict.set key (JBool (checked cb)) (state a)) in *.
  destruct (SecurityProps.save_state_persists BASE_DIR st w Hwf Hdata Hsec)
    as (w' & Hsave & Hper).
  unfold persisted in Hper.
  assert (Hread : FS.read_text_k (SEC_FILE BASE_DIR) w'
                  = (Ok (json_dumps (JObj st)), w')).
  { revert Hper. unfold FS.read_text_k.
    destruct (FS.isdir_at (FS.files w') (SEC_FILE BASE_DIR));
      [intros H; cbn in H; discriminate H|].
    destruct (FS.files w' !! SEC_FILE BASE_DIR) as [[|]|];
      intros H; cbn in H; congruence. }
  assert (Hex : FS.exists_k (SEC_FILE BASE_DIR) w' = (Ok true, w')).
  { revert Hread. unfold FS.read_text_k, FS.exists_k, FS.exists_at.
    destruct (FS.isdir_at (FS.files w') (SEC_FILE BASE_DIR)); [discriminate|].
    destruct (SEC_FILE BASE_DIR) as [|x l] eqn:E; [reflexivity|].
    destruct (FS.files w' !! (x :: l)) as [[|]|]; try discriminate.
    intros _. rewrite bool_decide_eq_true_2 by eauto. reflexivity. }
  eexists _, w', _. split.
  { unfold _on_toggle. rewrite Hb, IORun.bind_run. fold st. rewrite Hsave.
    reflexivity. }
  split.
  { unfold init, _load_state. rewrite IORun.bind_run, IORun.try_run, IORun.bind_run.
    rewrite Hex, IORun.bind_run, Hread. unfold FS.lift. rewrite Hrt. reflexivity. }
  cbn [state boxes]. split; [reflexivity|]. split.
  - rewrite (init_boxes st key Hk). cbn [fmap option_fmap option_map checked].
    unfold st. rewrite PyDictProps.get_set_eq. simpl. destruct (checked cb); reflexivity.
  - intros k Hkk Hne. rewrite (init_boxes st k Hkk).
    cbn [fmap option_fmap option_map checked]. unfold st.
    rewrite PyDictProps.get_set_ne by exact Hne. reflexivity.
Qed.
End WithEnvironment.

#[local] Existing Instance MiniJson.codec.

Lemma security_toggle_survives_restart_witness :
  exists a' w' a2,
    _on_toggle example_base "fw_enable" all_on (example_world "{}") = (Ok a', w')
    /\ init example_base w' = (Ok a2, w')
    /\ checked <$> (boxes a2 !! "fw_enable") = Some true
    /\ checked <$> (boxes a2 !! "rt_cloud") = Some true.
Proof.
  destruct (security_toggle_survives_restart example_base "fw_enable" all_on
              {| checked := true; signals_blocked := false |} (example_world "{}"))
    as (a' & w' & a2 & H1 & H2 & _ & H4 & H5).
  - vm_compute. reflexivity.
  - apply (bool_decide_unpack _). vm_compute. exact I.
  - unfold FS.wf. apply (bool_decide_unpack _). vm_compute. exact I.
  - vm_compute. reflexivity.
  - vm_compute. reflexivity.
  - vm_compute. reflexivity.
  - exists a', w', a2. split; [exact H1|]. split; [exact H2|]. split; [exact H4|].
    apply H5; [apply (bool_decide_unpack _); vm_compute; exact I|discriminate].
Defined.
End SecurityRestartProps.

(** ** Terminal: the history keys *)

Module TerminalPromptProps.
Import TerminalPrompt.

Lemma index_in_range {A} (l : list A) (i : Z) :
  0 <= i < Z.of_nat (length l) ->
  exists a, l !! Z.to_nat i = Some a /\ py_index l i = Ok a.
Proof.
  intros H. destruct (lookup_lt_is_Some_2 l (Z.to_nat i)) as [a Ha]; [lia|].
  exists a. split; [exact Ha|]. rewrite <- (Z2Nat.id i) at 1 by lia.
  apply py_index_lookup. exact Ha.
Qed.

Lemma prev_spec (p : prompt) :
  history p <> [] -> index_ok p ->
  let i := if hist_index p <? 0 then Z.of_nat (length (history p)) - 1
           else Z.max 0 (hist_index p - 1) in
  exists text, history p !! Z.to_nat i = Some text
               /\ _hist_prev p = Ok {| history := history p; hist_index := i;
                                       inp := text |}.
Proof.
  intros Hne Hi i. unfold index_ok in Hi.
  assert (Hlen : 0 < Z.of_nat (length (history p))).
  { destruct (history p); [congruence|simpl; lia]. }
  destruct (index_in_range (history p) i) as (text & Hl & Hp).
  { unfold i. destruct (hist_index p <? 0) eqn:E; lia. }
  exists text. split; [exact Hl|]. unfold _hist_prev.
  unfold i in *. clear i.
  destruct (history p) eqn:Eh; [congruence|]. rewrite <- Eh in *.
  cbn [mbind result_bind]. rewrite Hp. reflexivity.
Qed.

Lemma next_spec (p : prompt) :
  history p <> [] -> index_ok p ->
  (Z.of_nat (length (history p)) - 1 <= hist_index p
   /\ _hist_next p = Ok {| history := history p; hist_index := -1; inp := "" |})
  \/ (hist_index p < Z.of_nat (length (history p)) - 1
      /\ exists text,
           history p !! Z.to_nat (hist_index p + 1) = Some text
           /\ _hist_next p = Ok {| history := history p;
                                   hist_index := hist_index p + 1; inp := text |}).
Proof.
  intros Hne Hi. unfold index_ok in Hi. unfold _hist_next.
  destruct (history p) eqn:Eh; [congruence|]. rewrite <- Eh in *.
  destruct (Z.leb_spec (Z.of_nat (length (history p)) - 1) (hist_index p)) as [H|H].
  - left. split; [exact H|reflexivity].
  - right. split; [exact H|].
    replace (Z.min (Z.of_nat (length (history p)) - 1) (hist_index p + 1))
      with (hist_index p + 1) by lia.
    destruct (index_in_range (history p) (hist_index p + 1)) as (text & Hl & Hp); [lia|].
    exists text. split; [exact Hl|]. rewrite Hp. reflexivity.
Qed.

Lemma press_ok (k : key) (p : prompt) :
  index_ok p -> exists p', press k p = Ok p' /\ index_ok p'.
Proof.
  intros Hi. destruct k as [| |typed]; cbn [press].
  - destruct (history p) eqn:Eh.
    + exists p. unfold _hist_prev. rewrite Eh. split; [reflexivity|exact Hi].
    + destruct (prev_spec p) as (text & _ & Hp); [congruence|exact Hi|].
      eexists. split; [exact Hp|]. unfold index_ok in *. cbn [history hist_index].
      destruct (hist_index p <? 0) eqn:E; rewrite Eh in *; simpl length in *; lia.
  - destruct (history p) eqn:Eh.
    + exists p. unfold _hist_next. rewrite Eh. split; [reflexivity|exact Hi].
    + destruct (next_spec p) as [[_ Hn] | (Hlt & text & _ & Hn)];
        [congruence|exact Hi| |]; (eexists; split; [exact Hn|]);
        unfold index_ok in *; cbn [history hist_index];
        rewrite Eh in *; simpl length in *; lia.
  - eexists. split; [reflexivity|]. unfold enter, index_ok in *.
    cbn [inp history hist_index].
    destruct (negb (String.eqb (Str.strip typed) "")); cbn [history hist_index].
    + rewrite length_app. simpl. lia.
    + exact Hi.
Qed.

(** X15.  The history keys never fail: from a prompt whose index is -1
    or points into the history, any sequence of Up, Down and Enter
    (with any text typed) returns, and the index is again -1 or points
    into the history. *)
Theorem terminal_history_keys_never_fail (ks : list key) (p : prompt) :
  index_ok p ->
  exists p', presses ks p = Ok p' /\ index_ok p'.
Proof.
  revert p. induction ks as [|k ks IH]; intros p Hi.
  - exists p. split; [reflexivity|exact Hi].
  - destruct (press_ok k p Hi) as (p1 & H1 & Hi1).
    destruct (IH p1 Hi1) as (p' & Hr & Hi').
    exists p'. simpl. rewrite H1. split; [exact Hr|exact Hi'].
Qed.

Lemma terminal_history_keys_never_fail_witness :
  exists p', presses [Enter "dir"; Up; Up; Down; Down; Enter "  "; Up] fresh = Ok p'
             /\ index_ok p'.
Proof.
  apply (terminal_history_keys_never_fail _ fresh).
  unfold index_ok. simpl. lia.
Defined.

Lemma up_from (p : prompt) (i : nat) :
  hist_index p = Z.of_nat i -> (i < length (history p))%nat ->
  exists text,
    history p !! (i - 1)%nat = Some text
    /\ _hist_prev p = Ok {| history := history p; hist_index := Z.of_nat (i - 1);
                            inp := text |}.
Proof.
  intros Hi Hlt. destruct (prev_spec p) as (text & Hl & Hp).
  { intros E. rewrite E in Hlt. simpl in Hlt. lia. }
  { unfold index_ok. lia. }
  rewrite Hi in Hl, Hp. destruct (Z.ltb_spec (Z.of_nat i) 0); [lia|].
  replace (Z.max 0 (Z.of_nat i - 1)) with (Z.of_nat (i - 1)) in Hl, Hp by lia.
  rewrite Nat2Z.id in Hl. exists text. split; assumption.
Qed.

Lemma ups_from (n : nat) : forall (p : prompt) (i : nat),
  hist_index p = Z.of_nat i -> (i < length (history p))%nat ->
  exists text,
    history p !! (i - S n)%nat = Some text
    /\ presses (replicate (S n) Up) p
       = Ok {| history := history p; hist_index := Z.of_nat (i - S n); inp := text |}.
Proof.
  induction n as [|n IH]; intros p i Hi Hlt;
    destruct (up_from p i Hi Hlt) as (text & Hl & Hp).
  - exists text. split; [exact Hl|]. cbn [replicate presses press]. rewrite Hp.
    reflexivity.
  - set (p1 := {| history := history p; hist_index := Z.of_nat (i - 1); inp := text |}).
    destruct (IH p1 (i - 1)%nat) as (t2 & Hl2 & Hr2); [reflexivity|simpl; lia|].
    cbn [history] in Hl2, Hr2.
    replace (i - 1 - S n)%nat with (i - S (S n))%nat in Hl2, Hr2 by lia.
    exists t2. split; [exact Hl2|].
    change (replicate (S (S n)) Up) with (Up :: replicate (S n) Up).
    cbn [presses press]. rewrite Hp. cbn [mbind result_bind]. fold p1. exact Hr2.
Qed.

(** X16.  Pressing Up [n] times (at least once) at a prompt that is not
    browsing shows the [n]-th most recent command, and the oldest one
    once [n] exceeds the number of commands.  Down at the newest
    command clears the input; Down pressed while not browsing shows the
    oldest command. *)
Theorem terminal_up_walks_back (n : nat) (p : prompt) :
  history p <> [] ->
  hist_index p = -1 ->
  exists text,
    history p !! (length (history p) - S n)%nat = Some text
    /\ presses (replicate (S n) Up) p
       = Ok {| history := history p;
               hist_index := Z.of_nat (length (history p) - S n); inp := text |}
    /\ (n = 0%nat ->
        presses (replicate (S n) Up ++ [Down]) p
        = Ok {| history := history p; hist_index := -1; inp := "" |})
    /\ exists oldest,
         history p !! 0%nat = Some oldest
         /\ _hist_next p = Ok {| history := history p; hist_index := 0; inp := oldest |}.
Proof.
  intros Hne Hi.
  assert (Hlen : (0 < length (history p))%nat).
  { destruct (history p); [congruence|simpl; lia]. }
  destruct (prev_spec p Hne) as (t1 & Hl1 & Hp1); [unfold index_ok; lia|].
  rewrite Hi in Hl1, Hp1. cbn [Z.ltb Z.compare] in Hl1, Hp1.
  replace (Z.of_nat (length (history p)) - 1)
    with (Z.of_nat (length (history p) - 1)) in Hl1, Hp1 by lia.
  rewrite Nat2Z.id in Hl1.
  set (p1 := {| history := history p;
                hist_index := Z.of_nat (length (history p) - 1); inp := t1 |}) in *.
  assert (Hups : exists text,
             history p !! (length (history p) - S n)%nat = Some text
             /\ presses (replicate (S n) Up) p
                = Ok {| history := history p;
                        hist_index := Z.of_nat (length (history p) - S n);
                        inp := text |}).
  { destruct n as [|n].
    - exists t1. split; [exact Hl1|]. cbn [replicate presses press]. rewrite Hp1.
      reflexivity.
    - destruct (ups_from n p1 (length (history p) - 1)%nat) as (t2 & Hl2 & Hr2);
        [reflexivity|simpl; lia|].
      cbn [history] in Hl2, Hr2.
      replace (length (history p) - 1 - S n)%nat
        with (length (history p) - S (S n))%nat in Hl2, Hr2 by lia.
      exists t2. split; [exact Hl2|].
      change (replicate (S (S n)) Up) with (Up :: replicate (S n) Up).
      cbn [presses press]. rewrite Hp1. cbn [mbind result_bind]. exact Hr2. }
  destruct Hups as (text & Hl & Hr). exists text.
  split; [exact Hl|]. split; [exact Hr|]. split.
  - intros ->. cbn [replicate app presses press]. rewrite Hp1.
    cbn [mbind result_bind]. fold p1.
    destruct (next_spec p1) as [[_ Hn] | [Hlt _]].
    + exact Hne.
    + unfold index_ok. simpl. lia.
    + rewrite Hn. reflexivity.
    + simpl in Hlt. lia.
  - destruct (next_spec p Hne) as [[Hge _] | (_ & oldest & Ho & Hn)].
    + unfold index_ok. lia.
    + lia.
    + rewrite Hi in Ho, Hn. exists oldest. split; [exact Ho|exact Hn].
Qed.

Lemma terminal_up_walks_back_witness :
  presses [Up; Up]
    {| history := ["dir"; "cd data"; "type a.txt"]; hist_index := -1; inp := "" |}
  = Ok {| history := ["dir"; "cd data"; "type a.txt"]; hist_index := 1;
          inp := "cd data" |}.
Proof.
  destruct (terminal_up_walks_back 1
              {| history := ["dir"; "cd data"; "type a.txt"]; hist_index := -1;
                 inp := "" |})
    as (text & Hl & Hr & _).
  - discriminate.
  - reflexivity.
  - simpl in Hl. injection Hl as <-. exact Hr.
Defined.
End TerminalPromptProps.

(** ** Terminal: the working directory and the project root *)

Module TerminalFilesProps.
Import Terminal TerminalFiles.

Section WithRoot.
Context (root : list string).

Lemma clamp_under_root (k : list string) : root `prefix_of` clamp_to_root root k.
Proof. unfold clamp_to_root. case_bool_decide; [assumption|reflexivity]. Qed.

Lemma println_keeps (tid : nat) (s : string) (p : process) (t : term) :
  terms p !! tid = Some t ->
  exists p', _println tid s p = Ok p'
             /\ environ p' = environ p
             /\ terms p' !! tid
                = Some {| cwd := cwd t; history := history t; out := out t ++ [s] |}
             /\ printed tid p p' = Some [s].
Proof.
  intros Ht. unfold _println. rewrite Ht. eexists. split; [reflexivity|].
  split; [reflexivity|]. cbn [terms]. rewrite lookup_insert_eq.
  split; [reflexivity|]. unfold printed. cbn [terms]. rewrite Ht, lookup_insert_eq.
  cbn [out]. rewrite drop_app_length. reflexivity.
Qed.

(** X17.  [cd] never takes a terminal out of the project root: after
    [cd] with any arguments the working directory is the root or
    below it and an existing directory unless it was left unchanged.
    A target that resolves outside the root is replaced by the root
    itself, without a message, when the root exists. *)
Theorem terminal_cd_stays_under_root
    (args : list string) (tid : nat) (w : FS.world) (p : process) (t : term) :
  terms p !! tid = Some t ->
  root `prefix_of` cwd t ->
  exists p' t',
    _cmd_cd root args tid w p = Ok p'
    /\ terms p' !! tid = Some t'
    /\ root `prefix_of` cwd t'
    /\ environ p' = environ p
    /\ (cwd t' = cwd t \/ FS.isdir_at (FS.files w) (cwd t') = true)
    /\ (forall tgt rest,
          args = tgt :: rest -> tgt <> "~" ->
          ~ root `prefix_of` resolve (cwd t) tgt ->
          FS.isdir_at (FS.files w) root = true ->
          cwd t' = root /\ out t' = out t).
Proof.
  intros Ht Hr. unfold _cmd_cd. rewrite Ht.
  destruct args as [|tgt rest].
  { destruct (println_keeps tid ("/" +:+ Str.join "/" (cwd t)) p t Ht)
      as (p' & Hp & He & Htt & _).
    eexists p', _. split; [exact Hp|]. split; [exact Htt|]. cbn [cwd].
    split; [exact Hr|]. split; [exact He|]. split; [left; reflexivity|].
    intros ? ? [=]. }
  set (newp := if String.eqb tgt "~" then clamp_to_root root root
               else clamp_to_root root (resolve (cwd t) tgt)).
  assert (Hn : root `prefix_of` newp).
  { unfold newp. destruct (String.eqb tgt "~"); apply clamp_under_root. }
  destruct (FS.isdir_at (FS.files w) newp) eqn:Ed.
  - unfold set_cwd. rewrite Ht. eexists _, _. split; [reflexivity|]. cbn [terms environ].
    rewrite lookup_insert_eq. split; [reflexivity|]. cbn [cwd out].
    split; [exact Hn|]. split; [reflexivity|]. split; [right; exact Ed|].
    intros tgt' rest' [= <- <-] Hne Hout _. split; [|reflexivity].
    unfold newp. destruct (String.eqb_spec tgt "~"); [congruence|].
    unfold clamp_to_root. rewrite bool_decide_eq_false_2 by exact Hout. reflexivity.
  - destruct (println_keeps tid "The system cannot find the path specified." p t Ht)
      as (p' & Hp & He & Htt & _).
    eexists p', _. split; [exact Hp|]. split; [exact Htt|]. cbn [cwd].
    split; [exact Hr|]. split; [exact He|]. split; [left; reflexivity|].
    intros tgt' rest' [= <- <-] Hne Hout Hroot. exfalso.
    unfold newp in Ed. destruct (String.eqb_spec tgt "~"); [congruence|].
    unfold clamp_to_root in Ed. rewrite bool_decide_eq_false_2 in Ed by exact Hout.
    congruence.
Qed.

(** X18.  [type] shows nothing from outside the project root: the one
    line it prints is the usage text, a failure message, or the
    content of a file that lies in the root directory tree. *)
Theorem terminal_type_reads_only_under_root
    (text_of : exn -> string) (args : list string) (tid : nat) (w : FS.world)
    (p : process) (t : term) :
  terms p !! tid = Some t ->
  exists p' line,
    _cmd_type root text_of args tid w p = Ok p'
    /\ printed tid p p' = Some [line]
    /\ environ p' = environ p
    /\ (line = "Usage: type <file>"
        \/ (exists e, line = "type failed: " +:+ text_of e)
        \/ (exists k, root `prefix_of` k /\ FS.files w !! k = Some (FS.File line))).
Proof.
  intros Ht. unfold _cmd_type. rewrite Ht.
  destruct args as [|name rest].
  { destruct (println_keeps tid "Usage: type <file>" p t Ht) as (p' & Hp & He & _ & Hpr).
    exists p', "Usage: type <file>". split; [exact Hp|]. split; [exact Hpr|].
    split; [exact He|]. left. reflexivity. }
  set (k := clamp_to_root root (resolve (cwd t) name)).
  destruct ((FS.read_text_k k w).1) as [text|e] eqn:E.
  - destruct (println_keeps tid text p t Ht) as (p' & Hp & He & _ & Hpr).
    exists p', text. split; [exact Hp|]. split; [exact Hpr|]. split; [exact He|].
    right. right. exists k. split; [apply clamp_under_root|].
    revert E. unfold FS.read_text_k.
    destruct (FS.isdir_at (FS.files w) k); [intros H; cbn in H; discriminate H|].
    destruct (FS.files w !! k) as [[d|]|]; intros H; cbn in H; congruence.
  - destruct (println_keeps tid ("type failed: " +:+ text_of e) p t Ht)
      as (p' & Hp & He & _ & Hpr).
    exists p', ("type failed: " +:+ text_of e). split; [exact Hp|].
    split; [exact Hpr|]. split; [exact He|]. right. left. exists e. reflexivity.
Qed.
End WithRoot.

Lemma terminal_cd_stays_under_root_witness :
  exists p' t',
    _cmd_cd ["home"; "u"; "PyOS"] ["../../../opt/tools"] 1 tools_world two_terminals
    = Ok p'
    /\ terms p' !! 1%nat = Some t'
    /\ cwd t' = ["home"; "u"; "PyOS"].
Proof.
  destruct (terminal_cd_stays_under_root ["home"; "u"; "PyOS"] ["../../../opt/tools"]
              1 tools_world two_terminals fresh_term)
    as (p' & t' & Hc & Ht & _ & _ & _ & Hout).
  - reflexivity.
  - reflexivity.
  - exists p', t'. split; [exact Hc|]. split; [exact Ht|].
    apply (Hout "../../../opt/tools" []).
    + reflexivity.
    + discriminate.
    + apply (bool_decide_unpack _). vm_compute. exact I.
    + vm_compute. reflexivity.
Defined.

Lemma terminal_type_reads_only_under_root_witness :
  exists p',
    _cmd_type ["home"; "u"; "PyOS"] (fun _ => "error") ["/opt/tools/lint.py"] 1
      tools_world two_terminals = Ok p'
    /\ printed 1 two_terminals p' = Some ["type failed: error"].
Proof.
  destruct (terminal_type_reads_only_under_root ["home"; "u"; "PyOS"]
              (fun _ => "error") ["/opt/tools/lint.py"] 1 tools_world two_terminals
              fresh_term)
    as (p' & line & Hc & Hp & _ & _).
  - reflexivity.
  - exists p'. split; [exact Hc|].
    assert (E : _cmd_type ["home"; "u"; "PyOS"] (fun _ => "error")
                  ["/opt/tools/lint.py"] 1 tools_world two_terminals
                = _println 1 "type failed: error" two_terminals)
      by (vm_compute; reflexivity).
    rewrite E in Hc. vm_compute in Hc. injection Hc as <-. vm_compute. reflexivity.
Defined.
End TerminalFilesProps.

(** ** Calculator: integer arithmetic is exact *)

Module CalculatorIntProps.
Import Calculator CalculatorInts.

Section WithInterpreter.
Context {N : PyNum} {P : PyAst}.


End WithInterpreter.

End CalculatorIntProps.

(** ** Tetris: the game stays playable *)

Module TetrisPlayProps.
Import Tetris TetrisMoves.

Lemma ok_bind {A B} (a : A) (f : A -> result B) : (Ok a ≫= f) = f a.
Proof. reflexivity. Qed.

(** *** Shapes *)

Lemma shape_cells (sh : shape) (rot : Z) :
  0 <= rot < 4 ->
  exists l, SHAPES sh !! Z.to_nat rot = Some l
            /\ py_index (SHAPES sh) rot = Ok l
            /\ length l = 4%nat
            /\ Forall (fun c : Z * Z => 0 <= c.1 < 4 /\ 0 <= c.2 < 4) l.
Proof.
  intros H.
  assert (Hr : rot = 0 \/ rot = 1 \/ rot = 2 \/ rot = 3) by lia.
  destruct Hr as [ -> | [ -> | [ -> | -> ] ] ]; destruct sh; eexists;
    (split; [reflexivity|]); (split; [reflexivity|]); (split; [reflexivity|]);
    repeat constructor; simpl; lia.
Qed.

Lemma spawn_cells (sh : shape) :
  exists l, SHAPES sh !! 0%nat = Some l
            /\ Forall (fun c : Z * Z => 0 <= c.1 < 4 /\ 0 <= c.2 < 3) l.
Proof.
  destruct sh; eexists; (split; [reflexivity|]); repeat constructor; simpl; lia.
Qed.

Lemma cells_run (sh : shape) (rot x y : Z) :
  0 <= rot < 4 ->
  _cells sh rot x y
  = Ok (cells_of {| p_shape := sh; p_rot := rot; p_x := x; p_y := y |}).
Proof.
  intros H. destruct (shape_cells sh rot H) as (l & Hl & Hp & _).
  unfold _cells, cells_of. cbn [p_shape p_rot p_x p_y]. rewrite Hp, Hl. reflexivity.
Qed.

(** *** Collisions *)

Lemma index_row (st : state) (cy : Z) :
  board_shaped st -> 0 <= cy < BH st ->
  exists row, board st !! Z.to_nat cy = Some row
              /\ py_index (board st) cy = Ok row
              /\ length row = Z.to_nat (BW st).
Proof.
  intros [Hl Hr] Hc.
  destruct (lookup_lt_is_Some_2 (board st) (Z.to_nat cy)) as [row Hrow]; [lia|].
  exists row. split; [exact Hrow|]. split.
  - rewrite <- (Z2Nat.id cy) at 1 by lia. apply py_index_lookup. exact Hrow.
  - rewrite Forall_forall in Hr. apply Hr. eapply list_elem_of_lookup_2. exact Hrow.
Qed.

Lemma index_cell (row : list (option string)) (cx w : Z) :
  length row = Z.to_nat w -> 0 <= cx < w ->
  exists c, row !! Z.to_nat cx = Some c /\ py_index row cx = Ok c.
Proof.
  intros Hl Hc.
  destruct (lookup_lt_is_Some_2 row (Z.to_nat cx)) as [c Hcell]; [lia|].
  exists c. split; [exact Hcell|].
  rewrite <- (Z2Nat.id cx) at 1 by lia. apply py_index_lookup. exact Hcell.
Qed.

Lemma collides_cells_spec (st : state) (cells : list (Z * Z)) :
  board_shaped st ->
  exists b, collides_cells st cells = Ok b /\ (b = false <-> Forall (free st) cells).
Proof.
  intros Hs. induction cells as [|[cx cy] rest IH].
  - exists false. split; [reflexivity|]. split; [constructor|reflexivity].
  - cbn [collides_cells].
    destruct ((cx <? 0) || (BW st <=? cx) || (cy <? 0) || (BH st <=? cy)) eqn:Eb.
    + exists true. split; [reflexivity|]. split; [discriminate|].
      intros H. inversion H as [|? ? Hf _]; subst. destruct Hf as (H1 & H2 & _).
      simpl in H1, H2. rewrite !orb_true_iff in Eb.
      rewrite !Z.ltb_lt, !Z.leb_le in Eb. lia.
    + rewrite !orb_false_iff in Eb. rewrite !Z.ltb_ge, !Z.leb_gt in Eb.
      destruct Eb as (((E1 & E2) & E3) & E4).
      destruct (index_row st cy Hs) as (row & Hrow & Hpr & Hlen); [lia|].
      destruct (index_cell row cx (BW st) Hlen) as (c & Hcell & Hpc); [lia|].
      rewrite Hpr, ok_bind, Hpc, ok_bind.
      destruct c as [col|].
      * exists true. split; [reflexivity|]. split; [discriminate|].
        intros H. inversion H as [|? ? Hf _]; subst.
        destruct Hf as (_ & _ & row' & Hr' & Hc'). cbn [fst snd] in Hr', Hc'.
        rewrite Hrow in Hr'. injection Hr' as <-.
        pose proof (eq_trans (eq_sym Hcell) Hc') as X. discriminate X.
      * destruct IH as (b & Hb & Hiff). exists b. split; [exact Hb|].
        rewrite Hiff. split.
        -- intros H. constructor; [|exact H]. split; [simpl; lia|].
           split; [simpl; lia|]. exists row. split; assumption.
        -- intros H. inversion H; assumption.
Qed.

Lemma collides_spec (st : state) (sh : shape) (rot x y : Z) :
  board_shaped st -> 0 <= rot < 4 ->
  exists b, _collides st sh rot x y = Ok b
            /\ (b = false
                <-> Forall (free st)
                      (cells_of {| p_shape := sh; p_rot := rot; p_x := x; p_y := y |})).
Proof.
  intros Hs Hr. unfold _collides. rewrite (cells_run sh rot x y Hr), ok_bind.
  apply collides_cells_spec. exact Hs.
Qed.

(** [free] looks at the board and its size only. *)
Lemma free_same (st st' : state) (c : Z * Z) :
  board st' = board st -> BW st' = BW st -> BH st' = BH st ->
  free st c -> free st' c.
Proof. unfold free. intros -> -> ->. tauto. Qed.

Lemma playable_same (st st' : state) :
  board st' = board st -> BW st' = BW st -> BH st' = BH st ->
  current st' = current st -> game_over st' = game_over st ->
  playable st -> playable st'.
Proof.
  intros Hb Hw Hh Hc Hg (H1 & H2 & [H3 H3'] & H4 & p & Hp & Hr & Hf).
  unfold playable, board_shaped. rewrite Hb, Hw, Hh, Hc, Hg.
  split; [exact H1|]. split; [exact H2|]. split; [split; assumption|].
  split; [exact H4|]. exists p. split; [exact Hp|]. split; [exact Hr|].
  intros Hgo. eapply Forall_impl; [exact (Hf Hgo)|].
  intros c. apply free_same; assumption.
Qed.

(** *** Locking a piece *)

Lemma filter_insert_le {A} (P : A -> Prop) `{forall x, Decision (P x)}
    (l : list A) (i : nat) (x : A) :
  (length (filter P l) <= S (length (filter P (<[i:=x]> l))))%nat.
Proof.
  revert i. induction l as [|a l IH]; intros i.
  - simpl. lia.
  - destruct i as [|i].
    + simpl. rewrite !filter_cons.
      destruct (decide (P a)), (decide (P x)); simpl; lia.
    + simpl. rewrite !filter_cons. specialize (IH i).
      destruct (decide (P a)); simpl; lia.
Qed.

Lemma setitem_run {A} (l : list A) (i : Z) (v : A) :
  0 <= i < Z.of_nat (length l) ->
  py_setitem l i v = Ok (<[Z.to_nat i := v]> l).
Proof.
  intros H. unfold py_setitem.
  destruct (Z.ltb_spec i 0); [lia|].
  destruct (Z.ltb_spec i 0); [lia|].
  destruct (Z.leb_spec (Z.of_nat (length l)) i); [lia|]. reflexivity.
Qed.

Lemma paint_spec (bw bh : Z) (color : string) (cells : list (Z * Z))
    (b : list (list cell)) :
  length b = Z.to_nat bh ->
  Forall (fun row => length row = Z.to_nat bw) b ->
  exists b', paint bw bh color cells b = Ok b'
             /\ length b' = Z.to_nat bh
             /\ Forall (fun row => length row = Z.to_nat bw) b'
             /\ (length (filter (fun row => has_empty row = true) b)
                 <= length (filter (fun row => has_empty row = true) b')
                    + length cells)%nat.
Proof.
  revert b. induction cells as [|[cx cy] rest IH]; intros b Hl Hr.
  - exists b. split; [reflexivity|]. split; [exact Hl|]. split; [exact Hr|].
    simpl. lia.
  - cbn [paint].
    destruct ((0 <=? cy) && (cy <? bh) && (0 <=? cx) && (cx <? bw)) eqn:Eb.
    + rewrite !andb_true_iff in Eb. rewrite !Z.leb_le, !Z.ltb_lt in Eb.
      destruct Eb as (((E1 & E2) & E3) & E4).
      destruct (lookup_lt_is_Some_2 b (Z.to_nat cy)) as [row Hrow]; [lia|].
      assert (Hlen : length row = Z.to_nat bw).
      { rewrite Forall_forall in Hr. apply Hr.
        eapply list_elem_of_lookup_2. exact Hrow. }
      assert (Hpr : py_index b cy = Ok row).
      { rewrite <- (Z2Nat.id cy) at 1 by lia. apply py_index_lookup. exact Hrow. }
      rewrite Hpr, ok_bind. unfold cell in *.
      rewrite setitem_run by lia. rewrite ok_bind.
      rewrite setitem_run by lia. rewrite ok_bind.
      destruct (IH (<[Z.to_nat cy := <[Z.to_nat cx := Some color]> row]> b))
        as (b' & Hb' & Hl' & Hr' & Hc').
      * rewrite length_insert. exact Hl.
      * apply Forall_insert; [exact Hr|]. rewrite length_insert. exact Hlen.
      * exists b'. split; [exact Hb'|]. split; [exact Hl'|]. split; [exact Hr'|].
        pose proof (filter_insert_le (fun row => has_empty row = true) b
                      (Z.to_nat cy) (<[Z.to_nat cx := Some color]> row)) as Hf.
        unfold cell in *. cbn [length]. lia.
    + destruct (IH b Hl Hr) as (b' & Hb' & Hl' & Hr' & Hc').
      exists b'. split; [exact Hb'|]. split; [exact Hl'|]. split; [exact Hr'|].
      simpl. lia.
Qed.

Lemma has_empty_empty_row (w : Z) : 0 < w -> has_empty (empty_row w) = true.
Proof.
  intros H. unfold empty_row.
  destruct (Z.to_nat w) as [|n] eqn:E; [lia|]. reflexivity.
Qed.

Lemma Forall_filter_all {A} (P : A -> Prop) `{forall x, Decision (P x)}
    (l : list A) :
  length (filter P l) = length l -> Forall P l.
Proof.
  induction l as [|a l IH]; intros Hl; [constructor|].
  rewrite filter_cons in Hl. pose proof (length_filter P l) as Hle.
  destruct (decide (P a)) as [Hp|Hn]; simpl in Hl.
  - constructor; [exact Hp|]. apply IH. lia.
  - lia.
Qed.

Lemma Forall_filter_self {A} (P : A -> Prop) `{forall x, Decision (P x)}
    (l : list A) :
  Forall P l -> filter P l = l.
Proof.
  induction 1 as [|a l Hp _ IH]; [reflexivity|].
  rewrite filter_cons. destruct (decide (P a)); [|contradiction].
  rewrite IH. reflexivity.
Qed.

Lemma clear_lines_spec (st : state) :
  0 < BW st -> board_shaped st ->
  (Z.to_nat (BH st)
   <= length (filter (fun row => has_empty row = true) (board st)) + 4)%nat ->
  exists st', _clear_lines st = Ok st'
              /\ board_shaped st'
              /\ Forall (fun row => has_empty row = true) (board st')
              /\ BW st' = BW st /\ BH st' = BH st
              /\ current st' = current st /\ next_queue st' = next_queue st.
Proof.
  intros Hw [Hl Hr] Hc. unfold _clear_lines.
  set (new_rows := filter (fun row => has_empty row = true) (board st)) in *.
  pose proof (length_filter (fun row => has_empty row = true) (board st)) as Hle.
  fold new_rows in Hle.
  destruct (Z.ltb_spec 0 (BH st - Z.of_nat (length new_rows))) as [Hpos|Hzero].
  - set (cleared := BH st - Z.of_nat (length new_rows)) in *.
    assert (Hcl : cleared = 1 \/ cleared = 2 \/ cleared = 3 \/ cleared = 4)
      by (unfold cleared in *; lia).
    assert (Hp : exists pts, py_index [40; 100; 300; 1200] (cleared - 1) = Ok pts).
    { destruct Hcl as [ -> | [ -> | [ -> | -> ] ] ]; eexists; reflexivity. }
    destruct Hp as [pts Hp]. rewrite Hp, ok_bind.
    eexists. split; [reflexivity|].
    split.
    { split; cbn.
      - rewrite length_app, length_replicate. unfold cleared. lia.
      - apply Forall_app. split.
        + apply Forall_replicate. unfold empty_row. apply length_replicate.
        + unfold new_rows. apply Forall_forall. intros row Hin.
          apply list_elem_of_filter in Hin. destruct Hin as [_ Hin].
          rewrite Forall_forall in Hr. apply Hr. exact Hin. }
    split.
    { cbn. apply Forall_app. split.
      - apply Forall_replicate. apply has_empty_empty_row. exact Hw.
      - unfold new_rows. apply Forall_forall. intros row Hin.
        apply list_elem_of_filter in Hin. tauto. }
    repeat split.
  - exists st. split; [reflexivity|]. split; [split; assumption|].
    split; [|repeat split].
    apply (Forall_filter_all (fun row => has_empty row = true)).
  fold new_rows. lia.
Qed.

Lemma end_game_fields (st : state) :
  board (end_game st) = board st /\ BW (end_game st) = BW st
  /\ BH (end_game st) = BH st /\ current (end_game st) = current st
  /\ game_over (end_game st) = true /\ timer_active (end_game st) = false.
Proof.
  unfold end_game. cbn. destruct (highscore st <? score st); cbn; repeat split.
Qed.

Lemma bag_length (bag : list shape) :
  Permutation bag BAG_ORDER -> length bag = 7%nat.
Proof. intros H. rewrite (Permutation_length H). reflexivity. Qed.

Lemma spawn_piece_spec (bag : list shape) (st : state) :
  4 <= BW st -> 3 <= BH st -> board_shaped st ->
  Forall (fun row => has_empty row = true) (board st) ->
  length bag = 7%nat ->
  exists st', _spawn_piece bag st = Ok st'
              /\ playable st' /\ BW st' = BW st /\ BH st' = BH st
              /\ board st' = board st.
Proof.
  intros Hw Hh Hs He Hb. unfold _spawn_piece.
  set (st1 := if Z.of_nat (length (next_queue st)) <? 7
              then _refill_bag bag st else st).
  assert (H1 : board st1 = board st /\ BW st1 = BW st /\ BH st1 = BH st
               /\ next_queue st1 <> []).
  { unfold st1. destruct (Z.ltb_spec (Z.of_nat (length (next_queue st))) 7).
    - cbn. repeat split. intros Hq. apply (f_equal length) in Hq.
      rewrite length_app in Hq. simpl in Hq. lia.
    - repeat split. intros Hq. rewrite Hq in *. simpl in *. lia. }
  destruct H1 as (Hb1 & Hw1 & Hh1 & Hq1).
  destruct (next_queue st1) as [|sh q] eqn:Eq; [contradiction|].
  set (p := {| p_shape := sh; p_rot := 0; p_x := (BW st1 - 4) / 2; p_y := 0 |}).
  set (st2 := set_current (Some p) (set_next_queue q st1)).
  assert (Hs2 : board_shaped st2).
  { unfold board_shaped, st2. cbn. rewrite Hb1, Hw1, Hh1. exact Hs. }
  destruct (collides_spec st2 sh 0 ((BW st1 - 4) / 2) 0 Hs2) as (c & Hc & Hiff);
    [lia|].
  rewrite Hc, ok_bind. fold p in Hiff.
  assert (Hbase : forall st', board st' = board st2 -> BW st' = BW st2 ->
            BH st' = BH st2 -> current st' = Some p ->
            (game_over st' = false -> c = false) ->
            playable st' /\ BW st' = BW st /\ BH st' = BH st
            /\ board st' = board st).
  { intros st' Eb Ew Eh Ec Eg.
    assert (Eb2 : board st2 = board st) by (unfold st2; cbn; exact Hb1).
    assert (Ew2 : BW st2 = BW st) by (unfold st2; cbn; exact Hw1).
    assert (Eh2 : BH st2 = BH st) by (unfold st2; cbn; exact Hh1).
    split; [|rewrite Ew, Eh, Eb; auto].
    unfold playable, board_shaped. rewrite Eb, Ew, Eh, Eb2, Ew2, Eh2, Ec.
    split; [exact Hw|]. split; [exact Hh|]. split; [exact Hs|].
    split; [exact He|]. exists p. split; [reflexivity|]. split; [cbn; lia|].
    intros Hg. apply Eg in Hg. apply Hiff in Hg.
    eapply Forall_impl; [exact Hg|]. intros cc. apply free_same; congruence. }
  destruct c.
  - exists (end_game st2). split; [reflexivity|].
    destruct (end_game_fields st2) as (F1 & F2 & F3 & F4 & F5 & _).
    apply Hbase; try assumption.
    intros Hg. rewrite F5 in Hg. discriminate Hg.
  - exists st2. split; [reflexivity|]. apply Hbase; reflexivity.
Qed.

Lemma lock_piece_spec (bag : list shape) (st : state) (p : piece) :
  4 <= BW st -> 3 <= BH st -> board_shaped st ->
  Forall (fun row => has_empty row = true) (board st) ->
  current st = Some p -> 0 <= p_rot p < 4 -> length bag = 7%nat ->
  exists st', _lock_piece bag st = Ok st'
              /\ playable st' /\ BW st' = BW st /\ BH st' = BH st.
Proof.
  intros Hw Hh [Hl Hr] He Hc Hrot Hb. unfold _lock_piece. rewrite Hc.
  destruct p as [sh rot x y]. cbn [p_shape p_rot p_x p_y] in *.
  rewrite (cells_run sh rot x y Hrot), ok_bind.
  destruct (shape_cells sh rot Hrot) as (l & Hlk & _ & Hl4 & _).
  assert (Hlen : length (cells_of {| p_shape := sh; p_rot := rot;
                                     p_x := x; p_y := y |}) = 4%nat).
  { unfold cells_of. cbn [p_shape p_rot]. rewrite Hlk, length_map. exact Hl4. }
  destruct (paint_spec (BW st) (BH st) (PIECE_COLORS sh)
              (cells_of {| p_shape := sh; p_rot := rot; p_x := x; p_y := y |})
              (board st) Hl Hr) as (b' & Hp & Hl' & Hr' & Hcnt).
  rewrite Hp, ok_bind.
  rewrite (Forall_filter_self _ _ He) in Hcnt. rewrite Hlen, Hl in Hcnt.
  destruct (clear_lines_spec (set_board b' st)) as
    (st1 & H1 & Hs1 & He1 & Hw1 & Hh1 & _).
  { cbn. lia. }
  { split; cbn; assumption. }
  { cbn. lia. }
  rewrite H1, ok_bind. cbn in Hw1, Hh1.
  destruct (spawn_piece_spec bag st1) as (st' & H' & Hp' & Hw' & Hh' & _);
    try assumption; try lia.
  exists st'. split; [exact H'|]. split; [exact Hp'|]. split; congruence.
Qed.

(** *** One event *)

Lemma kept_refl (st : state) : playable st -> kept st st.
Proof. intros H. split; [exact H|]. split; reflexivity. Qed.

(** Putting the current piece on free cells keeps the state playable. *)
Lemma kept_set_current (st : state) (p : piece) :
  playable st -> 0 <= p_rot p < 4 -> Forall (free st) (cells_of p) ->
  kept st (set_current (Some p) st).
Proof.
  intros (H1 & H2 & H3 & H4 & _) Hr Hf.
  split; [|split; reflexivity].
  split; [exact H1|]. split; [exact H2|]. split; [exact H3|]. split; [exact H4|].
  exists p. split; [reflexivity|]. split; [exact Hr|]. intros _.
  eapply Forall_impl; [exact Hf|]. intros c. apply free_same; reflexivity.
Qed.

Lemma move_kept (dx dy : Z) (bag : list shape) (st : state) :
  playable st -> length bag = 7%nat ->
  exists st', move dx dy bag st = Ok st' /\ kept st st'.
Proof.
  intros Hp Hb. pose proof Hp as (H1 & H2 & H3 & H4 & p & Hc & Hr & Hf).
  unfold move. rewrite Hc.
  destruct (paused st || game_over st) eqn:Eg.
  { exists st. split; [reflexivity|]. apply kept_refl. exact Hp. }
  destruct (collides_spec st (p_shape p) (p_rot p) (p_x p + dx) (p_y p + dy) H3 Hr)
    as (c & Hcol & Hiff).
  rewrite Hcol, ok_bind. destruct c; cbn [negb].
  - destruct ((0 <? dy) && (dx =? 0)).
    + destruct (lock_piece_spec bag st p H1 H2 H3 H4 Hc Hr Hb) as (st' & Hl & Hk).
      exists st'. split; [exact Hl|]. exact Hk.
    + exists st. split; [reflexivity|]. apply kept_refl. exact Hp.
  - assert (Hk : kept st (set_current
              (Some {| p_shape := p_shape p; p_rot := p_rot p;
                       p_x := p_x p + dx; p_y := p_y p + dy |}) st)).
    { apply kept_set_current; [exact Hp|exact Hr|]. apply Hiff. reflexivity. }
    destruct ((0 <? dy) && (dx =? 0)).
    + eexists. split; [reflexivity|].
      destruct Hk as (Hk & Hw & Hh). split; [|split; [exact Hw|exact Hh]].
      eapply playable_same; [| | | | |exact Hk]; reflexivity.
    + eexists. split; [reflexivity|]. exact Hk.
Qed.

Lemma tick_kept (bag : list shape) (st : state) :
  playable st -> length bag = 7%nat ->
  exists st', tick bag st = Ok st' /\ kept st st'.
Proof.
  intros Hp Hb. unfold tick. destruct (paused st || game_over st).
  - exists st. split; [reflexivity|]. apply kept_refl. exact Hp.
  - apply move_kept; assumption.
Qed.

Lemma try_kicks_kept (st : state) (p : piece) (new_rot : Z) (kicks : list Z) :
  playable st -> 0 <= new_rot < 4 ->
  exists st', try_kicks st p new_rot kicks = Ok st' /\ kept st st'.
Proof.
  intros Hp Hr. pose proof Hp as (_ & _ & H3 & _).
  induction kicks as [|dx rest IH].
  - exists st. split; [reflexivity|]. apply kept_refl. exact Hp.
  - cbn [try_kicks].
    destruct (collides_spec st (p_shape p) new_rot (p_x p + dx) (p_y p) H3 Hr)
      as (c & Hcol & Hiff).
    rewrite Hcol, ok_bind. destruct c; cbn [negb].
    + exact IH.
    + eexists. split; [reflexivity|].
      apply kept_set_current; [exact Hp|exact Hr|]. apply Hiff. reflexivity.
Qed.

Lemma rotate_kept (dir : Z) (st : state) :
  playable st -> exists st', rotate dir st = Ok st' /\ kept st st'.
Proof.
  intros Hp. unfold rotate. destruct (current st) as [p|].
  - destruct (paused st || game_over st).
    + exists st. split; [reflexivity|]. apply kept_refl. exact Hp.
    + apply try_kicks_kept; [exact Hp|]. apply Z.mod_pos_bound. lia.
  - exists st. split; [reflexivity|]. apply kept_refl. exact Hp.
Qed.

(** *** Hard drop *)

(** A piece that is free at [y] and at [y + d] has [d < BH]. *)
Lemma free_rows_bound (st : state) (sh : shape) (rot x y d : Z) :
  0 <= rot < 4 ->
  Forall (free st) (at_row sh rot x y) ->
  Forall (free st) (at_row sh rot x (y + d)) -> d < BH st.
Proof.
  intros Hr H0 Hd. destruct (shape_cells sh rot Hr) as (l & Hlk & _ & Hl4 & _).
  unfold at_row, cells_of in *. cbn [p_shape p_rot p_x p_y] in *.
  rewrite Hlk in *. destruct l as [|c l]; [discriminate Hl4|].
  inversion H0 as [|? ? (_ & Ha & _) _]; subst.
  inversion Hd as [|? ? (_ & Hb & _) _]; subst.
  cbn [fst snd] in Ha, Hb. lia.
Qed.

Lemma hard_drop_loop_spec (st : state) (sh : shape) (rot x y : Z) :
  board_shaped st -> 0 <= rot < 4 ->
  Forall (free st) (at_row sh rot x y) ->
  forall (fuel : nat) (d : Z),
    0 <= d ->
    (forall i, 0 <= i <= d -> Forall (free st) (at_row sh rot x (y + i))) ->
    BH st <= Z.of_nat fuel + d ->
    exists d', hard_drop_loop fuel st sh rot x y d = Ok (Some d')
               /\ d <= d'
               /\ (forall i, 0 <= i <= d' ->
                     Forall (free st) (at_row sh rot x (y + i)))
               /\ ~ Forall (free st) (at_row sh rot x (y + d' + 1)).
Proof.
  intros Hs Hr H0 fuel. induction fuel as [|fuel IH]; intros d Hd Hfree Hfuel.
  - exfalso. pose proof (free_rows_bound st sh rot x y d Hr H0) as Hb.
    specialize (Hfree d ltac:(lia)). specialize (Hb Hfree). lia.
  - cbn [hard_drop_loop].
    destruct (collides_spec st sh rot x (y + d + 1) Hs Hr) as (c & Hcol & Hiff).
    rewrite Hcol, ok_bind. destruct c; cbn [negb].
    + exists d. split; [reflexivity|]. split; [lia|]. split; [exact Hfree|].
      intros Hf. apply Hiff in Hf. discriminate Hf.
    + destruct (IH (d + 1)) as (d' & Hl & Hle & Hall & Hstop).
      * lia.
      * intros i Hi. destruct (Z.eq_dec i (d + 1)) as [->|Hne].
        -- replace (y + (d + 1)) with (y + d + 1) by lia. apply Hiff. reflexivity.
        -- apply Hfree. lia.
      * lia.
      * exists d'. split; [exact Hl|]. split; [lia|]. split; assumption.
Qed.

Lemma hard_drop_kept (fuel : nat) (bag : list shape) (st : state) :
  playable st -> length bag = 7%nat -> BH st <= Z.of_nat fuel ->
  exists st', hard_drop fuel bag st = Ok (Some st') /\ kept st st'.
Proof.
  intros Hp Hb Hfuel. pose proof Hp as (H1 & H2 & H3 & H4 & p & Hc & Hr & Hf).
  unfold hard_drop. rewrite Hc.
  destruct (paused st || game_over st) eqn:Eg.
  { exists st. split; [reflexivity|]. apply kept_refl. exact Hp. }
  apply orb_false_iff in Eg. destruct Eg as [_ Eg].
  assert (H0 : Forall (free st) (at_row (p_shape p) (p_rot p) (p_x p) (p_y p))).
  { unfold at_row. destruct p; apply Hf. exact Eg. }
  destruct (hard_drop_loop_spec st (p_shape p) (p_rot p) (p_x p) (p_y p) H3 Hr H0
              fuel 0) as (d & Hl & Hd & _).
  { lia. }
  { intros i Hi. replace i with 0 by lia. rewrite Z.add_0_r. exact H0. }
  { lia. }
  unfold hard_drop_distance. rewrite Hl, ok_bind.
  match goal with
  | |- context [_lock_piece bag ?s2] =>
      destruct (lock_piece_spec bag s2
                  {| p_shape := p_shape p; p_rot := p_rot p;
                     p_x := p_x p; p_y := p_y p + d |})
        as (st' & Hlock & Hk & Hw & Hh)
  end; try assumption; try reflexivity.
  rewrite Hlock, ok_bind. exists st'. split; [reflexivity|].
  split; [exact Hk|]. split; [exact Hw|exact Hh].
Qed.

(** *** New game *)

Lemma empty_board_free (st : state) (c : Z * Z) :
  board st = replicate (Z.to_nat (BH st)) (empty_row (BW st)) ->
  0 <= c.1 < BW st -> 0 <= c.2 < BH st -> free st c.
Proof.
  intros Hb Hx Hy. split; [exact Hx|]. split; [exact Hy|].
  exists (empty_row (BW st)). split.
  - rewrite Hb. apply lookup_replicate_2. lia.
  - unfold empty_row. apply lookup_replicate_2. lia.
Qed.

Lemma new_game_kept (bag bag2 : list shape) (st : state) :
  playable st -> length bag = 7%nat ->
  exists st', new_game bag bag2 st = Ok st' /\ kept st st'
              /\ game_over st' = false /\ paused st' = false
              /\ score st' = 0 /\ level st' = 1 /\ lines_cleared st' = 0
              /\ board st' = replicate (Z.to_nat (BH st)) (empty_row (BW st))
              /\ timer_active st' = timer_active st.
Proof.
  intros (H1 & H2 & _) Hb. unfold new_game, _spawn_piece.
  cbn [next_queue _refill_bag set_next_queue app length].
  destruct bag as [|sh q]; [discriminate Hb|].
  destruct (Z.ltb_spec (Z.of_nat (length (sh :: q))) 7) as [Hlt|_];
    [rewrite Hb in Hlt; lia|].
  cbn [next_queue BW _refill_bag set_next_queue app].
  match goal with
  | |- context [_collides ?s2 sh 0 ?x 0] =>
      set (st2 := s2);
      assert (Hs2 : board_shaped st2)
  end.
  { split; cbn.
    - apply length_replicate.
    - apply Forall_replicate. unfold empty_row. apply length_replicate. }
  destruct (collides_spec st2 sh 0 ((BW st - 4) / 2) 0 Hs2) as (c & Hcol & Hiff);
    [lia|].
  assert (Hfree : Forall (free st2) (cells_of {| p_shape := sh; p_rot := 0;
                                                 p_x := (BW st - 4) / 2;
                                                 p_y := 0 |})).
  { destruct (spawn_cells sh) as (l & Hlk & Hl).
    unfold cells_of. cbn [p_shape p_rot p_x p_y]. change (Z.to_nat 0) with 0%nat.
    rewrite Hlk. apply Forall_map. eapply Forall_impl; [exact Hl|].
    intros [cx cy] [Hx Hy]. cbn [fst snd] in *.
    assert (0 <= (BW st - 4) / 2 <= BW st - 4).
    { split; [apply Z.div_pos; lia|]. apply Z.div_le_upper_bound; lia. }
    apply empty_board_free; cbn; [reflexivity|lia|lia]. }
  apply Hiff in Hfree. subst c. rewrite Hcol, ok_bind.
  eexists. split; [reflexivity|].
  split; [|cbn; repeat split].
  split; [|split; reflexivity].
  split; [exact H1|]. split; [exact H2|]. split; [exact Hs2|].
  split.
  { cbn. apply Forall_replicate. apply has_empty_empty_row. lia. }
  eexists. split; [reflexivity|]. split; [cbn; lia|]. intros _.
  assert (Hf : Forall (free st2) (cells_of {| p_shape := sh; p_rot := 0;
                                              p_x := (BW st - 4) / 2;
                                              p_y := 0 |}))
    by (apply Hiff; reflexivity).
  eapply Forall_impl; [exact Hf|]. intros cc. apply free_same; reflexivity.
Qed.

Lemma handle_kept (fuel : nat) (e : event) (st : state) :
  playable st -> bags_ok e -> BH st <= Z.of_nat fuel ->
  exists st', handle fuel e st = Ok (Some st') /\ kept st st'.
Proof.
  intros Hp Hb Hfuel. destruct e as [bag|k bag bag2]; cbn [handle bags_ok] in *.
  - destruct (tick_kept bag st Hp (bag_length bag Hb)) as (st' & H & Hk).
    rewrite H. exists st'. split; [reflexivity|exact Hk].
  - destruct Hb as [Hb Hb2]. apply bag_length in Hb.
    destruct k.
    + destruct (move_kept (-1) 0 bag st Hp Hb) as (st' & H & Hk).
      rewrite H. exists st'. split; [reflexivity|exact Hk].
    + destruct (move_kept 1 0 bag st Hp Hb) as (st' & H & Hk).
      rewrite H. exists st'. split; [reflexivity|exact Hk].
    + destruct (move_kept 0 1 bag st Hp Hb) as (st' & H & Hk).
      rewrite H. exists st'. split; [reflexivity|exact Hk].
    + destruct (rotate_kept 1 st Hp) as (st' & H & Hk).
      rewrite H. exists st'. split; [reflexivity|exact Hk].
    + destruct (rotate_kept (-1) st Hp) as (st' & H & Hk).
      rewrite H. exists st'. split; [reflexivity|exact Hk].
    + apply hard_drop_kept; assumption.
    + eexists. split; [reflexivity|]. split; [|split; reflexivity].
      eapply playable_same; [| | | | |exact Hp]; reflexivity.
    + destruct (new_game_kept bag bag2 st Hp Hb) as (st' & H & Hk & _).
      rewrite H. exists st'. split; [reflexivity|exact Hk].
    + eexists. split; [reflexivity|]. split; [|split; reflexivity].
      eapply playable_same; [| | | | |exact Hp]; reflexivity.
Qed.

Lemma stacked_playable : playable stacked.
Proof.
  split; [cbn; lia|]. split; [cbn; lia|].
  split; [split; [reflexivity|repeat constructor]|].
  split; [repeat constructor|].
  eexists. split; [reflexivity|]. split; [cbn; lia|]. intros _.
  repeat constructor; cbn; try lia; eexists; split; reflexivity.
Qed.

Lemma try_kicks_spec (st : state) (p : piece) (r : Z) (kicks : list Z) :
  board_shaped st -> 0 <= r < 4 ->
  (exists pre dx post,
      kicks = pre ++ dx :: post
      /\ Forall (fun k => ~ Forall (free st)
                             (at_row (p_shape p) r (p_x p + k) (p_y p))) pre
      /\ Forall (free st) (at_row (p_shape p) r (p_x p + dx) (p_y p))
      /\ try_kicks st p r kicks
         = Ok (set_current (Some {| p_shape := p_shape p; p_rot := r;
                                    p_x := p_x p + dx; p_y := p_y p |}) st))
  \/ (Forall (fun k => ~ Forall (free st)
                          (at_row (p_shape p) r (p_x p + k) (p_y p))) kicks
      /\ try_kicks st p r kicks = Ok st).
Proof.
  intros Hs Hr. induction kicks as [|dx rest IH].
  - right. split; [constructor|reflexivity].
  - cbn [try_kicks].
    destruct (collides_spec st (p_shape p) r (p_x p + dx) (p_y p) Hs Hr)
      as (c & Hcol & Hiff).
    rewrite Hcol, ok_bind. destruct c; cbn [negb].
    + assert (Hn : ~ Forall (free st) (at_row (p_shape p) r (p_x p + dx) (p_y p))).
      { intros Hf. apply Hiff in Hf. discriminate Hf. }
      destruct IH as [(pre & k & post & -> & Hpre & Hk & Hrun)|[Hall Hrun]].
      * left. exists (dx :: pre), k, post. split; [reflexivity|].
        split; [constructor; assumption|]. split; assumption.
      * right. split; [constructor; assumption|exact Hrun].
    + left. exists [], dx, rest. split; [reflexivity|]. split; [constructor|].
      split; [apply Hiff; reflexivity|reflexivity].
Qed.

(** *** The properties *)

(** X20.  A game never fails and stays playable: from a playable state
    (a board of [BH] rows of [BW] cells with no complete row, and the
    current piece on free cells unless the game is over), any sequence of
    timer ticks and key presses whose bags are shuffles of the seven
    shapes returns, with a hard-drop loop of at most [BH] iterations, a
    playable state of the same board size: no [IndexError], neither from
    the board, nor from the score table [(40, 100, 300, 1200)], nor from
    an empty queue. *)
Theorem tetris_game_stays_playable (fuel : nat) (events : list event) (st : state) :
  playable st -> Forall bags_ok events -> BH st <= Z.of_nat fuel ->
  exists st', run fuel events st = Ok (Some st')
              /\ playable st' /\ BW st' = BW st /\ BH st' = BH st.
Proof.
  intros Hp Hb. revert st Hp.
  induction Hb as [|e rest He _ IH]; intros st Hp Hfuel.
  - exists st. split; [reflexivity|]. split; [exact Hp|]. split; reflexivity.
  - cbn [run].
    destruct (handle_kept fuel e st Hp He Hfuel) as (st1 & H1 & Hp1 & Hw1 & Hh1).
    rewrite H1, ok_bind.
    destruct (IH st1 Hp1) as (st' & H' & Hp' & Hw' & Hh');
      [rewrite Hh1; exact Hfuel|].
    exists st'. split; [exact H'|]. split; [exact Hp'|]. split; congruence.
Qed.

Lemma tetris_game_stays_playable_witness :
  playable stacked
  /\ Forall bags_ok [Key Up BAG_ORDER BAG_ORDER; Tick BAG_ORDER;
                     Key Space BAG_ORDER BAG_ORDER; Key Left BAG_ORDER BAG_ORDER;
                     Key N_ BAG_ORDER BAG_ORDER]
  /\ BH stacked <= Z.of_nat 20
  /\ exists st',
       run 20 [Key Up BAG_ORDER BAG_ORDER; Tick BAG_ORDER;
               Key Space BAG_ORDER BAG_ORDER; Key Left BAG_ORDER BAG_ORDER;
               Key N_ BAG_ORDER BAG_ORDER] stacked = Ok (Some st')
       /\ playable st' /\ BW st' = BW stacked /\ BH st' = BH stacked.
Proof.
  assert (Hb : Forall bags_ok [Key Up BAG_ORDER BAG_ORDER; Tick BAG_ORDER;
                     Key Space BAG_ORDER BAG_ORDER; Key Left BAG_ORDER BAG_ORDER;
                     Key N_ BAG_ORDER BAG_ORDER]).
  { repeat constructor. }
  assert (Hf : BH stacked <= Z.of_nat 20) by (cbn; lia).
  split; [exact stacked_playable|]. split; [exact Hb|]. split; [exact Hf|].
  exact (tetris_game_stays_playable 20 _ stacked stacked_playable Hb Hf).
Defined.

(** X21.  [hard_drop_distance] returns the distance to the landing row:
    for a piece on free cells of a well-shaped board the loop ends within
    [BH] iterations with a [d >= 0] such that the piece is on free cells
    at every row from [y] to [y + d] and is blocked at [y + d + 1]. *)
Theorem tetris_hard_drop_lands (fuel : nat) (st : state) (sh : shape)
    (rot x y : Z) :
  board_shaped st -> 0 <= rot < 4 ->
  Forall (free st) (at_row sh rot x y) ->
  BH st <= Z.of_nat fuel ->
  exists d, hard_drop_distance fuel st sh rot x y = Ok (Some d)
            /\ 0 <= d
            /\ (forall i, 0 <= i <= d ->
                  Forall (free st) (at_row sh rot x (y + i)))
            /\ ~ Forall (free st) (at_row sh rot x (y + d + 1)).
Proof.
  intros Hs Hr H0 Hfuel. unfold hard_drop_distance.
  apply hard_drop_loop_spec; try assumption; try lia.
  intros i Hi. replace i with 0 by lia. rewrite Z.add_0_r. exact H0.
Qed.

Lemma tetris_hard_drop_lands_witness :
  board_shaped stacked /\ 0 <= 0 < 4
  /\ Forall (free stacked) (at_row ShI 0 3 0)
  /\ BH stacked <= Z.of_nat 20
  /\ hard_drop_distance 20 stacked ShI 0 3 0 = Ok (Some 17)
  /\ exists d, hard_drop_distance 20 stacked ShI 0 3 0 = Ok (Some d)
               /\ 0 <= d
               /\ (forall i, 0 <= i <= d ->
                     Forall (free stacked) (at_row ShI 0 3 (0 + i)))
               /\ ~ Forall (free stacked) (at_row ShI 0 3 (0 + d + 1)).
Proof.
  assert (Hs : board_shaped stacked) by (split; [reflexivity|repeat constructor]).
  assert (Hr : 0 <= 0 < 4) by lia.
  assert (H0 : Forall (free stacked) (at_row ShI 0 3 0)).
  { repeat constructor; cbn; try lia; eexists; split; reflexivity. }
  assert (Hf : BH stacked <= Z.of_nat 20) by (cbn; lia).
  split; [exact Hs|]. split; [exact Hr|]. split; [exact H0|]. split; [exact Hf|].
  split; [vm_compute; reflexivity|].
  exact (tetris_hard_drop_lands 20 stacked ShI 0 3 0 Hs Hr H0 Hf).
Defined.

(** X22.  [rotate] takes the first wall kick, in the order 0, -1, 1, -2,
    2, at which the rotated piece is on free cells, and keeps the shape
    and the row; when no kick fits the piece is left as it was.  The new
    rotation is [(rot + dir) % 4]. *)
Theorem tetris_rotate_first_free_kick (dir : Z) (st : state) (p : piece) :
  board_shaped st -> current st = Some p ->
  paused st = false -> game_over st = false ->
  let r := (p_rot p + dir) mod 4 in
  let blocked k := ~ Forall (free st) (at_row (p_shape p) r (p_x p + k) (p_y p)) in
  (exists pre dx post,
      [0; -1; 1; -2; 2] = pre ++ dx :: post
      /\ Forall blocked pre
      /\ Forall (free st) (at_row (p_shape p) r (p_x p + dx) (p_y p))
      /\ rotate dir st
         = Ok (set_current (Some {| p_shape := p_shape p; p_rot := r;
                                    p_x := p_x p + dx; p_y := p_y p |}) st))
  \/ (Forall blocked [0; -1; 1; -2; 2] /\ rotate dir st = Ok st).
Proof.
  intros Hs Hc Hp Hg r blocked. unfold rotate. rewrite Hc, Hp, Hg.
  cbn [orb]. apply try_kicks_spec; [exact Hs|]. apply Z.mod_pos_bound. lia.
Qed.

Lemma tetris_rotate_first_free_kick_witness :
  board_shaped stacked
  /\ rotate 1 stacked
     = Ok (set_current (Some {| p_shape := ShI; p_rot := 1; p_x := 3; p_y := 0 |})
             stacked)
  /\ ((exists pre dx post,
         [0; -1; 1; -2; 2] = pre ++ dx :: post
         /\ Forall (fun k => ~ Forall (free stacked) (at_row ShI 1 (3 + k) 0)) pre
         /\ Forall (free stacked) (at_row ShI 1 (3 + dx) 0)
         /\ rotate 1 stacked
            = Ok (set_current (Some {| p_shape := ShI; p_rot := 1;
                                       p_x := 3 + dx; p_y := 0 |}) stacked))
      \/ (Forall (fun k => ~ Forall (free stacked) (at_row ShI 1 (3 + k) 0))
            [0; -1; 1; -2; 2]
          /\ rotate 1 stacked = Ok stacked)).
Proof.
  assert (Hs : board_shaped stacked) by (split; [reflexivity|repeat constructor]).
  split; [exact Hs|]. split; [vm_compute; reflexivity|].
  exact (tetris_rotate_first_free_kick 1 stacked
           {| p_shape := ShI; p_rot := 0; p_x := 3; p_y := 0 |}
           Hs eq_refl eq_refl eq_refl).
Defined.

(** X23.  [new_game] restarts on an empty board with score 0, level 1
    and no cleared lines, unpaused and not over, the new piece on free
    cells; it does not touch the timer: after a game over, which stopped
    the timer, the new game has no running timer. *)
Theorem tetris_new_game_keeps_timer_state (bag bag2 : list shape) (st : state) :
  playable st -> Permutation bag BAG_ORDER ->
  exists st', new_game bag bag2 st = Ok st'
              /\ playable st'
              /\ game_over st' = false /\ paused st' = false
              /\ score st' = 0 /\ level st' = 1 /\ lines_cleared st' = 0
              /\ board st' = replicate (Z.to_nat (BH st)) (empty_row (BW st))
              /\ timer_active st' = timer_active st.
Proof.
  intros Hp Hb.
  destruct (new_game_kept bag bag2 st Hp (bag_length bag Hb))
    as (st' & H & (Hk & _) & Hrest).
  exists st'. split; [exact H|]. split; [exact Hk|exact Hrest].
Qed.

Lemma tetris_new_game_keeps_timer_state_witness :
  playable (end_game stacked) /\ Permutation BAG_ORDER BAG_ORDER
  /\ timer_active (end_game stacked) = false
  /\ exists st', new_game BAG_ORDER BAG_ORDER (end_game stacked) = Ok st'
                 /\ playable st'
                 /\ game_over st' = false /\ paused st' = false
                 /\ score st' = 0 /\ level st' = 1 /\ lines_cleared st' = 0
                 /\ board st'
                    = replicate (Z.to_nat (BH (end_game stacked)))
                        (empty_row (BW (end_game stacked)))
                 /\ timer_active st' = timer_active (end_game stacked).
Proof.
  assert (Hp : playable (end_game stacked)).
  { split; [cbn; lia|]. split; [cbn; lia|].
    split; [split; [reflexivity|repeat constructor]|].
    split; [repeat constructor|].
    eexists. split; [reflexivity|]. split; [cbn; lia|].
    intros H. discriminate H. }
  split; [exact Hp|]. split; [reflexivity|]. split; [reflexivity|].
  exact (tetris_new_game_keeps_timer_state BAG_ORDER BAG_ORDER (end_game stacked)
           Hp (Permutation_refl _)).
Defined.
End TetrisPlayProps.

